(** * lpr-api: ingestion writer, filter and sort compilers, history and
      options readers

    A shallow embedding of [src/db/queries.ts] together with the parts of
    [src/db/schema.ts], [src/types.ts] and [src/index.ts] it depends on.

    Conventions of the embedding:
    - a JavaScript [number] is a rational ([Q]); [NaN] and the infinities
      are not represented.  The one operation of the code that leaves the
      integers, the division of a confidence bound by 100, rounds to double
      precision ([double]); a [real] column compares and orders its value,
      and reads a bound, in single precision ([float4]), while the table
      keeps the value it was sent and the readers give it back as it is;
    - [pageIndex] and [pageSize] are integers, and an offset or a limit that
      is not negative is one the store can read as a [bigint];
    - a JavaScript string is a [string] whose characters stand for code
      units below 256, none of them the code unit 0, which a PostgreSQL text
      cannot hold;
    - a [Date] and a [timestamp] column are a number of milliseconds since
      the epoch ([Z]); the process runs in a zone with a fixed offset [tz]
      from UTC, so every local day has 24 hours;
    - the PostgreSQL store is the content of the three tables written by the
      ingestion writer plus the three sequences behind their [serial] keys;
      columns that the queries never read or write ([createdAt],
      [updatedAt], [cameraId], [locationId]) are left out;
    - text columns are compared code unit by code unit (the "C" collation);
      values of an enumerated type are ordered by their position in the
      declaration of the type, as PostgreSQL orders them. *)

From Stdlib Require Import ZArith QArith Qround Qabs Lia List Ascii String Permutation
  Sorted.
From stdpp Require Import base gmap strings list infinite.
Close Scope Q_scope.
Set Warnings "-register-all".
Local Open Scope string_scope.
Local Open Scope list_scope.
Local Open Scope Z_scope.

(** ** Enumerated types of the schema *)

Inductive detection_source : Type := SrcUpload | SrcCamera | SrcImport | SrcApi.

Inductive vehicle_category : Type :=
  VehCar | VehTruck | VehMotorcycle | VehBus | VehSpecial | VehOther.

(** [detectionSourceEnum.enumValues] and [vehicleCategoryEnum.enumValues]. *)
Definition detectionSourceEnum : list string :=
  ["upload"; "camera"; "import"; "api"].

Definition vehicleCategoryEnum : list string :=
  ["car"; "truck"; "motorcycle"; "bus"; "special"; "other"].

Definition source_label (s : detection_source) : string :=
  match s with
  | SrcUpload => "upload" | SrcCamera => "camera"
  | SrcImport => "import" | SrcApi => "api"
  end.

Definition vehicle_label (v : vehicle_category) : string :=
  match v with
  | VehCar => "car" | VehTruck => "truck" | VehMotorcycle => "motorcycle"
  | VehBus => "bus" | VehSpecial => "special" | VehOther => "other"
  end.

Definition all_sources : list detection_source :=
  [SrcUpload; SrcCamera; SrcImport; SrcApi].

Definition all_vehicles : list vehicle_category :=
  [VehCar; VehTruck; VehMotorcycle; VehBus; VehSpecial; VehOther].

Definition source_of_label (s : string) : option detection_source :=
  List.find (fun x => String.eqb (source_label x) s) all_sources.

Definition vehicle_of_label (s : string) : option vehicle_category :=
  List.find (fun x => String.eqb (vehicle_label x) s) all_vehicles.

(** Position in the declaration: the order PostgreSQL gives to the values. *)
Definition source_rank (s : detection_source) : Z :=
  match s with
  | SrcUpload => 0 | SrcCamera => 1 | SrcImport => 2 | SrcApi => 3
  end.

Definition vehicle_rank (v : vehicle_category) : Z :=
  match v with
  | VehCar => 0 | VehTruck => 1 | VehMotorcycle => 2
  | VehBus => 3 | VehSpecial => 4 | VehOther => 5
  end.

(** ** JavaScript values *)

Inductive jsval : Type :=
| JUndefined
| JNull
| JBool (b : bool)
| JNum (q : Q)
| JStr (s : string)
| JDate (t : Z)
| JArr (elems : list jsval)
| JObj (fields : list (string * jsval)).

Inductive jstype : Type := TyUndefined | TyObject | TyBoolean | TyNumber | TyString.

Definition typeof (v : jsval) : jstype :=
  match v with
  | JUndefined => TyUndefined
  | JBool _ => TyBoolean
  | JNum _ => TyNumber
  | JStr _ => TyString
  | JNull | JDate _ | JArr _ | JObj _ => TyObject
  end.

Definition is_number (v : jsval) : bool :=
  match typeof v with TyNumber => true | _ => false end.

Fixpoint assoc {V : Type} (k : string) (l : list (string * V)) : option V :=
  match l with
  | [] => None
  | (k', v) :: l' => if String.eqb k k' then Some v else assoc k l'
  end.

(** Plain objects used as dictionaries.  A property read first looks at the
    object's own properties and then at [Object.prototype], so the names
    below are never [undefined]; assigning a number to [__proto__] runs the
    inherited setter, which ignores it. *)
Module JsObject.

Definition prototype_keys : list string :=
  ["constructor"; "__defineGetter__"; "__defineSetter__"; "hasOwnProperty";
   "__lookupGetter__"; "__lookupSetter__"; "isPrototypeOf";
   "propertyIsEnumerable"; "toString"; "valueOf"; "__proto__";
   "toLocaleString"].

Inductive prop (V : Type) : Type :=
| Own (v : V)
| Inherited (k : string)
| Undefined.
Arguments Own {V} v.
Arguments Inherited {V} k.
Arguments Undefined {V}.

Definition inherited (k : string) : bool :=
  bool_decide (k ∈ prototype_keys).

Definition get {V : Type} (o : gmap string V) (k : string) : prop V :=
  match o !! k with
  | Some v => Own v
  | None => if inherited k then Inherited k else Undefined
  end.

Definition set {V : Type} (o : gmap string V) (k : string) (v : V)
  : gmap string V :=
  if String.eqb k "__proto__" then o else <[k := v]> o.

End JsObject.

(** [k in v] and [v.k] for the two keys the date filter reads; no built-in
    prototype defines ["from"] or ["to"]. *)
Definition js_in (k : string) (v : jsval) : bool :=
  match v with
  | JObj fields =>
      match assoc k fields with
      | Some _ => true
      | None => JsObject.inherited k
      end
  | JDate _ | JArr _ => JsObject.inherited k
  | _ => false
  end.

Definition js_field (k : string) (v : jsval) : jsval :=
  match v with
  | JObj fields => match assoc k fields with Some x => x | None => JUndefined end
  | _ => JUndefined
  end.

(** ** API types of [queries.ts] *)

Record ApiPaginationState : Type := { pageIndex : Z; pageSize : Z }.
Record ApiSort : Type := { sort_id : string; sort_desc : bool }.
Definition ApiSortingState : Type := list ApiSort.
Record ApiColumnFilter : Type := { filter_id : string; filter_value : jsval }.
Definition ApiColumnFiltersState : Type := list ApiColumnFilter.

(** ** The range filters built by the [/history] route of [index.ts] *)

(** [a[i] = v] on an array value. *)
Definition set_index (a : jsval) (i : nat) (v : jsval) : jsval :=
  match a with
  | JArr elems => JArr (<[i := v]> elems)
  | _ => a
  end.

(** The branch of the loop over the query parameters for [confidenceMin],
    [confidenceMax], [processTimeMin] and [processTimeMax]: the bound is
    written into the first filter that has the id, and a new filter is
    pushed when there is none. *)
Fixpoint assign_bound (columnId : string) (is_min : bool) (v : Q)
    (filters : ApiColumnFiltersState) : ApiColumnFiltersState :=
  match filters with
  | [] =>
      [{| filter_id := columnId;
          filter_value :=
            if is_min then JArr [JNum v; JUndefined] else JArr [JUndefined; JNum v] |}]
  | existing :: filters' =>
      if String.eqb (filter_id existing) columnId then
        {| filter_id := filter_id existing;
           filter_value :=
             set_index (filter_value existing) (if is_min then 0%nat else 1%nat)
               (JNum v) |} :: filters'
      else existing :: assign_bound columnId is_min v filters'
  end.

(** The filters after the [*Min] and the [*Max] parameter of one field, in
    the order of [historyQuerySchema]. *)
Definition range_filters (columnId : string) (min max : option Q)
    (filters : ApiColumnFiltersState) : ApiColumnFiltersState :=
  let with_min :=
    match min with
    | Some v => assign_bound columnId true v filters
    | None => filters
    end in
  match max with
  | Some v => assign_bound columnId false v with_min
  | None => with_min
  end.

(** ** Columns, conditions and ordering terms *)

Inductive column : Type :=
| ColPlateNumber
| ColNormalizedPlate
| ColConfidenceDetection
| ColDetectionTime
| ColProvinceName
| ColIsValidFormat
| ColOcrEngineUsed
| ColTypeVehicle
| ColSource
| ColProcessTimeMs.

Inductive param : Type :=
| PStr (s : string)
| PNum (q : Q)
| PBool (b : bool)
| PDate (t : Z).

Inductive SQL : Type :=
| SqlIlike (c : column) (pattern : string)
| SqlEq (c : column) (v : param)
| SqlGte (c : column) (v : param)
| SqlLte (c : column) (v : param)
| SqlLt (c : column) (v : param)
| SqlAnd (conds : list SQL).

(** [and(...conditions)]: [undefined] for no condition. *)
Definition drizzle_and (conds : list SQL) : option SQL :=
  match conds with
  | [] => None
  | _ => Some (SqlAnd conds)
  end.

Definition filterColumnMap : gmap string column :=
  list_to_map
    [("plateNumber", ColPlateNumber);
     ("normalizedPlate", ColNormalizedPlate);
     ("confidence", ColConfidenceDetection);
     ("date", ColDetectionTime);
     ("provinceName", ColProvinceName);
     ("isValidFormat", ColIsValidFormat);
     ("ocrEngine", ColOcrEngineUsed);
     ("typeVehicle", ColTypeVehicle);
     ("source", ColSource);
     ("processTime", ColProcessTimeMs)].

Definition sortColumnMap : gmap string column :=
  list_to_map
    [("plateNumber", ColPlateNumber);
     ("confidence", ColConfidenceDetection);
     ("date", ColDetectionTime);
     ("provinceName", ColProvinceName);
     ("isValidFormat", ColIsValidFormat);
     ("ocrEngine", ColOcrEngineUsed);
     ("normalizedPlate", ColNormalizedPlate);
     ("source", ColSource);
     ("processTime", ColProcessTimeMs)].

(** ** Rows of the three tables *)

Definition BoundingBox : Type := (Q * Q * Q * Q)%type.

Record DetectionRow : Type := {
  det_id : Z;
  det_source : option detection_source;
  det_imageUrl : string;
  det_processedImageUrl : option string;
  det_detectionTime : Z;
  det_processTimeMs : option Z
}.

Record LicensePlateRow : Type := {
  lp_id : Z;
  lp_plateNumber : string
}.

Record DetectedPlateResultRow : Type := {
  dpr_id : Z;
  dpr_detectionId : Z;
  dpr_licensePlateId : option Z;
  dpr_plateNumber : string;
  dpr_normalizedPlate : option string;
  dpr_confidenceDetection : Q;
  dpr_boundingBox : BoundingBox;
  dpr_ocrEngineUsed : option string;
  dpr_typeVehicle : option vehicle_category;
  dpr_provinceCode : option string;
  dpr_provinceName : option string;
  dpr_plateType : option string;
  dpr_detectedColor : option string;
  dpr_isValidFormat : option bool;
  dpr_formatDescription : option string
}.

(** A row of [detected_plate_results] left-joined with [detections] and
    [license_plates]. *)
Record QueryRow : Type := {
  qr_detected_plate_results : DetectedPlateResultRow;
  qr_detections : option DetectionRow;
  qr_license_plates : option LicensePlateRow
}.

(** The spread fields of the result row, and the two related rows. *)
Record HistoryQueryResultItem : Type := {
  item : DetectedPlateResultRow;
  detection : option DetectionRow;
  licensePlate : option LicensePlateRow
}.

Record FetchHistoryResult : Type := {
  rows : list HistoryQueryResultItem;
  totalRowCount : Z
}.

(** ** Numbers in double and in single precision *)

(** [q * 2 ^ e] *)
Definition scale2 (q : Q) (e : Z) : Q :=
  if 0 <=? e then (q * inject_Z (2 ^ e))%Q else (q / inject_Z (2 ^ (- e)))%Q.

(** The [e] with [2 ^ e <= q < 2 ^ (e + 1)], for a positive [q]. *)
Definition binary_exponent (q : Q) : Z :=
  let e := Z.log2 (Qnum q) - Z.log2 (Zpos (Qden q)) in
  if Qle_bool (scale2 1 e) q then e else e - 1.

(** The nearest integer, the even one of the two when they are as near. *)
Definition round_half_even (q : Q) : Z :=
  let f := Qfloor q in
  match (q - inject_Z f ?= 1 # 2)%Q with
  | Lt => f
  | Gt => f + 1
  | Eq => if Z.even f then f else f + 1
  end.

(** The nearest binary floating-point number with [precision] bits and
    exponents from [emin] on; no largest exponent. *)
Definition nearest_positive (precision emin : Z) (q : Q) : Q :=
  let e := Z.max emin (binary_exponent q) - (precision - 1) in
  Qred (scale2 (inject_Z (round_half_even (scale2 q (- e)))) e).

Definition nearest (precision emin : Z) (q : Q) : Q :=
  match (q ?= 0)%Q with
  | Eq => 0%Q
  | Gt => nearest_positive precision emin q
  | Lt => (- nearest_positive precision emin (- q))%Q
  end.

(** A JavaScript [number], and a PostgreSQL [real]. *)
Definition double : Q -> Q := nearest 53 (-1022).

Definition float4 : Q -> Q := nearest 24 (-126).

(** The text of a number can be read as a [real]: it is zero, or rounds
    neither to zero nor beyond the largest [real]. *)
Definition float4_text (q : Q) : bool :=
  Qeq_bool q 0
  || (negb (Qeq_bool (float4 q) 0)
      && negb (Qle_bool (inject_Z (2 ^ 128)) (Qabs (float4 q)))).

(** ** Evaluation of conditions on a joined row *)

Inductive dbval : Type :=
| DNull
| DText (s : string)
| DNum (q : Q)
| DReal (q : Q)
| DBool (b : bool)
| DTime (t : Z)
| DVehicle (v : vehicle_category)
| DSource (s : detection_source).

Definition text_or_null (o : option string) : dbval :=
  match o with Some s => DText s | None => DNull end.

Definition column_value (c : column) (r : QueryRow) : dbval :=
  let res := qr_detected_plate_results r in
  match c with
  | ColPlateNumber => DText (dpr_plateNumber res)
  | ColNormalizedPlate => text_or_null (dpr_normalizedPlate res)
  | ColConfidenceDetection => DReal (float4 (dpr_confidenceDetection res))
  | ColProvinceName => text_or_null (dpr_provinceName res)
  | ColIsValidFormat =>
      match dpr_isValidFormat res with Some b => DBool b | None => DNull end
  | ColOcrEngineUsed => text_or_null (dpr_ocrEngineUsed res)
  | ColTypeVehicle =>
      match dpr_typeVehicle res with Some v => DVehicle v | None => DNull end
  | ColDetectionTime =>
      match qr_detections r with
      | Some d => DTime (det_detectionTime d)
      | None => DNull
      end
  | ColSource =>
      match qr_detections r with
      | Some d => match det_source d with Some s => DSource s | None => DNull end
      | None => DNull
      end
  | ColProcessTimeMs =>
      match qr_detections r with
      | Some d =>
          match det_processTimeMs d with
          | Some ms => DNum (inject_Z ms)
          | None => DNull
          end
      | None => DNull
      end
  end.

(** Comparison of a column value with a bound parameter, which the store
    reads as a value of the type of the column; [None] is SQL's unknown (a
    [NULL] operand, or operands the compiler never pairs up). *)
Definition compare_param (v : dbval) (p : param) : option comparison :=
  match v, p with
  | DText s, PStr s' => Some (String.compare s s')
  | DNum q, PNum q' => Some (q ?= q')%Q
  | DReal q, PNum q' => Some (q ?= float4 q')%Q
  | DBool b, PBool b' => Some (Bool.compare b b')
  | DTime t, PDate t' => Some (t ?= t')
  | DVehicle x, PStr s' =>
      match vehicle_of_label s' with
      | Some y => Some (vehicle_rank x ?= vehicle_rank y)
      | None => None
      end
  | DSource x, PStr s' =>
      match source_of_label s' with
      | Some y => Some (source_rank x ?= source_rank y)
      | None => None
      end
  | _, _ => None
  end.

Definition lower_ascii (c : ascii) : ascii :=
  let n := nat_of_ascii c in
  if ((65 <=? n) && (n <=? 90))%nat then ascii_of_nat (n + 32) else c.

Fixpoint lowercase (s : string) : string :=
  match s with
  | EmptyString => EmptyString
  | String c s' => String (lower_ascii c) (lowercase s')
  end.

(** [LIKE]: [%] stands for any run of characters, [_] for one character,
    and the character after a backslash for itself.  PostgreSQL refuses a
    pattern that ends with a lone backslash; the patterns of the compiler
    end with [%], and [like] holds of no string for such a pattern. *)
Fixpoint like (p : string) : string -> bool :=
  match p with
  | EmptyString =>
      fun s => match s with EmptyString => true | _ => false end
  | String c p' =>
      if Ascii.eqb c "%"%char then
        fix skip (s : string) : bool :=
          like p' s ||
          match s with EmptyString => false | String _ s' => skip s' end
      else if Ascii.eqb c "_"%char then
        fun s => match s with EmptyString => false | String _ s' => like p' s' end
      else if Ascii.eqb c "\"%char then
        match p' with
        | EmptyString => fun _ => false
        | String e p'' =>
            fun s =>
              match s with
              | EmptyString => false
              | String d s' => Ascii.eqb e d && like p'' s'
              end
        end
      else
        fun s =>
          match s with
          | EmptyString => false
          | String d s' => Ascii.eqb c d && like p' s'
          end
  end.

(** Three-valued conjunction. *)
Definition and3 (a b : option bool) : option bool :=
  match a, b with
  | Some false, _ | _, Some false => Some false
  | Some true, Some true => Some true
  | _, _ => None
  end.

Definition test_comparison (f : comparison -> bool) (o : option comparison)
  : option bool :=
  match o with Some c => Some (f c) | None => None end.

Fixpoint eval (c : SQL) (r : QueryRow) : option bool :=
  match c with
  | SqlIlike col pattern =>
      match column_value col r with
      | DText s => Some (like (lowercase pattern) (lowercase s))
      | _ => None
      end
  | SqlEq col v =>
      test_comparison (fun x => match x with Eq => true | _ => false end)
        (compare_param (column_value col r) v)
  | SqlGte col v =>
      test_comparison (fun x => match x with Lt => false | _ => true end)
        (compare_param (column_value col r) v)
  | SqlLte col v =>
      test_comparison (fun x => match x with Gt => false | _ => true end)
        (compare_param (column_value col r) v)
  | SqlLt col v =>
      test_comparison (fun x => match x with Lt => true | _ => false end)
        (compare_param (column_value col r) v)
  | SqlAnd conds =>
      (fix all (l : list SQL) : option bool :=
         match l with
         | [] => Some true
         | c' :: l' => and3 (eval c' r) (all l')
         end) conds
  end.

(** [WHERE w]: a row is kept when the condition is true; [.where(undefined)]
    keeps every row. *)
Definition matches (w : option SQL) (r : QueryRow) : bool :=
  match w with
  | None => true
  | Some c => match eval c r with Some true => true | _ => false end
  end.

(** [l.includes(s)] *)
Definition string_includes (l : list string) (s : string) : bool :=
  existsb (String.eqb s) l.

(** ** date-fns *)

Definition ms_per_day : Z := 86400000.

Section Compilers.

(** Offset of the process's local time from UTC, in milliseconds. *)
Variable tz : Z.

Definition startOfDay (t : Z) : Z := t - (t + tz) mod ms_per_day.

Definition addDays (t : Z) (n : Z) : Z := t + n * ms_per_day.

(** ** The filter compiler *)

(** The bodies of the cases of the [switch] in [parseFiltersToDrizzle]:
    the conditions each pushes. *)

(** [case "plateNumber": case "normalizedPlate": case "provinceName":] *)
Definition string_case (column : column) (filterValue : jsval) : list SQL :=
  match filterValue with
  | JStr s =>
      if (0 <? Z.of_nat (String.length s))
      then [SqlIlike column ("%" +:+ s +:+ "%")]
      else []
  | _ => []
  end.

(** [case "ocrEngine": case "typeVehicle": case "source":] *)
Definition enum_case (columnId : string) (column : column) (filterValue : jsval)
  : list SQL :=
  match filterValue with
  | JStr s =>
      if (0 <? Z.of_nat (String.length s))
      then
        if String.eqb columnId "typeVehicle"
           && negb (string_includes vehicleCategoryEnum s)
        then []
        else if String.eqb columnId "source"
                && negb (string_includes detectionSourceEnum s)
        then []
        else [SqlEq column (PStr s)]
      else []
  | _ => []
  end.

(** [case "confidence": case "processTime":] *)
Definition range_case (columnId : string) (column : column) (filterValue : jsval)
  : list SQL :=
  match filterValue with
  | JArr [min; max] =>
      if is_number min || is_number max
      then
        let scale (x : Q) : Q :=
          if String.eqb columnId "confidence" then double (x / 100) else x in
        let conditionList :=
          match min with
          | JNum q => [SqlGte column (PNum (scale q))]
          | _ => []
          end ++
          match max with
          | JNum q => [SqlLte column (PNum (scale q))]
          | _ => []
          end in
        match drizzle_and conditionList with
        | Some c => [c]
        | None => []
        end
      else []
  | _ => []
  end.

(** [case "isValidFormat":] *)
Definition boolean_case (column : column) (filterValue : jsval) : list SQL :=
  match filterValue with
  | JBool b => [SqlEq column (PBool b)]
  | _ => []
  end.

(** [case "date":] *)
Definition date_case (column : column) (filterValue : jsval) : list SQL :=
  match typeof filterValue, filterValue with
  | TyObject, JNull => []
  | TyObject, _ =>
      if js_in "from" filterValue || js_in "to" filterValue
      then
        let conditionList :=
          match js_field "from" filterValue with
          | JDate from => [SqlGte column (PDate (startOfDay from))]
          | _ => []
          end ++
          match js_field "to" filterValue with
          | JDate to => [SqlLt column (PDate (addDays (startOfDay to) 1))]
          | _ => []
          end in
        match drizzle_and conditionList with
        | Some c => [c]
        | None => []
        end
      else []
  | _, _ => []
  end.

(** One iteration of the loop of [parseFiltersToDrizzle].  A name
    inherited from [Object.prototype] passes the test on [column] and
    falls to the [default] case, as it is none of the case labels. *)
Definition conditions_of_filter (filter : ApiColumnFilter) : list SQL :=
  let columnId := filter_id filter in
  let filterValue := filter_value filter in
  match JsObject.get filterColumnMap columnId with
  | JsObject.Undefined => []
  | JsObject.Inherited _ => []
  | JsObject.Own column =>
      if string_includes ["plateNumber"; "normalizedPlate"; "provinceName"] columnId
      then string_case column filterValue
      else if string_includes ["ocrEngine"; "typeVehicle"; "source"] columnId
      then enum_case columnId column filterValue
      else if string_includes ["confidence"; "processTime"] columnId
      then range_case columnId column filterValue
      else if String.eqb columnId "isValidFormat"
      then boolean_case column filterValue
      else if String.eqb columnId "date"
      then date_case column filterValue
      else []
  end.

Definition parseFiltersToDrizzle (filters : ApiColumnFiltersState)
  : option SQL :=
  let conditions := flat_map conditions_of_filter filters in
  if (Z.of_nat (length conditions) =? 0) then None
  else drizzle_and conditions.

End Compilers.

(** ** The sort compiler *)

(** What [sortColumnMap[sort.id]] evaluates to when it is truthy: a column,
    or a member of [Object.prototype]. *)
Inductive sort_target : Type :=
| SortColumn (c : column)
| SortInherited (k : string).

Inductive OrderTerm : Type :=
| asc (t : sort_target)
| desc (t : sort_target).

Definition parseSortingToDrizzle (sorting : ApiSortingState) : list OrderTerm :=
  if (Z.of_nat (length sorting) =? 0)
  then [desc (SortColumn ColDetectionTime)]
  else
    List.map
      (fun sort : ApiSort =>
         match JsObject.get sortColumnMap (sort_id sort) with
         | JsObject.Undefined => desc (SortColumn ColDetectionTime)
         | JsObject.Own c =>
             if sort_desc sort then desc (SortColumn c) else asc (SortColumn c)
         | JsObject.Inherited k =>
             if sort_desc sort then desc (SortInherited k)
             else asc (SortInherited k)
         end)
      sorting.

(** ** The store *)

Record Store : Type := {
  detections : list DetectionRow;
  license_plates : list LicensePlateRow;
  detected_plate_results : list DetectedPlateResultRow;
  detections_id_seq : Z;
  license_plates_id_seq : Z;
  detected_plate_results_id_seq : Z
}.

Definition empty_store : Store :=
  {| detections := []; license_plates := []; detected_plate_results := [];
     detections_id_seq := 0; license_plates_id_seq := 0;
     detected_plate_results_id_seq := 0 |}.

(** What a function leaves behind: the value it returns or the [Error] it
    throws. *)
Inductive outcome (A : Type) : Type :=
| Returned (a : A)
| Thrown (message : string).
Arguments Returned {A} a.
Arguments Thrown {A} message.

(** Code that runs against the store, and may throw. *)
Definition Db (A : Type) : Type := Store -> Store * outcome A.

Definition ret {A : Type} (a : A) : Db A := fun s => (s, Returned a).

Definition throw {A : Type} (message : string) : Db A :=
  fun s => (s, Thrown message).

Definition bind {A B : Type} (m : Db A) (k : A -> Db B) : Db B :=
  fun s =>
    match m s with
    | (s', Returned a) => k a s'
    | (s', Thrown e) => (s', Thrown e)
    end.

Notation "'let*' x ':=' m 'in' k" := (bind m (fun x => k))
  (at level 10, x name, m at level 200, k at level 200).

(** [try { m } catch (error) { handler }] *)
Definition try_catch {A : Type} (m : Db A) (handler : string -> Db A) : Db A :=
  fun s =>
    match m s with
    | (s', Returned a) => (s', Returned a)
    | (s', Thrown e) => handler e s'
    end.

(** A rolled-back transaction gives the tables their content of before;
    values drawn from a sequence are not given back. *)
Definition rollback (before after : Store) : Store :=
  {| detections := detections before;
     license_plates := license_plates before;
     detected_plate_results := detected_plate_results before;
     detections_id_seq := detections_id_seq after;
     license_plates_id_seq := license_plates_id_seq after;
     detected_plate_results_id_seq := detected_plate_results_id_seq after |}.

(** The statements sent to the store by [insertDetectionAndResults]. *)
Inductive statement : Type :=
| InsertDetection
| UpsertLicensePlates
| SelectLicensePlates
| InsertDetectedPlateResults
| Commit
| FindFirstDetection.

(** [db.transaction(body)]: commit when [body] returns, roll back and
    rethrow when it throws; [fault] tells the statements on which the store
    fails, and a failed commit is a rollback. *)
Definition db_transaction {A : Type} (fault : statement -> bool) (body : Db A)
  : Db A :=
  fun s =>
    match body s with
    | (s', Returned a) =>
        if fault Commit then (rollback s s', Thrown "storage failure")
        else (s', Returned a)
    | (s', Thrown e) => (rollback s s', Thrown e)
    end.

(** ** Types of [types.ts] *)

Record PlateTypeInfo : Type := {
  pti_name : string;
  pti_description : string;
  category : option string
}.

Record BackendPlateAnalysis : Type := {
  original : string;
  normalized : string;
  province_code : option string;
  province_name : option string;
  serial : option string;
  number : option string;
  plate_type : string;
  plate_type_info : option PlateTypeInfo;
  detected_color : option string;
  is_valid_format : bool;
  format_description : option string
}.

Record BackendDetection : Type := {
  plate_number : string;
  confidence_detection : Q;
  bounding_box : BoundingBox;
  plate_analysis : option BackendPlateAnalysis;
  ocr_engine_used : option string
}.

Record ApiResponse : Type := {
  api_detections : option (list BackendDetection);
  processed_image_url : option string;
  processing_time_ms : option Q;
  error : option string
}.

(** ** String helpers of the ingestion writer *)

Definition is_whitespace (c : ascii) : bool :=
  let n := nat_of_ascii c in
  (((9 <=? n) && (n <=? 13)) || (n =? 32) || (n =? 160))%nat.

Fixpoint trim_start (s : string) : string :=
  match s with
  | EmptyString => EmptyString
  | String c s' => if is_whitespace c then trim_start s' else s
  end.

Fixpoint trim_end (s : string) : string :=
  match s with
  | EmptyString => EmptyString
  | String c s' =>
      match trim_end s' with
      | EmptyString => if is_whitespace c then EmptyString else String c EmptyString
      | t => String c t
      end
  end.

Definition trim (s : string) : string := trim_end (trim_start s).

Definition truthy_string (s : string) : bool := negb (String.eqb s "").

Definition all_whitespace (s : string) : bool :=
  forallb is_whitespace (list_ascii_of_string s).

(** [pn => !!pn && pn.trim() !== ""] *)
Definition keeps_plate_number (pn : string) : bool :=
  truthy_string pn && negb (String.eqb (trim pn) "").

(** [[...new Set(l)]]: the first occurrence of each string, in order. *)
Fixpoint unique_strings_from (seen : list string) (l : list string) : list string :=
  match l with
  | [] => []
  | x :: l' =>
      if string_includes seen x then unique_strings_from seen l'
      else x :: unique_strings_from (x :: seen) l'
  end.

Definition unique_strings (l : list string) : list string :=
  unique_strings_from [] l.

(** [Math.round] *)
Definition Math_round (x : Q) : Z := Qfloor (x + (1 # 2))%Q.

(** ** The ingestion writer *)

(** The value computed for [licensePlateId]: an id, [null], or what a name
    inherited from [Object.prototype] evaluates to. *)
Inductive link_value : Type :=
| LinkId (i : Z)
| LinkNull
| LinkObject (k : string).

Record DetectionInsert : Type := {
  ins_source : detection_source;
  ins_imageUrl : string;
  ins_processedImageUrl : option string;
  ins_detectionTime : Z;
  ins_processTimeMs : option Z
}.

Record DetectedPlateResultInsert : Type := {
  ins_detectionId : Z;
  ins_licensePlateId : link_value;
  ins_plateNumber : string;
  ins_normalizedPlate : option string;
  ins_confidenceDetection : Q;
  ins_boundingBox : BoundingBox;
  ins_ocrEngineUsed : option string;
  ins_provinceCode : option string;
  ins_provinceName : option string;
  ins_plateType : option string;
  ins_detectedColor : option string;
  ins_isValidFormat : option bool;
  ins_formatDescription : option string;
  ins_typeVehicle : option vehicle_category
}.

(** [findFirst] with [detectedPlates: true]. *)
Record DetectionSelect : Type := {
  created : DetectionRow;
  detectedPlates : list DetectedPlateResultRow
}.

Definition in_int4 (n : Z) : bool := (- 2147483648 <=? n) && (n <=? 2147483647).

(** [varchar(n)]: a value of at most [n] characters is stored as it is, and
    a longer value is refused.  PostgreSQL refuses a longer value whose
    excess holds a character other than a space ([overflows] below) and
    stores a value whose excess is made of spaces cut to [n] characters; the
    cut is not followed here, and what is stated of the rows that a call
    writes is stated of values that fit. *)
Definition fits (n : nat) (s : string) : bool := (String.length s <=? n)%nat.

Definition fits_opt (n : nat) (o : option string) : bool :=
  match o with Some s => fits n s | None => true end.

Definition valid_result_insert (v : DetectedPlateResultInsert) : bool :=
  match ins_licensePlateId v with LinkObject _ => false | _ => true end
  && fits 20 (ins_plateNumber v)
  && fits_opt 20 (ins_normalizedPlate v)
  && fits_opt 50 (ins_ocrEngineUsed v)
  && fits_opt 10 (ins_provinceCode v)
  && fits_opt 100 (ins_provinceName v)
  && fits_opt 50 (ins_plateType v)
  && fits_opt 30 (ins_detectedColor v).

Definition result_row (i : Z) (v : DetectedPlateResultInsert)
  : DetectedPlateResultRow :=
  {| dpr_id := i;
     dpr_detectionId := ins_detectionId v;
     dpr_licensePlateId :=
       match ins_licensePlateId v with LinkId k => Some k | _ => None end;
     dpr_plateNumber := ins_plateNumber v;
     dpr_normalizedPlate := ins_normalizedPlate v;
     dpr_confidenceDetection := ins_confidenceDetection v;
     dpr_boundingBox := ins_boundingBox v;
     dpr_ocrEngineUsed := ins_ocrEngineUsed v;
     dpr_typeVehicle := ins_typeVehicle v;
     dpr_provinceCode := ins_provinceCode v;
     dpr_provinceName := ins_provinceName v;
     dpr_plateType := ins_plateType v;
     dpr_detectedColor := ins_detectedColor v;
     dpr_isValidFormat := ins_isValidFormat v;
     dpr_formatDescription := ins_formatDescription v |}.

(** Rows numbered from the sequence, one value per row. *)
Fixpoint number_rows (seq : Z) (vs : list DetectedPlateResultInsert)
  : list DetectedPlateResultRow :=
  match vs with
  | [] => []
  | v :: vs' => result_row (seq + 1) v :: number_rows (seq + 1) vs'
  end.

Definition has_plate (tbl : list LicensePlateRow) (pn : string) : bool :=
  existsb (fun r => String.eqb (lp_plateNumber r) pn) tbl.

(** [INSERT ... ON CONFLICT (plateNumber) DO NOTHING]: every proposed row
    draws a value from the sequence, also when it is not inserted. *)
Fixpoint upsert_plates (pns : list string) (tbl : list LicensePlateRow) (seq : Z)
  : list LicensePlateRow * Z :=
  match pns with
  | [] => (tbl, seq)
  | pn :: pns' =>
      if has_plate tbl pn then upsert_plates pns' tbl (seq + 1)
      else
        upsert_plates pns'
          (tbl ++ [{| lp_id := seq + 1; lp_plateNumber := pn |}]) (seq + 1)
  end.

Section Ingestion.

(** The statements on which the store fails, and the clock. *)
Variable fault : statement -> bool.
Variable now : Z.

Definition send (st : statement) : Db unit :=
  if fault st then throw "storage failure" else ret tt.

(** [tx.insert(detections).values(v).returning({insertedId})] *)
Definition insert_detection (v : DetectionInsert) : Db (list Z) :=
  let* _ := send InsertDetection in
  fun s =>
    if match ins_processTimeMs v with Some n => in_int4 n | None => true end
    then
      let i := detections_id_seq s + 1 in
      ({| detections :=
            detections s ++
            [{| det_id := i;
                det_source := Some (ins_source v);
                det_imageUrl := ins_imageUrl v;
                det_processedImageUrl := ins_processedImageUrl v;
                det_detectionTime := ins_detectionTime v;
                det_processTimeMs := ins_processTimeMs v |}];
          license_plates := license_plates s;
          detected_plate_results := detected_plate_results s;
          detections_id_seq := i;
          license_plates_id_seq := license_plates_id_seq s;
          detected_plate_results_id_seq := detected_plate_results_id_seq s |},
       Returned [i])
    else (s, Thrown "integer out of range").

(** [tx.insert(licensePlates).values(...).onConflictDoNothing(...)] *)
Definition insert_license_plates (pns : list string) : Db unit :=
  let* _ := send UpsertLicensePlates in
  fun s =>
    if forallb (fits 20) pns then
      let '(tbl, seq) := upsert_plates pns (license_plates s) (license_plates_id_seq s) in
      ({| detections := detections s;
          license_plates := tbl;
          detected_plate_results := detected_plate_results s;
          detections_id_seq := detections_id_seq s;
          license_plates_id_seq := seq;
          detected_plate_results_id_seq := detected_plate_results_id_seq s |},
       Returned tt)
    else (s, Thrown "value too long for type character varying(20)").

(** [tx.select({id, plateNumber}).from(licensePlates).where(inArray(...))] *)
Definition select_license_plates (pns : list string) : Db (list LicensePlateRow) :=
  let* _ := send SelectLicensePlates in
  fun s =>
    (s, Returned (List.filter (fun r => string_includes pns (lp_plateNumber r))
                    (license_plates s))).

(** [tx.insert(detectedPlateResults).values(plateDataToInsert)] *)
Definition insert_detected_plate_results (vs : list DetectedPlateResultInsert)
  : Db unit :=
  let* _ := send InsertDetectedPlateResults in
  fun s =>
    if forallb valid_result_insert vs then
      ({| detections := detections s;
          license_plates := license_plates s;
          detected_plate_results :=
            detected_plate_results s ++
            number_rows (detected_plate_results_id_seq s) vs;
          detections_id_seq := detections_id_seq s;
          license_plates_id_seq := license_plates_id_seq s;
          detected_plate_results_id_seq :=
            detected_plate_results_id_seq s + Z.of_nat (length vs) |},
       Returned tt)
    else (s, Thrown "invalid value for a column of detected_plate_results").

(** [db.query.detections.findFirst({where: eq(id, i), with: {detectedPlates}})] *)
Definition find_first_detection (i : Z) : Db (option DetectionSelect) :=
  let* _ := send FindFirstDetection in
  fun s =>
    (s, Returned
          match List.find (fun d => det_id d =? i) (detections s) with
          | Some d =>
              Some {| created := d;
                      detectedPlates :=
                        List.filter (fun r => dpr_detectionId r =? i)
                          (detected_plate_results s) |}
          | None => None
          end).

(** The plate numbers kept for [license_plates]. *)
Definition detectedPlateNumbers (dets : list BackendDetection) : list string :=
  List.filter keeps_plate_number (List.map plate_number dets).

(** [fetchedPlates.forEach(p => licensePlateRecords[p.plateNumber] = p.id)] *)
Definition licensePlateRecords_of (fetchedPlates : list LicensePlateRow)
  : gmap string Z :=
  fold_left (fun o p => JsObject.set o (lp_plateNumber p) (lp_id p))
    fetchedPlates ∅.

Definition licensePlateId_of (licensePlateRecords : gmap string Z)
    (primaryPlateNumber : string) : link_value :=
  if truthy_string primaryPlateNumber then
    match JsObject.get licensePlateRecords primaryPlateNumber with
    | JsObject.Own i => if i =? 0 then LinkNull else LinkId i
    | JsObject.Inherited k => LinkObject k
    | JsObject.Undefined => LinkNull
    end
  else LinkNull.

Definition vehicleCategory_of (plateAnalysis : option BackendPlateAnalysis)
  : option vehicle_category :=
  match plateAnalysis with
  | Some a =>
      match plate_type_info a with
      | Some info =>
          match category info with
          | Some vehicleCategoryValue =>
              if truthy_string vehicleCategoryValue
                 && string_includes vehicleCategoryEnum vehicleCategoryValue
              then vehicle_of_label vehicleCategoryValue
              else None
          | None => None
          end
      | None => None
      end
  | None => None
  end.

(** One iteration of the loop that fills [plateDataToInsert]. *)
Definition detectedPlateData (detectionId : Z)
    (licensePlateRecords : gmap string Z) (det : BackendDetection)
  : DetectedPlateResultInsert :=
  let plateAnalysis := plate_analysis det in
  let primaryPlateNumber := plate_number det in
  {| ins_detectionId := detectionId;
     ins_licensePlateId := licensePlateId_of licensePlateRecords primaryPlateNumber;
     ins_plateNumber := primaryPlateNumber;
     ins_normalizedPlate := option_map normalized plateAnalysis;
     ins_confidenceDetection := confidence_detection det;
     ins_boundingBox := bounding_box det;
     ins_ocrEngineUsed := ocr_engine_used det;
     ins_provinceCode :=
       match plateAnalysis with Some a => province_code a | None => None end;
     ins_provinceName :=
       match plateAnalysis with Some a => province_name a | None => None end;
     ins_plateType := option_map plate_type plateAnalysis;
     ins_detectedColor :=
       match plateAnalysis with Some a => detected_color a | None => None end;
     ins_isValidFormat := option_map is_valid_format plateAnalysis;
     ins_formatDescription :=
       match plateAnalysis with Some a => format_description a | None => None end;
     ins_typeVehicle := vehicleCategory_of plateAnalysis |}.

(** The callback given to [db.transaction]. *)
Definition ingestion_transaction (apiResponse : ApiResponse)
    (dets : list BackendDetection) (source : detection_source)
    (originalImageUrl : string) : Db Z :=
  let* detectionInsertResult :=
    insert_detection
      {| ins_source := source;
         ins_imageUrl := originalImageUrl;
         ins_processedImageUrl := processed_image_url apiResponse;
         ins_detectionTime := now;
         ins_processTimeMs := option_map Math_round (processing_time_ms apiResponse) |} in
  match detectionInsertResult with
  | [] => throw "Failed to insert detection record."
  | detectionId :: _ =>
      if detectionId =? 0 then throw "Failed to insert detection record."
      else
        let uniquePlateNumbers := unique_strings (detectedPlateNumbers dets) in
        let* licensePlateRecords :=
          if (0 <? Z.of_nat (length uniquePlateNumbers)) then
            let* _ := insert_license_plates uniquePlateNumbers in
            let* fetchedPlates := select_license_plates uniquePlateNumbers in
            ret (licensePlateRecords_of fetchedPlates)
          else ret ∅ in
        let plateDataToInsert :=
          List.map (detectedPlateData detectionId licensePlateRecords) dets in
        let* _ :=
          if (0 <? Z.of_nat (length plateDataToInsert)) then
            insert_detected_plate_results plateDataToInsert
          else ret tt in
        ret detectionId
  end.

Definition insertDetectionAndResults (apiResponse : option ApiResponse)
    (source : detection_source) (originalImageUrl : string)
  : Db (option DetectionSelect) :=
  match apiResponse with
  | None => ret None
  | Some response =>
      match api_detections response with
      | None => ret None
      | Some [] => ret None
      | Some dets =>
          try_catch
            (let* result :=
               db_transaction fault
                 (ingestion_transaction response dets source originalImageUrl) in
             let* createdDetection := find_first_detection result in
             ret createdDetection)
            (fun _ => throw "Failed to save detection result via query function.")
      end
  end.

End Ingestion.

(** ** Running a query *)

Record SelectQuery : Type := {
  join_license_plates : bool;
  where_ : option SQL;
  orderBy : list OrderTerm;
  limit : option Z;
  offset : option Z
}.

(** [detected_plate_results LEFT JOIN detections ON detectionId = detections.id] *)
Definition left_join_detections (s : Store) (r : DetectedPlateResultRow)
  : list (DetectedPlateResultRow * option DetectionRow) :=
  match List.filter (fun d => dpr_detectionId r =? det_id d) (detections s) with
  | [] => [(r, None)]
  | ds => List.map (fun d => (r, Some d)) ds
  end.

Definition links_to (r : DetectedPlateResultRow) (p : LicensePlateRow) : bool :=
  match dpr_licensePlateId r with
  | Some k => k =? lp_id p
  | None => false
  end.

(** [... LEFT JOIN license_plates ON licensePlateId = license_plates.id],
    when the query has that join. *)
Definition left_join_license_plates (s : Store) (joined : bool)
    (x : DetectedPlateResultRow * option DetectionRow) : list QueryRow :=
  let without :=
    {| qr_detected_plate_results := fst x; qr_detections := snd x;
       qr_license_plates := None |} in
  if joined then
    match List.filter (links_to (fst x)) (license_plates s) with
    | [] => [without]
    | ps =>
        List.map
          (fun p =>
             {| qr_detected_plate_results := fst x; qr_detections := snd x;
                qr_license_plates := Some p |})
          ps
    end
  else [without].

Definition joined_rows (s : Store) (joined : bool) : list QueryRow :=
  flat_map (left_join_license_plates s joined)
    (flat_map (left_join_detections s) (detected_plate_results s)).

(** Order of two values of one column; [NULL] is larger than every value. *)
Definition compare_dbval (a b : dbval) : comparison :=
  match a, b with
  | DNull, DNull => Eq
  | DNull, _ => Gt
  | _, DNull => Lt
  | DText x, DText y => String.compare x y
  | DNum x, DNum y => (x ?= y)%Q
  | DReal x, DReal y => (x ?= y)%Q
  | DBool x, DBool y => Bool.compare x y
  | DTime x, DTime y => (x ?= y)
  | DVehicle x, DVehicle y => (vehicle_rank x ?= vehicle_rank y)
  | DSource x, DSource y => (source_rank x ?= source_rank y)
  | _, _ => Eq
  end.

(** The ordering keys of the terms: a column and whether it is descending.
    A term that is not a column reaches the store as a bound parameter,
    [order by $1]: a constant, by which no row comes before another. *)
Definition order_key (t : OrderTerm) : list (column * bool) :=
  match t with
  | asc (SortColumn c) => [(c, false)]
  | desc (SortColumn c) => [(c, true)]
  | asc (SortInherited _) | desc (SortInherited _) => []
  end.

Definition order_keys (ts : list OrderTerm) : list (column * bool) :=
  flat_map order_key ts.

Fixpoint compare_rows (keys : list (column * bool)) (a b : QueryRow) : comparison :=
  match keys with
  | [] => Eq
  | (c, descending) :: keys' =>
      let o := compare_dbval (column_value c a) (column_value c b) in
      match (if descending then CompOpp o else o) with
      | Eq => compare_rows keys' a b
      | o' => o'
      end
  end.

Definition rows_leb (keys : list (column * bool)) (a b : QueryRow) : bool :=
  match compare_rows keys a b with Gt => false | _ => true end.

Fixpoint insert_by {A : Type} (leb : A -> A -> bool) (x : A) (l : list A) : list A :=
  match l with
  | [] => [x]
  | y :: l' => if leb x y then x :: l else y :: insert_by leb x l'
  end.

(** [ORDER BY].  The store returns the rows that tie on the keys in an order
    of its choice; [sort_by] leaves them in the order of the join, which is
    one of the orders the store may choose. *)
Definition sort_by {A : Type} (leb : A -> A -> bool) (l : list A) : list A :=
  fold_right (insert_by leb) [] l.

(** A bound parameter reaches the store as text, which the store reads as a
    value of the type of the column it is compared with.  The text of a
    number compared with [processTimeMs] has to be that of an [integer],
    that of a number compared with [confidenceDetection] that of a [real],
    and a string compared with a column of an enumerated type one of its
    labels; the store fails on a query that holds another parameter. *)
Definition integer_text (q : Q) : bool :=
  (Qnum q mod Zpos (Qden q) =? 0) && in_int4 (Qnum q / Zpos (Qden q)).

Definition readable_param (col : column) (v : param) : bool :=
  match col, v with
  | ColProcessTimeMs, PNum q => integer_text q
  | ColConfidenceDetection, PNum q => float4_text q
  | ColTypeVehicle, PStr s => string_includes vehicleCategoryEnum s
  | ColSource, PStr s => string_includes detectionSourceEnum s
  | _, _ => true
  end.

Fixpoint readable (c : SQL) : bool :=
  match c with
  | SqlIlike _ _ => true
  | SqlEq col v | SqlGte col v | SqlLte col v | SqlLt col v => readable_param col v
  | SqlAnd conds =>
      (fix all (l : list SQL) : bool :=
         match l with
         | [] => true
         | c' :: l' => readable c' && all l'
         end) conds
  end.

Definition readable_where (w : option SQL) : bool :=
  match w with
  | Some c => readable c
  | None => true
  end.

(** The rows a [select] query returns.  The query builder leaves a negative
    [LIMIT] out of the query; the store fails on a negative [OFFSET] and on
    a parameter it cannot read. *)
Definition run_select (q : SelectQuery) (s : Store) : outcome (list QueryRow) :=
  if negb (readable_where (where_ q))
  then Thrown "invalid input for the type of the column"
  else
    let filtered :=
      List.filter (matches (where_ q)) (joined_rows s (join_license_plates q)) in
    let ordered := sort_by (rows_leb (order_keys (orderBy q))) filtered in
    let limited (l : list QueryRow) : list QueryRow :=
      match limit q with
      | Some n => if n <? 0 then l else firstn (Z.to_nat n) l
      | None => l
      end in
    match offset q with
    | Some o =>
        if o <? 0 then Thrown "OFFSET must not be negative"
        else Returned (limited (skipn (Z.to_nat o) ordered))
    | None => Returned (limited ordered)
    end.

(** [select({totalCount: count()})]: one row holding the number of rows. *)
Definition run_count (q : SelectQuery) (s : Store) : outcome (list Z) :=
  match run_select q s with
  | Returned l => Returned [Z.of_nat (length l)]
  | Thrown e => Thrown e
  end.

(** ** The history reader *)

Section History.

Variable tz : Z.

Definition page_query (pagination : ApiPaginationState)
    (sorting : ApiSortingState) (filters : ApiColumnFiltersState) : SelectQuery :=
  {| join_license_plates := true;
     where_ := parseFiltersToDrizzle tz filters;
     orderBy := parseSortingToDrizzle sorting;
     limit := Some (pageSize pagination);
     offset := Some (pageIndex pagination * pageSize pagination) |}.

Definition count_query (filters : ApiColumnFiltersState) : SelectQuery :=
  {| join_license_plates := false;
     where_ := parseFiltersToDrizzle tz filters;
     orderBy := [];
     limit := None;
     offset := None |}.

Definition mappedRow (row : QueryRow) : HistoryQueryResultItem :=
  {| item := qr_detected_plate_results row;
     detection := qr_detections row;
     licensePlate := qr_license_plates row |}.

Definition fetchDetectionHistory (pagination : ApiPaginationState)
    (sorting : ApiSortingState) (filters : ApiColumnFiltersState) (s : Store)
  : outcome FetchHistoryResult :=
  match run_select (page_query pagination sorting filters) s,
        run_count (count_query filters) s with
  | Returned rows_, Returned totalResult =>
      Returned
        {| rows := List.map mappedRow rows_;
           totalRowCount :=
             match totalResult with
             | totalCount :: _ => if totalCount =? 0 then 0 else totalCount
             | [] => 0
             end |}
  | _, _ => Thrown "Failed to fetch detection history from database."
  end.

End History.

(** ** The options reader *)

Record FilterOptions : Type := {
  ocrEngines : list string;
  vehicleTypes : list string;
  sources : list string
}.

#[global] Instance detection_source_eq_dec : EqDecision detection_source.
Proof. solve_decision. Defined.

#[global] Instance vehicle_category_eq_dec : EqDecision vehicle_category.
Proof. solve_decision. Defined.

(** Order of the values of a nullable column, [NULL] last. *)
Definition nullable_leb {A : Type} (leb : A -> A -> bool) (a b : option A) : bool :=
  match a, b with
  | Some x, Some y => leb x y
  | Some _, None => true
  | None, Some _ => false
  | None, None => true
  end.

(** [selectDistinct({x: col}).from(t).where(w).orderBy(asc(col))] *)
Definition selectDistinct {A : Type} `{EqDecision A} (leb : A -> A -> bool)
    (w : option A -> bool) (col : list (option A)) : list (option A) :=
  sort_by (nullable_leb leb) (remove_dups (List.filter w col)).

Definition is_not_null {A : Type} (v : option A) : bool :=
  match v with Some _ => true | None => false end.

Definition not_null_nor_empty (v : option string) : bool :=
  match v with Some x => negb (String.eqb x "") | None => false end.

(** [l.filter(x => x !== null)] and [l.filter(x => typeof x === "string")] *)
Fixpoint non_null {A : Type} (l : list (option A)) : list A :=
  match l with
  | [] => []
  | Some x :: l' => x :: non_null l'
  | None :: l' => non_null l'
  end.

Definition source_leb (a b : detection_source) : bool :=
  source_rank a <=? source_rank b.

Definition vehicle_leb (a b : vehicle_category) : bool :=
  vehicle_rank a <=? vehicle_rank b.

Definition getFilterOptions (s : Store) : outcome FilterOptions :=
  let enginesResult :=
    selectDistinct String.leb not_null_nor_empty
      (List.map dpr_ocrEngineUsed (detected_plate_results s)) in
  let typesResult :=
    selectDistinct vehicle_leb is_not_null
      (List.map dpr_typeVehicle (detected_plate_results s)) in
  let sourcesResult :=
    selectDistinct source_leb is_not_null
      (List.map det_source (detections s)) in
  Returned
    {| ocrEngines := non_null enginesResult;
       vehicleTypes := List.map vehicle_label (non_null typesResult);
       sources := List.map source_label (non_null sourcesResult) |}.

(** ** Notions used in the statements *)

(** The response has no detection list, or an empty one. *)
Definition no_detections (apiResponse : option ApiResponse) : Prop :=
  match apiResponse with
  | None => True
  | Some response =>
      api_detections response = None \/ api_detections response = Some []
  end.

(** The ordering term the code builds for one spec whose id is no member of
    [Object.prototype]. *)
Definition expected_term (sort : ApiSort) : OrderTerm :=
  match sortColumnMap !! sort_id sort with
  | Some c => if sort_desc sort then desc (SortColumn c) else asc (SortColumn c)
  | None => desc (SortColumn ColDetectionTime)
  end.

(** The value [index.ts] builds for the [date] filter: [{}] with [from] and
    [to] assigned when the query has them. *)
Definition ApiDateRange (from to : option Z) : jsval :=
  JObj (match from with Some f => [("from", JDate f)] | None => [] end ++
        match to with Some t => [("to", JDate t)] | None => [] end).

(** The value of a range filter that holds the given bounds. *)
Definition range_value (min max : option Q) : jsval :=
  JArr [match min with Some q => JNum q | None => JUndefined end;
        match max with Some q => JNum q | None => JUndefined end].

Definition confidence_filter (min max : option Q) : ApiColumnFilter :=
  {| filter_id := "confidence"; filter_value := range_value min max |}.

Definition processTime_filter (min max : option Q) : ApiColumnFilter :=
  {| filter_id := "processTime"; filter_value := range_value min max |}.

(** What the schema and the ingestion writer maintain: [plateNumber] is
    unique, the keys are unique and were drawn from their sequences, which
    start at 1, and [license_plates] holds only plate numbers that passed
    the filter of the ingestion writer, its only writer. *)
Record store_ok (s : Store) : Prop := {
  plate_numbers_unique : NoDup (List.map lp_plateNumber (license_plates s));
  plate_ids_unique : NoDup (List.map lp_id (license_plates s));
  plate_ids_serial :
    Forall (fun p => 0 < lp_id p <= license_plates_id_seq s) (license_plates s);
  detection_ids_unique : NoDup (List.map det_id (detections s));
  detection_ids_serial :
    Forall (fun d => 0 < det_id d <= detections_id_seq s) (detections s);
  plates_from_ingestion :
    Forall (fun p => keeps_plate_number (lp_plateNumber p) = true) (license_plates s);
  sequences_started :
    0 <= detections_id_seq s /\ 0 <= license_plates_id_seq s
}.

(** The row of [detections] written for a response. *)
Definition new_detection (now : Z) (apiResponse : ApiResponse)
    (source : detection_source) (originalImageUrl : string) (i : Z) : DetectionRow :=
  {| det_id := i;
     det_source := Some source;
     det_imageUrl := originalImageUrl;
     det_processedImageUrl := processed_image_url apiResponse;
     det_detectionTime := now;
     det_processTimeMs := option_map Math_round (processing_time_ms apiResponse) |}.

(** The plate numbers of a response that go to [license_plates]. *)
Definition uniquePlateNumbers (dets : list BackendDetection) : list string :=
  unique_strings (detectedPlateNumbers dets).

(** [licensePlateRecords] once the plates of the response are in the table
    [tbl]. *)
Definition records_after (dets : list BackendDetection) (tbl : list LicensePlateRow)
  : gmap string Z :=
  licensePlateRecords_of
    (List.filter (fun r => string_includes (uniquePlateNumbers dets) (lp_plateNumber r))
       tbl).

(** The sequences of [s'] are at or past those of [s]. *)
Definition seq_le (s s' : Store) : Prop :=
  detections_id_seq s <= detections_id_seq s'
  /\ license_plates_id_seq s <= license_plates_id_seq s'.

(** Code that never moves a sequence backwards. *)
Definition monotone {A : Type} (m : Db A) : Prop :=
  forall s s' o, m s = (s', o) -> seq_le s s'.

(** What [if (conditionList.length > 0) conditions.push(and(...conditionList))]
    pushes. *)
Definition pushed (conditionList : list SQL) : list SQL :=
  match drizzle_and conditionList with
  | Some c => [c]
  | None => []
  end.

(** ** Sample data *)

Definition sample_detection (pn : string) : BackendDetection :=
  {| plate_number := pn;
     confidence_detection := (9 # 10)%Q;
     bounding_box := (10, 20, 110, 60)%Q;
     plate_analysis := None;
     ocr_engine_used := Some "easyocr" |}.

Definition sample_response (pns : list string) : ApiResponse :=
  {| api_detections := Some (List.map sample_detection pns);
     processed_image_url := None;
     processing_time_ms := Some (1234 # 10)%Q;
     error := None |}.

Definition no_fault (st : statement) : bool := false.

Definition fault_on_results (st : statement) : bool :=
  match st with
  | InsertDetectedPlateResults => true
  | _ => false
  end.

(** The store after one upload showing the plate 51A-12345. *)
Definition sample_store : Store :=
  Eval vm_compute in
    fst (insertDetectionAndResults no_fault 1000
           (Some (sample_response ["51A-12345"])) SrcUpload "a.jpg" empty_store).

(** A second image: the same plate, a new plate, and a blank reading. *)
Definition second_plates : list string := ["51A-12345"; "30F-99999"; " "].

Definition sample_store_after : Store :=
  Eval vm_compute in
    fst (insertDetectionAndResults no_fault 2000
           (Some (sample_response second_plates)) SrcApi "b.jpg" sample_store).

Definition sample_created : option DetectionSelect :=
  Eval vm_compute in
    match
      snd (insertDetectionAndResults no_fault 2000
             (Some (sample_response second_plates)) SrcApi "b.jpg" sample_store)
    with
    | Returned r => r
    | Thrown _ => None
    end.

(** The store in the middle of the second ingestion, when the insertion of
    the results fails. *)
Definition sample_store_midway : Store :=
  Eval vm_compute in
    fst (ingestion_transaction fault_on_results 2000
           (sample_response second_plates)
           (List.map sample_detection second_plates) SrcApi "b.jpg" sample_store).

(** A store with 25 result rows: one image showing the same plate 25 times. *)
Definition store_of_25 : Store :=
  Eval vm_compute in
    fst (insertDetectionAndResults no_fault 3000
           (Some (sample_response (repeat "51A-12345" 25))) SrcCamera "c.jpg"
           empty_store).

(** The number of rows of a page and the total it reports. *)
Definition page_sizes (o : outcome FetchHistoryResult) : option (nat * Z) :=
  match o with
  | Returned r => Some (length (rows r), totalRowCount r)
  | Thrown _ => None
  end.

Definition fault_on_read_back (st : statement) : bool :=
  match st with
  | FindFirstDetection => true
  | _ => false
  end.

(** The sample store after the same upload is ingested a second time. *)
Definition sample_store_twice : Store :=
  Eval vm_compute in
    fst (insertDetectionAndResults no_fault 1000
           (Some (sample_response ["51A-12345"])) SrcUpload "a.jpg" sample_store).

(** The store after the rollback of that transaction. *)
Definition sample_store_rolled_back : Store :=
  Eval vm_compute in
    fst (db_transaction fault_on_results
           (ingestion_transaction fault_on_results 2000
              (sample_response second_plates)
              (List.map sample_detection second_plates) SrcApi "b.jpg")
           sample_store).

(** The first page of the sample store after the second image: the rows of
    confidence 50 at least, the most confident first. *)
Definition sample_page : FetchHistoryResult :=
  Eval vm_compute in
    match
      fetchDetectionHistory 0 {| pageIndex := 0; pageSize := 10 |}
        [{| sort_id := "confidence"; sort_desc := true |}]
        [confidence_filter (Some 50%Q) None] sample_store_after
    with
    | Returned res => res
    | Thrown _ => {| rows := []; totalRowCount := 0 |}
    end.

(** ** Notions used in the further properties *)

(** [needle] occurs in [hay]. *)
Definition contains (needle hay : string) : Prop :=
  exists before after, hay = before +:+ needle +:+ after.

(** The characters of [s] are ASCII characters other than the code unit 0,
    the two wildcards and the escape character of [LIKE]. *)
Definition plain_char (c : ascii) : bool :=
  (0 <? nat_of_ascii c)%nat && (nat_of_ascii c <? 128)%nat
  && negb (Ascii.eqb c "%"%char) && negb (Ascii.eqb c "_"%char)
  && negb (Ascii.eqb c "\"%char).

Definition plain (s : string) : bool :=
  forallb plain_char (list_ascii_of_string s).

(** The type of a value of the store; 0 for [NULL]. *)
Definition kind (v : dbval) : nat :=
  match v with
  | DNull => 0
  | DText _ => 1
  | DNum _ => 2
  | DReal _ => 3
  | DBool _ => 4
  | DTime _ => 5
  | DVehicle _ => 6
  | DSource _ => 7
  end.

(** [a], [b] and [c] are what a comparison gives of [x] and [y], of [y] and
    [z], and of [x] and [z]: when [x] is not after [y] nor [y] after [z],
    [x] is not after [z], and it ties with [z] only when the three tie. *)
Definition chained (a b c : comparison) : Prop :=
  a <> Gt -> b <> Gt -> c <> Gt /\ (c = Eq -> a = Eq /\ b = Eq).

(** The joined row behind a row of the history. *)
Definition unmapped (i : HistoryQueryResultItem) : QueryRow :=
  {| qr_detected_plate_results := item i;
     qr_detections := detection i;
     qr_license_plates := licensePlate i |}.

(** [a] may come before [b] when the most recent detection comes first;
    a row without detection comes before the others. *)
Definition recent_first (a b : HistoryQueryResultItem) : Prop :=
  match detection a, detection b with
  | Some d1, Some d2 => det_detectionTime d2 <= det_detectionTime d1
  | Some _, None => False
  | None, _ => True
  end.

(** The detection and the license plate that a row of the history shows are
    the ones its result row refers to. *)
Definition joined_from (s : Store) (i : HistoryQueryResultItem) : Prop :=
  In (item i) (detected_plate_results s)
  /\ match detection i with
     | Some d => In d (detections s) /\ det_id d = dpr_detectionId (item i)
     | None =>
         forall d, In d (detections s) -> det_id d <> dpr_detectionId (item i)
     end
  /\ match licensePlate i with
     | Some p =>
         In p (license_plates s) /\ dpr_licensePlateId (item i) = Some (lp_id p)
     | None =>
         forall p, In p (license_plates s) ->
                   dpr_licensePlateId (item i) <> Some (lp_id p)
     end.

(** The rows of [detected_plate_results] carry ids of their own, drawn from
    the sequence, and refer to rows that exist: [detectionId] to a
    detection, [licensePlateId], when it is not null, to the license plate
    that has the plate number of the row; a row without license plate has a
    blank plate number. *)
Record store_linked (s : Store) : Prop := {
  linked_store_ok : store_ok s;
  result_ids_unique : NoDup (List.map dpr_id (detected_plate_results s));
  result_ids_serial :
    Forall (fun r => 0 < dpr_id r <= detected_plate_results_id_seq s)
      (detected_plate_results s);
  result_sequence_started : 0 <= detected_plate_results_id_seq s;
  results_have_detection :
    Forall (fun r => In (dpr_detectionId r) (List.map det_id (detections s)))
      (detected_plate_results s);
  results_have_plate :
    Forall
      (fun r =>
         match dpr_licensePlateId r with
         | Some k =>
             exists p, In p (license_plates s) /\ lp_id p = k
                       /\ lp_plateNumber p = dpr_plateNumber r
         | None => keeps_plate_number (dpr_plateNumber r) = false
         end)
      (detected_plate_results s)
}.

(** Code that never moves the sequence of [detected_plate_results]
    backwards. *)
Definition results_monotone {A : Type} (m : Db A) : Prop :=
  forall s s' o,
    m s = (s', o) ->
    detected_plate_results_id_seq s <= detected_plate_results_id_seq s'.

(** The strings of a detection fit the columns they are written to. *)
Definition fits_columns (det : BackendDetection) : bool :=
  fits 20 (plate_number det)
  && fits_opt 50 (ocr_engine_used det)
  && match plate_analysis det with
     | Some a =>
         fits 20 (normalized a)
         && fits_opt 10 (province_code a)
         && fits_opt 100 (province_name a)
         && fits 50 (plate_type a)
         && fits_opt 30 (detected_color a)
     | None => true
     end.

(** A value longer than [n] characters whose excess is not made of spaces:
    PostgreSQL refuses it for a [varchar(n)] column. *)
Definition overflows (n : nat) (s : string) : bool :=
  existsb (fun c => negb (Ascii.eqb c " "%char)) (skipn n (list_ascii_of_string s)).

Definition overflows_opt (n : nat) (o : option string) : bool :=
  match o with Some s => overflows n s | None => false end.

Definition overflows_columns (det : BackendDetection) : bool :=
  overflows 20 (plate_number det)
  || overflows_opt 50 (ocr_engine_used det)
  || match plate_analysis det with
     | Some a =>
         overflows 20 (normalized a)
         || overflows_opt 10 (province_code a)
         || overflows_opt 100 (province_name a)
         || overflows 50 (plate_type a)
         || overflows_opt 30 (detected_color a)
     | None => false
     end.

(** A detection with an analysis, of a category that is no vehicle category
    of the schema. *)
Definition analysed_detection : BackendDetection :=
  {| plate_number := "59X1-23456";
     confidence_detection := (8 # 10)%Q;
     bounding_box := (5, 5, 50, 30)%Q;
     plate_analysis :=
       Some {| original := "59X1-23456";
               normalized := "59X123456";
               province_code := Some "59";
               province_name := Some "TP. Ho Chi Minh";
               serial := Some "X1";
               number := Some "23456";
               plate_type := "personal";
               plate_type_info :=
                 Some {| pti_name := "personal";
                         pti_description := "private vehicle";
                         category := Some "motorcycle" |};
               detected_color := Some "white";
               is_valid_format := true;
               format_description := None |};
     ocr_engine_used := Some "easyocr" |}.

Definition analysed_response : ApiResponse :=
  {| api_detections := Some [analysed_detection; sample_detection " "];
     processed_image_url := Some "/processed/c.jpg";
     processing_time_ms := Some (2505 # 10)%Q;
     error := None |}.

Definition analysed_store : Store :=
  Eval vm_compute in
    fst (insertDetectionAndResults no_fault 3000 (Some analysed_response)
           SrcCamera "c.jpg" sample_store).

Definition analysed_created : option DetectionSelect :=
  Eval vm_compute in
    match
      snd (insertDetectionAndResults no_fault 3000 (Some analysed_response)
             SrcCamera "c.jpg" sample_store)
    with
    | Returned r => r
    | Thrown _ => None
    end.

(** The response can be stored: the strings of its detections fit their
    columns, no plate number reads [__proto__], and the rounded processing
    time is an [integer] of PostgreSQL. *)
Definition storable (response : ApiResponse) (dets : list BackendDetection) : Prop :=
  Forall (fun det => fits_columns det = true /\ plate_number det <> "__proto__") dets
  /\ match processing_time_ms response with
     | Some t => in_int4 (Math_round t) = true
     | None => True
     end.

(** The page of an outcome of [fetchDetectionHistory]; empty when it
    threw. *)
Definition page_of (o : outcome FetchHistoryResult) : FetchHistoryResult :=
  match o with
  | Returned res => res
  | Thrown _ => {| rows := []; totalRowCount := 0 |}
  end.

(** The history of the sample store after the second image, without sort
    spec and without filter; and its two pages of two rows, by plate number
    and then the most recent first. *)
Definition sample_history : FetchHistoryResult :=
  Eval vm_compute in
    page_of (fetchDetectionHistory 0 {| pageIndex := 0; pageSize := 10 |} [] []
               sample_store_after).

Definition sample_ordered : list QueryRow :=
  Eval vm_compute in
    sort_by
      (rows_leb
         (order_keys
            (parseSortingToDrizzle
               [{| sort_id := "plateNumber"; sort_desc := false |};
                {| sort_id := "date"; sort_desc := true |}])))
      (joined_rows sample_store_after true).

Definition sample_pages : list FetchHistoryResult :=
  Eval vm_compute in
    List.map
      (fun k =>
         page_of
           (fetchDetectionHistory 0 {| pageIndex := k; pageSize := 2 |}
              [{| sort_id := "plateNumber"; sort_desc := false |};
               {| sort_id := "date"; sort_desc := true |}] [] sample_store_after))
      [0; 1].

(** ** The [/history] route of [index.ts] *)

(** Truthiness of a value. *)
Definition truthy (v : jsval) : bool :=
  match v with
  | JUndefined | JNull => false
  | JBool b => b
  | JNum q => negb (Qeq_bool q 0)
  | JStr s => truthy_string s
  | JDate _ | JArr _ | JObj _ => true
  end.

(** [value === s] for a string [s]. *)
Definition strict_equals_string (value : jsval) (s : string) : bool :=
  match value with
  | JStr x => String.eqb x s
  | _ => false
  end.

Module HistoryQuery.

(** [validationResult.data]: what [historyQuerySchema] makes of the query
    string.  An optional parameter that the query does not have is [None];
    the values of the two [z.enum(["true", "false"])] are the booleans they
    name; a date is its time value. *)
Record params : Type := {
  pageIndex : Z;
  pageSize : Z;
  sortId : option string;
  sortDesc : option bool;
  plateNumber : option string;
  normalizedPlate : option string;
  provinceName : option string;
  ocrEngine : option string;
  typeVehicle : option string;
  source : option string;
  isValidFormat : option bool;
  confidenceMin : option Q;
  confidenceMax : option Q;
  processTimeMin : option Z;
  processTimeMax : option Z;
  dateFrom : option Z;
  dateTo : option Z
}.

End HistoryQuery.

Definition optional {A : Type} (f : A -> jsval) (v : option A) : jsval :=
  match v with
  | Some x => f x
  | None => JUndefined
  end.

Definition enum_value (b : bool) : jsval := JStr (if b then "true" else "false").

Definition at_least (lo : Q) (v : option Q) : bool :=
  match v with Some x => Qle_bool lo x | None => true end.

Definition at_most (hi : Q) (v : option Q) : bool :=
  match v with Some x => Qle_bool x hi | None => true end.

(** The bounds [historyQuerySchema] puts on the numbers. *)
Definition historyQuerySchema (q : HistoryQuery.params) : bool :=
  (0 <=? HistoryQuery.pageIndex q)
  && (1 <=? HistoryQuery.pageSize q) && (HistoryQuery.pageSize q <=? 100)
  && at_least 0 (HistoryQuery.confidenceMin q)
  && at_most 100 (HistoryQuery.confidenceMin q)
  && at_least 0 (HistoryQuery.confidenceMax q)
  && at_most 100 (HistoryQuery.confidenceMax q)
  && at_least 0 (option_map inject_Z (HistoryQuery.processTimeMin q))
  && at_least 0 (option_map inject_Z (HistoryQuery.processTimeMax q)).

(** [Object.entries(validQueryParams)]: the keys come in the order of the
    schema. *)
Definition Object_entries (q : HistoryQuery.params) : list (string * jsval) :=
  [("pageIndex", JNum (inject_Z (HistoryQuery.pageIndex q)));
   ("pageSize", JNum (inject_Z (HistoryQuery.pageSize q)));
   ("sortId", optional JStr (HistoryQuery.sortId q));
   ("sortDesc", optional enum_value (HistoryQuery.sortDesc q));
   ("plateNumber", optional JStr (HistoryQuery.plateNumber q));
   ("normalizedPlate", optional JStr (HistoryQuery.normalizedPlate q));
   ("provinceName", optional JStr (HistoryQuery.provinceName q));
   ("ocrEngine", optional JStr (HistoryQuery.ocrEngine q));
   ("typeVehicle", optional JStr (HistoryQuery.typeVehicle q));
   ("source", optional JStr (HistoryQuery.source q));
   ("isValidFormat", optional enum_value (HistoryQuery.isValidFormat q));
   ("confidenceMin", optional JNum (HistoryQuery.confidenceMin q));
   ("confidenceMax", optional JNum (HistoryQuery.confidenceMax q));
   ("processTimeMin",
    optional (fun n => JNum (inject_Z n)) (HistoryQuery.processTimeMin q));
   ("processTimeMax",
    optional (fun n => JNum (inject_Z n)) (HistoryQuery.processTimeMax q));
   ("dateFrom", optional JDate (HistoryQuery.dateFrom q));
   ("dateTo", optional JDate (HistoryQuery.dateTo q))].

(** [o.k = v] on the fields of an object. *)
Fixpoint set_field (k : string) (v : jsval) (fields : list (string * jsval))
  : list (string * jsval) :=
  match fields with
  | [] => [(k, v)]
  | (k', v') :: fields' =>
      if String.eqb k k' then (k, v) :: fields'
      else (k', v') :: set_field k v fields'
  end.

(** [filters.find(f => f.id === columnId)], then the assignment to the
    value of the filter found, or the [push] of a new filter. *)
Fixpoint assign_value (columnId : string) (is_min : bool) (value : jsval)
    (filters : ApiColumnFiltersState) : ApiColumnFiltersState :=
  match filters with
  | [] =>
      [{| filter_id := columnId;
          filter_value :=
            if is_min then JArr [value; JUndefined] else JArr [JUndefined; value] |}]
  | existing :: filters' =>
      if String.eqb (filter_id existing) columnId then
        {| filter_id := filter_id existing;
           filter_value :=
             set_index (filter_value existing) (if is_min then 0%nat else 1%nat)
               value |} :: filters'
      else existing :: assign_value columnId is_min value filters'
  end.

(** One iteration of the loop over the entries: the filters and the fields
    of [dateFilter] after it. *)
Definition history_step
    (state : ApiColumnFiltersState * list (string * jsval))
    (entry : string * jsval) : ApiColumnFiltersState * list (string * jsval) :=
  let filters := fst state in
  let dateFilter := snd state in
  let key := fst entry in
  let value := snd entry in
  match value with
  | JUndefined | JNull => state
  | _ =>
      if string_includes ["pageIndex"; "pageSize"; "sortId"; "sortDesc"] key
      then state
      else if String.eqb key "dateFrom"
      then (filters, set_field "from" value dateFilter)
      else if String.eqb key "dateTo"
      then (filters, set_field "to" value dateFilter)
      else if String.eqb key "confidenceMin" || String.eqb key "confidenceMax"
      then (assign_value "confidence" (String.eqb key "confidenceMin") value filters,
            dateFilter)
      else if String.eqb key "processTimeMin" || String.eqb key "processTimeMax"
      then (assign_value "processTime" (String.eqb key "processTimeMin") value
              filters,
            dateFilter)
      else if String.eqb key "isValidFormat"
      then (filters ++
            [{| filter_id := key;
                filter_value := JBool (strict_equals_string value "true") |}],
            dateFilter)
      else (filters ++ [{| filter_id := key; filter_value := value |}], dateFilter)
  end.

Definition history_pagination (q : HistoryQuery.params) : ApiPaginationState :=
  {| pageIndex := HistoryQuery.pageIndex q; pageSize := HistoryQuery.pageSize q |}.

Definition history_sorting (q : HistoryQuery.params) : ApiSortingState :=
  match HistoryQuery.sortId q with
  | Some id =>
      if truthy_string id then
        [{| sort_id := id;
            sort_desc :=
              strict_equals_string (optional enum_value (HistoryQuery.sortDesc q))
                "true"
              || (String.eqb id "date"
                  && negb (truthy (optional enum_value (HistoryQuery.sortDesc q)))) |}]
      else []
  | None => []
  end.

Definition history_filters (q : HistoryQuery.params) : ApiColumnFiltersState :=
  let state := fold_left history_step (Object_entries q) ([], []) in
  let filters := fst state in
  let dateFilter := JObj (snd state) in
  if truthy (js_field "from" dateFilter) || truthy (js_field "to" dateFilter)
  then filters ++ [{| filter_id := "date"; filter_value := dateFilter |}]
  else filters.

Record Response (B : Type) : Type := { status : Z; body : B }.
Arguments status {B} _.
Arguments body {B} _.

(** The bodies of the [/history] route; the details of a validation error
    are left out. *)
Inductive HistoryBody : Type :=
| InvalidQueryParameters
| HistoryResult (result : FetchHistoryResult)
| HistoryFailure (error details : string).

(** The handler of [GET /history], from the result of [safeParse]. *)
Definition history_route (tz : Z) (validationResult : option HistoryQuery.params)
    (s : Store) : Response HistoryBody :=
  match validationResult with
  | None => {| status := 400; body := InvalidQueryParameters |}
  | Some validQueryParams =>
      match
        fetchDetectionHistory tz (history_pagination validQueryParams)
          (history_sorting validQueryParams) (history_filters validQueryParams) s
      with
      | Returned result => {| status := 200; body := HistoryResult result |}
      | Thrown message =>
          {| status := 500;
             body := HistoryFailure "Failed to fetch detection history" message |}
      end
  end.

(** The filter of one parameter, when the query has it. *)
Definition one_filter (columnId : string) (v : option jsval) : ApiColumnFiltersState :=
  match v with
  | Some x => [{| filter_id := columnId; filter_value := x |}]
  | None => []
  end.

(** The filter of the two bounds of one field, when the query has one. *)
Definition bounds_filter (columnId : string) (min max : option Q)
  : ApiColumnFiltersState :=
  match min, max with
  | None, None => []
  | _, _ => [{| filter_id := columnId; filter_value := range_value min max |}]
  end.

Definition days_filter (from to : option Z) : ApiColumnFiltersState :=
  match from, to with
  | None, None => []
  | _, _ => [{| filter_id := "date"; filter_value := ApiDateRange from to |}]
  end.

Definition sample_query : HistoryQuery.params :=
  {| HistoryQuery.pageIndex := 0;
     HistoryQuery.pageSize := 10;
     HistoryQuery.sortId := Some "confidence";
     HistoryQuery.sortDesc := None;
     HistoryQuery.plateNumber := Some "51a";
     HistoryQuery.normalizedPlate := None;
     HistoryQuery.provinceName := None;
     HistoryQuery.ocrEngine := None;
     HistoryQuery.typeVehicle := None;
     HistoryQuery.source := Some "upload";
     HistoryQuery.isValidFormat := None;
     HistoryQuery.confidenceMin := Some 50%Q;
     HistoryQuery.confidenceMax := Some 95%Q;
     HistoryQuery.processTimeMin := None;
     HistoryQuery.processTimeMax := Some 5000;
     HistoryQuery.dateFrom := None;
     HistoryQuery.dateTo := Some 86400000 |}.

(** A query that passes the schema with a bound that is no [integer] of the
    store. *)
Definition sample_query_out_of_range : HistoryQuery.params :=
  {| HistoryQuery.pageIndex := 0;
     HistoryQuery.pageSize := 10;
     HistoryQuery.sortId := None;
     HistoryQuery.sortDesc := None;
     HistoryQuery.plateNumber := None;
     HistoryQuery.normalizedPlate := None;
     HistoryQuery.provinceName := None;
     HistoryQuery.ocrEngine := None;
     HistoryQuery.typeVehicle := None;
     HistoryQuery.source := None;
     HistoryQuery.isValidFormat := None;
     HistoryQuery.confidenceMin := None;
     HistoryQuery.confidenceMax := None;
     HistoryQuery.processTimeMin := None;
     HistoryQuery.processTimeMax := Some 3000000000;
     HistoryQuery.dateFrom := None;
     HistoryQuery.dateTo := None |}.

(** ** The upload routes of [index.ts] *)

(** [s.includes(sub)] *)
Fixpoint includes (sub s : string) : bool :=
  String.prefix sub s
  || match s with
     | EmptyString => false
     | String _ s' => includes sub s'
     end.

(** What [formData.get("file")] gives when the field is there: a file, with
    its name and its type, or a string. *)
Inductive FormDataEntryValue : Type :=
| EntryFile (name type : string)
| EntryString (value : string).

(** The answer of the recognition service: its status and what
    [response.json()] gives, which throws when the body is no JSON. *)
Record FetchResponse : Type := {
  response_status : Z;
  response_json : outcome (option ApiResponse)
}.

(** [response.ok] *)
Definition response_ok (response : FetchResponse) : bool :=
  (200 <=? response_status response) && (response_status response <=? 299).

(** The bodies of the two routes.  The first four are the fixed messages
    of the checks on the request; [Forwarded] is [c.json(result)], the body
    of the recognition service as it came. *)
Inductive UploadBody : Type :=
| InvalidFileUpload
| UnsupportedFileType
| MissingUrl
| InvalidUrlFormat
| Forwarded (result : option ApiResponse)
| Failure (error details : string).

Section Upload.

Variable fault : statement -> bool.
Variable now : Z.

(** Whether [new URL(url)] returns. *)
Variable URL_parses : string -> bool.

(** The [catch] of [POST /process-image], for an [Error] with that
    message. *)
Definition process_image_catch (message : string) : Response UploadBody :=
  if includes "fetch failed" message || includes "ECONNREFUSED" message
  then {| status := 502;
          body := Failure "Could not connect to the backend processing service."
                    message |}
  else if includes "multipart" message
  then {| status := 400;
          body := Failure "Failed to parse multipart form data." message |}
  else {| status := 500;
          body := Failure "An unexpected server error occurred." message |}.

(** [POST /process-image], from what [c.req.formData()] and [fetch] give. *)
Definition process_image
    (formData : outcome (option FormDataEntryValue))
    (fetch : outcome FetchResponse) (s : Store) : Store * Response UploadBody :=
  match formData with
  | Thrown message => (s, process_image_catch message)
  | Returned (Some (EntryFile name type)) =>
      if negb (String.prefix "image/" type)
      then (s, {| status := 415; body := UnsupportedFileType |})
      else
        match fetch with
        | Thrown message => (s, process_image_catch message)
        | Returned response =>
            match response_json response with
            | Thrown message => (s, process_image_catch message)
            | Returned result =>
                if negb (response_ok response) then
                  let statusCode :=
                    if (response_status response =? 415)
                       || (response_status response =? 413)
                       || (response_status response =? 422)
                    then response_status response
                    else 500 in
                  (s, {| status := statusCode; body := Forwarded result |})
                else
                  match insertDetectionAndResults fault now result SrcUpload name s with
                  | (s', Returned dbResult) =>
                      (s', {| status := 200; body := Forwarded result |})
                  | (s', Thrown message) => (s', process_image_catch message)
                  end
            end
        end
  | Returned _ => (s, {| status := 400; body := InvalidFileUpload |})
  end.

(** The [catch] of [POST /process-image-url]. *)
Definition process_image_url_catch (message : string) : Response UploadBody :=
  if includes "fetch failed" message || includes "ECONNREFUSED" message
  then {| status := 502;
          body := Failure "Could not connect to the backend processing service."
                    message |}
  else {| status := 500;
          body := Failure "An unexpected server error occurred processing the URL."
                    message |}.

(** [POST /process-image-url], from the [url] of the body that
    [c.req.json()] gives, [None] when the body has none. *)
Definition process_image_url
    (json : outcome (option string))
    (fetch : outcome FetchResponse) (s : Store) : Store * Response UploadBody :=
  match json with
  | Thrown message => (s, process_image_url_catch message)
  | Returned None => (s, {| status := 400; body := MissingUrl |})
  | Returned (Some url) =>
      if negb (truthy_string url)
      then (s, {| status := 400; body := MissingUrl |})
      else if negb (URL_parses url)
      then (s, {| status := 400; body := InvalidUrlFormat |})
      else
        match fetch with
        | Thrown message => (s, process_image_url_catch message)
        | Returned response =>
            match response_json response with
            | Thrown message => (s, process_image_url_catch message)
            | Returned result =>
                if negb (response_ok response) then
                  let statusCode :=
                    if response_status response =? 422 then 422 else 500 in
                  (s, {| status := statusCode; body := Forwarded result |})
                else
                  match insertDetectionAndResults fault now result SrcApi url s with
                  | (s', Returned dbResult) =>
                      (s', {| status := 200; body := Forwarded result |})
                  | (s', Thrown message) => (s', process_image_url_catch message)
                  end
            end
        end
  end.

End Upload.

(** The three tables of two stores hold the same rows. *)
Definition same_tables (s s' : Store) : Prop :=
  detections s' = detections s
  /\ license_plates s' = license_plates s
  /\ detected_plate_results s' = detected_plate_results s.

Definition sample_upload : FetchResponse :=
  {| response_status := 200;
     response_json := Returned (Some (sample_response second_plates)) |}.

(** The store after the upload of the second image to the sample store. *)
Definition sample_store_twice_images : Store :=
  Eval vm_compute in
    fst (insertDetectionAndResults no_fault 2000
           (Some (sample_response second_plates)) SrcUpload "b.jpg" sample_store).

(** ** [processAndSave] of [index.ts] *)

Section ProcessAndSave.

Variable fault : statement -> bool.
Variable now : Z.

(** [process.env.PYTHON_API_URL || "http://127.0.0.1:8000"] *)
Variable PYTHON_API_URL : string.

(** The text of [${response.status} ${response.statusText}] and of
    [JSON.stringify(errorBody)]. *)
Variable status_line : FetchResponse -> string.
Variable JSON_stringify : option ApiResponse -> string.

(** The [catch] of [processAndSave]; [apiResponseData] is still [null] at
    every point that throws into it. *)
Definition processAndSave_catch (message : string) : ApiResponse :=
  {| api_detections := Some [];
     processed_image_url := None;
     processing_time_ms := None;
     error :=
       Some
         (if includes "fetch failed" message
             || includes "ENOTFOUND" message
             || includes "ECONNREFUSED" message
          then "Could not connect to Python processing service at "
               +:+ PYTHON_API_URL +:+ "."
          else if String.prefix "Python API Error:" message
          then message
          else "Processing failed: " +:+ message) |}.

Definition processAndSave (fetchPromise : outcome FetchResponse)
    (source : detection_source) (originalIdentifier : string) (s : Store)
  : Store * ApiResponse :=
  match fetchPromise with
  | Thrown message => (s, processAndSave_catch message)
  | Returned response =>
      if negb (response_ok response) then
        let errorBody :=
          match response_json response with
          | Returned errorBody => errorBody
          | Thrown _ => None
          end in
        (s, processAndSave_catch
              ("Python API Error: " +:+ status_line response +:+ ". Details: "
               +:+ JSON_stringify errorBody))
      else
        match response_json response with
        | Thrown message => (s, processAndSave_catch message)
        | Returned None =>
            (s, {| api_detections := Some [];
                   processed_image_url := None;
                   processing_time_ms := None;
                   error := Some "No response data received from Python API." |})
        | Returned (Some apiResponseData) =>
            match api_detections apiResponseData with
            | Some (_ :: _) =>
                match
                  insertDetectionAndResults fault now (Some apiResponseData) source
                    originalIdentifier s
                with
                | (s', Returned createdDetection) => (s', apiResponseData)
                | (s', Thrown message) =>
                    (s',
                     {| api_detections := api_detections apiResponseData;
                        processed_image_url := processed_image_url apiResponseData;
                        processing_time_ms := processing_time_ms apiResponseData;
                        error :=
                          Some
                            (match error apiResponseData with
                             | Some e =>
                                 if truthy_string e
                                 then e +:+ ". DB save failed: " +:+ message
                                 else "DB save failed: " +:+ message
                             | None => "DB save failed: " +:+ message
                             end) |})
                end
            | _ => (s, apiResponseData)
            end
        end
  end.

End ProcessAndSave.

(** The second image goes through [processAndSave] while the store fails
    on the insertion of the result rows. *)
Definition sample_saved : Store * ApiResponse :=
  Eval vm_compute in
    processAndSave fault_on_results 2000 "http://127.0.0.1:8000"
      (fun _ => "500 Internal Server Error") (fun _ => "null")
      (Returned sample_upload) SrcUpload "b.jpg" sample_store.

(** * Properties *)

(** ** Lookups in the two column maps *)

Lemma filterColumnMap_confidence :
  JsObject.get filterColumnMap "confidence" = JsObject.Own ColConfidenceDetection.
Proof. vm_compute. reflexivity. Qed.

Lemma filterColumnMap_processTime :
  JsObject.get filterColumnMap "processTime" = JsObject.Own ColProcessTimeMs.
Proof. vm_compute. reflexivity. Qed.

Lemma filterColumnMap_date :
  JsObject.get filterColumnMap "date" = JsObject.Own ColDetectionTime.
Proof. vm_compute. reflexivity. Qed.

Lemma filterColumnMap_ocrEngine :
  JsObject.get filterColumnMap "ocrEngine" = JsObject.Own ColOcrEngineUsed.
Proof. vm_compute. reflexivity. Qed.

Lemma filterColumnMap_typeVehicle :
  JsObject.get filterColumnMap "typeVehicle" = JsObject.Own ColTypeVehicle.
Proof. vm_compute. reflexivity. Qed.

Lemma filterColumnMap_source :
  JsObject.get filterColumnMap "source" = JsObject.Own ColSource.
Proof. vm_compute. reflexivity. Qed.

Lemma conditions_of_confidence tz v :
  conditions_of_filter tz {| filter_id := "confidence"; filter_value := v |} =
  range_case "confidence" ColConfidenceDetection v.
Proof.
  unfold conditions_of_filter; cbn [filter_id filter_value].
  rewrite filterColumnMap_confidence. reflexivity.
Qed.

Lemma conditions_of_processTime tz v :
  conditions_of_filter tz {| filter_id := "processTime"; filter_value := v |} =
  range_case "processTime" ColProcessTimeMs v.
Proof.
  unfold conditions_of_filter; cbn [filter_id filter_value].
  rewrite filterColumnMap_processTime. reflexivity.
Qed.

Lemma conditions_of_date tz v :
  conditions_of_filter tz {| filter_id := "date"; filter_value := v |} =
  date_case tz ColDetectionTime v.
Proof.
  unfold conditions_of_filter; cbn [filter_id filter_value].
  rewrite filterColumnMap_date. reflexivity.
Qed.

Lemma conditions_of_ocrEngine tz v :
  conditions_of_filter tz {| filter_id := "ocrEngine"; filter_value := v |} =
  enum_case "ocrEngine" ColOcrEngineUsed v.
Proof.
  unfold conditions_of_filter; cbn [filter_id filter_value].
  rewrite filterColumnMap_ocrEngine. reflexivity.
Qed.

Lemma conditions_of_typeVehicle tz v :
  conditions_of_filter tz {| filter_id := "typeVehicle"; filter_value := v |} =
  enum_case "typeVehicle" ColTypeVehicle v.
Proof.
  unfold conditions_of_filter; cbn [filter_id filter_value].
  rewrite filterColumnMap_typeVehicle. reflexivity.
Qed.

Lemma conditions_of_source tz v :
  conditions_of_filter tz {| filter_id := "source"; filter_value := v |} =
  enum_case "source" ColSource v.
Proof.
  unfold conditions_of_filter; cbn [filter_id filter_value].
  rewrite filterColumnMap_source. reflexivity.
Qed.

(** ** Empty responses *)

(** C3: on a response whose detection list is empty or missing,
    [insertDetectionAndResults] returns [null] and writes nothing: the store
    after the call is the store before it, whatever the store would have
    answered to a statement. *)
Theorem empty_response_returns_null_and_writes_nothing
    (fault : statement -> bool) (now : Z) (apiResponse : option ApiResponse)
    (source : detection_source) (originalImageUrl : string) (s : Store) :
  no_detections apiResponse ->
  insertDetectionAndResults fault now apiResponse source originalImageUrl s
  = (s, Returned None).
Proof.
  unfold no_detections, insertDetectionAndResults.
  destruct apiResponse as [response|]; [|reflexivity].
  intros [H|H]; rewrite H; reflexivity.
Qed.

Lemma empty_response_witness :
  insertDetectionAndResults (fun _ => true) 0
    (Some {| api_detections := Some []; processed_image_url := None;
             processing_time_ms := None; error := None |})
    SrcUpload "a.jpg" empty_store
  = (empty_store, Returned None).
Proof.
  apply empty_response_returns_null_and_writes_nothing.
  simpl. right. reflexivity.
Defined.

(** ** Ranges that are not ranges *)

Lemma range_case_ignores columnId column v :
  ~ (exists a b, v = JArr [a; b] /\ ((exists q, a = JNum q) \/ (exists q, b = JNum q))) ->
  range_case columnId column v = [].
Proof.
  intros H. unfold range_case.
  destruct v as [| | | | | |elems|]; try reflexivity.
  destruct elems as [|a [|b [|c elems]]]; try reflexivity.
  destruct (is_number a || is_number b) eqn:E; [|reflexivity].
  exfalso. apply H. exists a, b. split; [reflexivity|].
  apply orb_prop in E. unfold is_number in E.
  destruct E as [E|E]; [left; destruct a | right; destruct b];
    try discriminate E; eauto.
Qed.

Lemma parseFiltersToDrizzle_conditions tz filters :
  parseFiltersToDrizzle tz filters
  = drizzle_and (flat_map (conditions_of_filter tz) filters).
Proof.
  unfold parseFiltersToDrizzle.
  destruct (flat_map (conditions_of_filter tz) filters); reflexivity.
Qed.

(** C10: a [confidence] or [processTime] spec whose value is not an array of
    exactly two elements of which at least one is a number pushes no
    condition; alone it compiles to no filter, and among other specs the
    compiled predicate is the one compiled without it. *)
Theorem malformed_range_is_ignored
    (tz : Z) (columnId : string) (v : jsval)
    (before after : ApiColumnFiltersState) :
  columnId = "confidence" \/ columnId = "processTime" ->
  ~ (exists a b, v = JArr [a; b] /\ ((exists q, a = JNum q) \/ (exists q, b = JNum q))) ->
  conditions_of_filter tz {| filter_id := columnId; filter_value := v |} = []
  /\ parseFiltersToDrizzle tz [{| filter_id := columnId; filter_value := v |}] = None
  /\ parseFiltersToDrizzle tz
       (before ++ {| filter_id := columnId; filter_value := v |} :: after)
     = parseFiltersToDrizzle tz (before ++ after).
Proof.
  intros Hid Hv.
  assert (Hnil : conditions_of_filter tz {| filter_id := columnId; filter_value := v |} = []).
  { destruct Hid as [-> | ->].
    - rewrite conditions_of_confidence. apply range_case_ignores, Hv.
    - rewrite conditions_of_processTime. apply range_case_ignores, Hv. }
  split; [exact Hnil|]. split.
  - rewrite parseFiltersToDrizzle_conditions. cbn [flat_map].
    rewrite Hnil. reflexivity.
  - rewrite !parseFiltersToDrizzle_conditions, !flat_map_app. cbn [flat_map].
    rewrite Hnil. reflexivity.
Qed.

Lemma malformed_range_witness :
  conditions_of_filter 0 {| filter_id := "confidence"; filter_value := JNum 50 |} = []
  /\ parseFiltersToDrizzle 0 [{| filter_id := "confidence"; filter_value := JNum 50 |}] = None
  /\ parseFiltersToDrizzle 0
       ([] ++ {| filter_id := "confidence"; filter_value := JNum 50 |} :: [])
     = parseFiltersToDrizzle 0 ([] ++ []).
Proof.
  apply malformed_range_is_ignored.
  - left. reflexivity.
  - intros (a & b & H & _). discriminate H.
Defined.

(** ** Enumerated-string filters *)

Lemma string_includes_In l s : string_includes l s = true <-> In s l.
Proof.
  unfold string_includes. rewrite existsb_exists. split.
  - intros (x & Hx & E). apply String.eqb_eq in E. subst. exact Hx.
  - intros H. exists s. split; [exact H | apply String.eqb_refl].
Qed.

Lemma nonempty_length (s : string) : s <> "" -> (0 <? Z.of_nat (String.length s)) = true.
Proof.
  destruct s; [congruence|]. intros _. apply Z.ltb_lt. cbn [String.length]. lia.
Qed.

Lemma string_includes_false l s : ~ In s l -> string_includes l s = false.
Proof.
  intros H. destruct (string_includes l s) eqn:E; [|reflexivity].
  apply string_includes_In in E. contradiction.
Qed.

(** C7, as the code has it: a non-empty string for [typeVehicle] or [source]
    compiles to an equality when it is a value of the field's enumeration
    and to no condition otherwise; [ocrEngine] has no enumeration, and every
    non-empty string compiles to an equality. *)
Theorem enumerated_filter_conditions (tz : Z) (v : string) :
  v <> "" ->
  (In v vehicleCategoryEnum ->
   conditions_of_filter tz {| filter_id := "typeVehicle"; filter_value := JStr v |}
   = [SqlEq ColTypeVehicle (PStr v)])
  /\ (~ In v vehicleCategoryEnum ->
      conditions_of_filter tz {| filter_id := "typeVehicle"; filter_value := JStr v |}
      = [])
  /\ (In v detectionSourceEnum ->
      conditions_of_filter tz {| filter_id := "source"; filter_value := JStr v |}
      = [SqlEq ColSource (PStr v)])
  /\ (~ In v detectionSourceEnum ->
      conditions_of_filter tz {| filter_id := "source"; filter_value := JStr v |}
      = [])
  /\ conditions_of_filter tz {| filter_id := "ocrEngine"; filter_value := JStr v |}
     = [SqlEq ColOcrEngineUsed (PStr v)].
Proof.
  intros Hv. pose proof (nonempty_length v Hv) as Hlen.
  rewrite conditions_of_typeVehicle, conditions_of_source, conditions_of_ocrEngine.
  unfold enum_case. rewrite Hlen.
  repeat split.
  - intros H. apply string_includes_In in H. rewrite H. reflexivity.
  - intros H. apply string_includes_false in H. rewrite H. reflexivity.
  - intros H. apply string_includes_In in H. rewrite H. reflexivity.
  - intros H. apply string_includes_false in H. rewrite H. reflexivity.
Qed.

Lemma enumerated_filter_witness :
  conditions_of_filter 0 {| filter_id := "typeVehicle"; filter_value := JStr "car" |}
  = [SqlEq ColTypeVehicle (PStr "car")]
  /\ conditions_of_filter 0 {| filter_id := "source"; filter_value := JStr "car" |}
     = []
  /\ conditions_of_filter 0 {| filter_id := "ocrEngine"; filter_value := JStr "car" |}
     = [SqlEq ColOcrEngineUsed (PStr "car")].
Proof.
  assert (Hne : "car" <> "") by discriminate.
  destruct (enumerated_filter_conditions 0 "car" Hne) as (H1 & _ & _ & H4 & H5).
  split; [|split].
  - apply H1. simpl. left. reflexivity.
  - apply H4. simpl. intuition discriminate.
  - exact H5.
Defined.

(** No list of strings is an enumeration for [ocrEngine] outside of which
    values are ignored: a string outside the list still compiles to an
    equality. *)
Lemma ocrEngine_value_is_never_ignored :
  ~ (exists enumeration : list string,
       forall (tz : Z) (v : string), v <> "" ->
         (In v enumeration ->
          conditions_of_filter tz {| filter_id := "ocrEngine"; filter_value := JStr v |}
          = [SqlEq ColOcrEngineUsed (PStr v)])
         /\ (~ In v enumeration ->
             conditions_of_filter tz {| filter_id := "ocrEngine"; filter_value := JStr v |}
             = [])).
Proof.
  intros (enumeration & H).
  pose (v := fresh ("" :: enumeration)).
  pose proof (infinite_is_fresh ("" :: enumeration)) as Hfresh. fold v in Hfresh.
  assert (Hne : v <> "").
  { intros E. apply Hfresh. rewrite E. left. }
  assert (Hout : ~ In v enumeration).
  { intros Hin. apply Hfresh. right. apply list_elem_of_In, Hin. }
  destruct (H 0 v Hne) as [_ Hnone]. specialize (Hnone Hout).
  rewrite conditions_of_ocrEngine in Hnone. unfold enum_case in Hnone.
  rewrite (nonempty_length v Hne) in Hnone. discriminate Hnone.
Qed.

(** ** The sort compiler *)

Lemma sortColumnMap_constructor :
  JsObject.get sortColumnMap "constructor" = JsObject.Inherited "constructor".
Proof. vm_compute. reflexivity. Qed.

Lemma parseSortingToDrizzle_terms (sorting : ApiSortingState) :
  Forall (fun sort => JsObject.inherited (sort_id sort) = false) sorting ->
  parseSortingToDrizzle sorting
  = match sorting with
    | [] => [desc (SortColumn ColDetectionTime)]
    | _ => List.map expected_term sorting
    end.
Proof.
  intros H. unfold parseSortingToDrizzle.
  destruct sorting as [|sp sorting]; [reflexivity|].
  cbn [length Z.of_nat Z.eqb].
  apply map_ext_in. intros x Hx.
  rewrite Forall_forall in H. specialize (H x).
  unfold expected_term, JsObject.get.
  destruct (sortColumnMap !! sort_id x); [reflexivity|].
  rewrite H; [reflexivity|]. apply list_elem_of_In, Hx.
Qed.

(** C8, at the sort id ["constructor"]: the id is no key of [sortColumnMap],
    yet the lookup is not [undefined], so the term built for it is not the
    fallback [desc(detectionTime)]. *)
Theorem inherited_sort_id_is_not_defaulted :
  sortColumnMap !! "constructor" = None
  /\ parseSortingToDrizzle [{| sort_id := "constructor"; sort_desc := false |}]
     = [asc (SortInherited "constructor")]
  /\ parseSortingToDrizzle [{| sort_id := "constructor"; sort_desc := false |}]
     <> [desc (SortColumn ColDetectionTime)].
Proof.
  assert (E : parseSortingToDrizzle [{| sort_id := "constructor"; sort_desc := false |}]
              = [asc (SortInherited "constructor")]).
  { unfold parseSortingToDrizzle. cbn [length Z.of_nat Z.eqb List.map sort_id sort_desc].
    rewrite sortColumnMap_constructor. reflexivity. }
  split; [vm_compute; reflexivity|]. split; [exact E|].
  rewrite E. discriminate.
Qed.

(** ** Evaluation of the compiled comparisons *)

Lemma eval_gte_time r t :
  eval (SqlGte ColDetectionTime (PDate t)) r = Some true
  <-> exists d, qr_detections r = Some d /\ t <= det_detectionTime d.
Proof.
  cbn [eval column_value]. destruct (qr_detections r) as [d|]; cbn.
  - destruct (Z.compare_spec (det_detectionTime d) t) as [H|H|H]; split;
      intros H'; try discriminate H';
      try (exists d; split; [reflexivity|lia]);
      try reflexivity.
    destruct H' as (d' & E & Hle). inversion E; subst. lia.
  - split; [discriminate|]. intros (d & E & _). discriminate.
Qed.

Lemma eval_lt_time r t :
  eval (SqlLt ColDetectionTime (PDate t)) r = Some true
  <-> exists d, qr_detections r = Some d /\ det_detectionTime d < t.
Proof.
  cbn [eval column_value]. destruct (qr_detections r) as [d|]; cbn.
  - destruct (Z.compare_spec (det_detectionTime d) t) as [H|H|H]; split;
      intros H'; try discriminate H';
      try (exists d; split; [reflexivity|lia]);
      try reflexivity;
      destruct H' as (d' & E & Hle); inversion E; subst; lia.
  - split; [discriminate|]. intros (d & E & _). discriminate.
Qed.

Lemma and3_true a b : and3 a b = Some true <-> a = Some true /\ b = Some true.
Proof.
  destruct a as [[]|], b as [[]|]; cbn; split; try discriminate; try tauto;
    intros [? ?]; discriminate.
Qed.

Lemma eval_and_cons c conds r :
  eval (SqlAnd (c :: conds)) r = and3 (eval c r) (eval (SqlAnd conds) r).
Proof. reflexivity. Qed.

Lemma eval_and_nil r : eval (SqlAnd []) r = Some true.
Proof. reflexivity. Qed.

Lemma matches_and conds r :
  matches (drizzle_and conds) r = true
  <-> Forall (fun c => eval c r = Some true) conds.
Proof.
  assert (H : eval (SqlAnd conds) r = Some true
              <-> Forall (fun c => eval c r = Some true) conds).
  { induction conds as [|c conds IH].
    - rewrite eval_and_nil. split; [constructor|reflexivity].
    - rewrite eval_and_cons, and3_true, IH. split.
      + intros [? ?]. constructor; assumption.
      + intros H. inversion H; subst. split; assumption. }
  destruct conds as [|c0 conds0].
  - cbn. split; [constructor|reflexivity].
  - cbn [drizzle_and matches]. rewrite <- H.
    destruct (eval (SqlAnd (c0 :: conds0)) r) as [[]|]; split; congruence.
Qed.

Lemma matches_parse tz filters r :
  matches (parseFiltersToDrizzle tz filters) r = true
  <-> Forall (fun c => eval c r = Some true)
        (flat_map (conditions_of_filter tz) filters).
Proof. rewrite parseFiltersToDrizzle_conditions. apply matches_and. Qed.

Lemma eval_group l r :
  Forall (fun c => eval c r = Some true) (pushed l)
  <-> Forall (fun c => eval c r = Some true) l.
Proof.
  unfold pushed. destruct l as [|c l]; [reflexivity|].
  cbn [drizzle_and]. rewrite Forall_cons, Forall_nil.
  rewrite <- (matches_and (c :: l) r). cbn [drizzle_and matches].
  destruct (eval (SqlAnd (c :: l)) r) as [[]|]; split;
    try tauto; try congruence; intros [? _]; congruence.
Qed.

Lemma eval_single_and c r :
  eval (SqlAnd [c]) r = Some true <-> eval c r = Some true.
Proof.
  rewrite eval_and_cons, eval_and_nil, and3_true. tauto.
Qed.

(** ** Calendar days *)

Lemma startOfDay_spec tz t d :
  startOfDay tz d <= t < startOfDay tz d + ms_per_day
  <-> startOfDay tz t = startOfDay tz d.
Proof.
  unfold startOfDay, ms_per_day.
  pose proof (Z.div_mod (t + tz) 86400000 ltac:(lia)) as Ht.
  pose proof (Z.div_mod (d + tz) 86400000 ltac:(lia)) as Hd.
  pose proof (Z.mod_pos_bound (t + tz) 86400000 ltac:(lia)) as Bt.
  pose proof (Z.mod_pos_bound (d + tz) 86400000 ltac:(lia)) as Bd.
  split; intros H; lia.
Qed.

(** ** The date range *)

Lemma inherited_from : JsObject.inherited "from" = false.
Proof. vm_compute. reflexivity. Qed.

Lemma inherited_to : JsObject.inherited "to" = false.
Proof. vm_compute. reflexivity. Qed.

Lemma date_case_range tz from to :
  date_case tz ColDetectionTime (ApiDateRange from to)
  = match
      match from with
      | Some f => [SqlGte ColDetectionTime (PDate (startOfDay tz f))]
      | None => []
      end ++
      match to with
      | Some t => [SqlLt ColDetectionTime (PDate (addDays (startOfDay tz t) 1))]
      | None => []
      end
    with
    | [] => []
    | l => [SqlAnd l]
    end.
Proof.
  unfold date_case, ApiDateRange.
  destruct from as [f|], to as [t|];
    cbn [typeof js_in js_field assoc app String.eqb Ascii.eqb Bool.eqb orb drizzle_and];
    rewrite ?inherited_from, ?inherited_to; reflexivity.
Qed.

(** C5: the [date] filter [{from, to}] compiles to
    [detectionTime >= startOfDay(from)] when [from] is present and
    [detectionTime < addDays(startOfDay(to), 1)] when [to] is present; a row
    passes when its detection time is within these bounds, and for
    [from = to = D] exactly when its detection time falls in the local day
    of [D]. *)
Theorem date_range_covers_whole_days (tz : Z) (from to : option Z) (D : Z) (r : QueryRow) :
  parseFiltersToDrizzle tz
    [{| filter_id := "date"; filter_value := ApiDateRange from to |}]
  = match
      match from with
      | Some f => [SqlGte ColDetectionTime (PDate (startOfDay tz f))]
      | None => []
      end ++
      match to with
      | Some t => [SqlLt ColDetectionTime (PDate (startOfDay tz t + ms_per_day))]
      | None => []
      end
    with
    | [] => None
    | l => Some (SqlAnd [SqlAnd l])
    end
  /\ (matches
        (parseFiltersToDrizzle tz
           [{| filter_id := "date"; filter_value := ApiDateRange from to |}]) r = true
      <-> (from = None /\ to = None)
          \/ exists d, qr_detections r = Some d
               /\ (forall f, from = Some f -> startOfDay tz f <= det_detectionTime d)
               /\ (forall t, to = Some t ->
                   det_detectionTime d < startOfDay tz t + ms_per_day))
  /\ (matches
        (parseFiltersToDrizzle tz
           [{| filter_id := "date"; filter_value := ApiDateRange (Some D) (Some D) |}]) r
      = true
      <-> exists d, qr_detections r = Some d
            /\ startOfDay tz (det_detectionTime d) = startOfDay tz D).
Proof.
  assert (Hparse : forall from to,
    parseFiltersToDrizzle tz
      [{| filter_id := "date"; filter_value := ApiDateRange from to |}]
    = match
        match from with
        | Some f => [SqlGte ColDetectionTime (PDate (startOfDay tz f))]
        | None => []
        end ++
        match to with
        | Some t => [SqlLt ColDetectionTime (PDate (startOfDay tz t + ms_per_day))]
        | None => []
        end
      with
      | [] => None
      | l => Some (SqlAnd [SqlAnd l])
      end).
  { intros from' to'. rewrite parseFiltersToDrizzle_conditions. cbn [flat_map].
    rewrite conditions_of_date, date_case_range. unfold addDays.
    rewrite Z.mul_1_l.
    destruct from', to'; reflexivity. }
  assert (Hsem : forall from to,
    matches
      (parseFiltersToDrizzle tz
         [{| filter_id := "date"; filter_value := ApiDateRange from to |}]) r = true
    <-> (from = None /\ to = None)
        \/ exists d, qr_detections r = Some d
             /\ (forall f, from = Some f -> startOfDay tz f <= det_detectionTime d)
             /\ (forall t, to = Some t ->
                 det_detectionTime d < startOfDay tz t + ms_per_day)).
  { intros from' to'. rewrite Hparse.
    destruct from' as [f|], to' as [t|]; cbn [app].
    - change (Some (SqlAnd [SqlAnd [?a; ?b]])) with (drizzle_and [SqlAnd [a; b]]).
      rewrite matches_and.
      rewrite Forall_cons, Forall_nil.
      rewrite eval_and_cons, and3_true, eval_single_and, eval_gte_time, eval_lt_time.
      split.
      + intros [[(d & E & H1) (d' & E' & H2)] _]. right.
        rewrite E in E'. inversion E'; subst d'.
        exists d. split; [exact E|]. split; intros x Hx; inversion Hx; subst; lia.
      + intros [[H _]|(d & E & H1 & H2)]; [discriminate H|].
        split; [|exact I]. split; exists d; split; auto.
    - change (Some (SqlAnd [SqlAnd [?a]])) with (drizzle_and [SqlAnd [a]]).
      rewrite matches_and.
      rewrite Forall_cons, Forall_nil, eval_single_and, eval_gte_time.
      split.
      + intros [(d & E & H1) _]. right. exists d. split; [exact E|].
        split; intros x Hx; inversion Hx; subst; lia.
      + intros [[H _]|(d & E & H1 & H2)]; [discriminate H|].
        split; [|exact I]. exists d. split; auto.
    - change (Some (SqlAnd [SqlAnd [?a]])) with (drizzle_and [SqlAnd [a]]).
      rewrite matches_and.
      rewrite Forall_cons, Forall_nil, eval_single_and, eval_lt_time.
      split.
      + intros [(d & E & H1) _]. right. exists d. split; [exact E|].
        split; intros x Hx; inversion Hx; subst; lia.
      + intros [[_ H]|(d & E & H1 & H2)]; [discriminate H|].
        split; [|exact I]. exists d. split; auto.
    - cbn [matches]. split; [intros _; left; split; reflexivity | reflexivity]. }
  split; [apply Hparse|]. split; [apply Hsem|].
  rewrite Hsem. split.
  - intros [[H _]|(d & E & H1 & H2)]; [discriminate H|].
    exists d. split; [exact E|]. apply startOfDay_spec.
    split; [apply H1 | apply H2]; reflexivity.
  - intros (d & E & H). right. exists d. split; [exact E|].
    apply startOfDay_spec in H.
    split; intros x Hx; inversion Hx; subst; lia.
Qed.

(** ** Numeric ranges *)

Lemma processTime_is_no_real r x : column_value ColProcessTimeMs r <> DReal x.
Proof.
  cbn. destruct (qr_detections r) as [d|]; [|discriminate].
  destruct (det_processTimeMs d); discriminate.
Qed.

Lemma eval_gte_num q r :
  eval (SqlGte ColProcessTimeMs (PNum q)) r = Some true
  <-> exists x, column_value ColProcessTimeMs r = DNum x /\ (q <= x)%Q.
Proof.
  cbn [eval]. pose proof (processTime_is_no_real r) as Hreal.
  destruct (column_value ColProcessTimeMs r) as [| |x|x| | | |];
    try (exfalso; exact (Hreal x eq_refl)); cbn;
    try (split; [discriminate | intros (x' & E & _); discriminate E]).
  split.
  - intros H. exists x. split; [reflexivity|].
    apply Qle_alt. rewrite <- Qcompare_antisym.
    destruct (x ?= q)%Q; cbn in *; congruence.
  - intros (x' & E & Hle). inversion E; subst x'.
    pose proof (proj1 (Qle_alt _ _) Hle) as Hc.
    rewrite <- Qcompare_antisym in Hc.
    destruct (x ?= q)%Q; cbn in *; congruence.
Qed.

Lemma eval_lte_num q r :
  eval (SqlLte ColProcessTimeMs (PNum q)) r = Some true
  <-> exists x, column_value ColProcessTimeMs r = DNum x /\ (x <= q)%Q.
Proof.
  cbn [eval]. pose proof (processTime_is_no_real r) as Hreal.
  destruct (column_value ColProcessTimeMs r) as [| |x|x| | | |];
    try (exfalso; exact (Hreal x eq_refl)); cbn;
    try (split; [discriminate | intros (x' & E & _); discriminate E]).
  split.
  - intros H. exists x. split; [reflexivity|].
    apply Qle_alt. destruct (x ?= q)%Q; cbn in *; congruence.
  - intros (x' & E & Hle). inversion E; subst x'.
    pose proof (proj1 (Qle_alt _ _) Hle) as Hc.
    destruct (x ?= q)%Q; cbn in *; congruence.
Qed.

Lemma eval_gte_confidence q r :
  eval (SqlGte ColConfidenceDetection (PNum q)) r = Some true
  <-> (float4 q <= float4 (dpr_confidenceDetection (qr_detected_plate_results r)))%Q.
Proof.
  cbn [eval column_value compare_param test_comparison].
  generalize (float4 (dpr_confidenceDetection (qr_detected_plate_results r))).
  generalize (float4 q). intros b x. split.
  - intros H. apply Qle_alt. rewrite <- Qcompare_antisym.
    destruct (x ?= b)%Q; cbn in *; congruence.
  - intros Hle. pose proof (proj1 (Qle_alt _ _) Hle) as Hc.
    rewrite <- Qcompare_antisym in Hc.
    destruct (x ?= b)%Q; cbn in *; congruence.
Qed.

Lemma eval_lte_confidence q r :
  eval (SqlLte ColConfidenceDetection (PNum q)) r = Some true
  <-> (float4 (dpr_confidenceDetection (qr_detected_plate_results r)) <= float4 q)%Q.
Proof.
  cbn [eval column_value compare_param test_comparison].
  generalize (float4 (dpr_confidenceDetection (qr_detected_plate_results r))).
  generalize (float4 q). intros b x. split.
  - intros H. apply Qle_alt. destruct (x ?= b)%Q; cbn in *; congruence.
  - intros Hle. pose proof (proj1 (Qle_alt _ _) Hle) as Hc.
    destruct (x ?= b)%Q; cbn in *; congruence.
Qed.

Lemma processTime_value r x :
  column_value ColProcessTimeMs r = DNum x
  <-> exists d ms, qr_detections r = Some d /\ det_processTimeMs d = Some ms
                   /\ x = inject_Z ms.
Proof.
  cbn. destruct (qr_detections r) as [d|].
  - destruct (det_processTimeMs d) as [ms|] eqn:E.
    + split.
      * intros H. inversion H. exists d, ms. auto.
      * intros (d' & ms' & E1 & E2 & ->). inversion E1; subst d'.
        rewrite E in E2. inversion E2. reflexivity.
    + split; [discriminate|].
      intros (d' & ms' & E1 & E2 & _). inversion E1; subst d'. congruence.
  - split; [discriminate|]. intros (d' & ms' & E1 & _). discriminate E1.
Qed.

(** What a range filter compiles to: the bounds are [scale]d, and every spec
    contributes the conjunction of its own bounds. *)
Lemma range_case_value columnId column min max :
  range_case columnId column (range_value min max)
  = pushed
      (match min with
       | Some q =>
           [SqlGte column
              (PNum (if String.eqb columnId "confidence" then double (q / 100) else q))]
       | None => []
       end ++
       match max with
       | Some q =>
           [SqlLte column
              (PNum (if String.eqb columnId "confidence" then double (q / 100) else q))]
       | None => []
       end).
Proof. destruct min, max; reflexivity. Qed.

Lemma conditions_of_range tz min max :
  conditions_of_filter tz (confidence_filter min max)
  = pushed
      (match min with
       | Some q => [SqlGte ColConfidenceDetection (PNum (double (q / 100)))]
       | None => []
       end ++
       match max with
       | Some q => [SqlLte ColConfidenceDetection (PNum (double (q / 100)))]
       | None => []
       end)
  /\ conditions_of_filter tz (processTime_filter min max)
     = pushed
         (match min with
          | Some q => [SqlGte ColProcessTimeMs (PNum q)]
          | None => []
          end ++
          match max with
          | Some q => [SqlLte ColProcessTimeMs (PNum q)]
          | None => []
          end).
Proof.
  unfold confidence_filter, processTime_filter.
  rewrite conditions_of_confidence, conditions_of_processTime, !range_case_value.
  split; reflexivity.
Qed.

Lemma matches_range tz (filters : list (option Q * option Q)) r :
  (matches (parseFiltersToDrizzle tz
              (List.map (fun b => confidence_filter (fst b) (snd b)) filters)) r = true
   <-> Forall (fun b =>
         (forall q, fst b = Some q ->
            (float4 (double (q / 100))
             <= float4 (dpr_confidenceDetection (qr_detected_plate_results r)))%Q)
         /\ (forall q, snd b = Some q ->
            (float4 (dpr_confidenceDetection (qr_detected_plate_results r))
             <= float4 (double (q / 100)))%Q))
         filters)
  /\ (matches (parseFiltersToDrizzle tz
                 (List.map (fun b => processTime_filter (fst b) (snd b)) filters)) r = true
      <-> Forall (fun b =>
            (fst b = None /\ snd b = None)
            \/ exists d ms, qr_detections r = Some d /\ det_processTimeMs d = Some ms
                 /\ (forall q, fst b = Some q -> (q <= inject_Z ms)%Q)
                 /\ (forall q, snd b = Some q -> (inject_Z ms <= q)%Q))
            filters).
Proof.
  rewrite !matches_parse. split.
  - induction filters as [|[min max] filters IH]; cbn [List.map flat_map fst snd].
    + split; constructor.
    + rewrite Forall_app, Forall_cons, IH.
      rewrite (proj1 (conditions_of_range tz min max)), eval_group.
      apply and_iff_compat_r. cbn [fst snd].
      destruct min as [a|], max as [b|]; cbn [app];
        rewrite ?Forall_cons, ?Forall_nil, ?eval_gte_confidence,
          ?eval_lte_confidence.
      * split.
        -- intros [Hx [Hy _]].
           split; intros q Hq; inversion Hq; subst; assumption.
        -- intros [H1 H2]. split; [|split; [|exact I]]; auto.
      * split.
        -- intros [Hx _].
           split; intros q Hq; inversion Hq; subst; assumption.
        -- intros [H1 H2]. split; [|exact I]. auto.
      * split.
        -- intros [Hx _].
           split; intros q Hq; inversion Hq; subst; assumption.
        -- intros [H1 H2]. split; [|exact I]. auto.
      * split; [|constructor]. intros _. split; intros q Hq; discriminate Hq.
  - induction filters as [|[min max] filters IH]; cbn [List.map flat_map fst snd].
    + split; constructor.
    + rewrite Forall_app, Forall_cons, IH.
      rewrite (proj2 (conditions_of_range tz min max)), eval_group.
      apply and_iff_compat_r. cbn [fst snd].
      destruct min as [a|], max as [b|]; cbn [app];
        rewrite ?Forall_cons, ?Forall_nil, ?eval_gte_num, ?eval_lte_num.
      * split.
        -- intros [(x & Ex & Hx) [(y & Ey & Hy) _]].
           apply processTime_value in Ex, Ey.
           destruct Ex as (d & ms & E1 & E2 & ->).
           destruct Ey as (d' & ms' & E1' & E2' & ->).
           rewrite E1 in E1'. inversion E1'; subst d'.
           rewrite E2 in E2'. inversion E2'; subst ms'.
           right. exists d, ms. repeat split; try assumption;
             intros q Hq; inversion Hq; subst; assumption.
        -- intros [[H _]|(d & ms & E1 & E2 & H1 & H2)]; [discriminate H|].
           split; [|split; [|exact I]]; exists (inject_Z ms);
             (split; [apply processTime_value; eauto|]); auto.
      * split.
        -- intros [(x & Ex & Hx) _]. apply processTime_value in Ex.
           destruct Ex as (d & ms & E1 & E2 & ->).
           right. exists d, ms. repeat split; try assumption;
             intros q Hq; inversion Hq; subst; assumption.
        -- intros [[H _]|(d & ms & E1 & E2 & H1 & H2)]; [discriminate H|].
           split; [|exact I]. exists (inject_Z ms).
           split; [apply processTime_value; eauto|]. auto.
      * split.
        -- intros [(x & Ex & Hx) _]. apply processTime_value in Ex.
           destruct Ex as (d & ms & E1 & E2 & ->).
           right. exists d, ms. repeat split; try assumption;
             intros q Hq; inversion Hq; subst; assumption.
        -- intros [[_ H]|(d & ms & E1 & E2 & H1 & H2)]; [discriminate H|].
           split; [|exact I]. exists (inject_Z ms).
           split; [apply processTime_value; eauto|]. auto.
      * split; [|constructor]. intros _. left. split; reflexivity.
Qed.

(** The route merges the two bounds of a field into one spec. *)
Lemma range_filters_merged columnId min max :
  range_filters columnId min max []
  = match min, max with
    | None, None => []
    | _, _ => [{| filter_id := columnId; filter_value := range_value min max |}]
    end.
Proof.
  unfold range_filters, range_value.
  destruct min as [a|], max as [b|]; cbn [assign_bound]; try reflexivity.
  rewrite String.eqb_refl. reflexivity.
Qed.

Ltac range_facts tz l r H :=
  pose proof (matches_range tz l r) as H;
  cbn [List.map] in H;
  rewrite ?Forall_cons, ?Forall_nil in H;
  cbn [fst snd] in H.

Ltac use_bounds :=
  repeat match goal with
  | H : forall q : Q, Some ?x = Some q -> _ |- _ =>
      specialize (H x eq_refl)
  | H : forall q : Q, None = Some q -> _ |- _ => clear H
  | H : Some _ = Some _ |- _ => inversion H; subst; clear H
  | H : None = Some _ |- _ => discriminate H
  | H : Some _ = None |- _ => discriminate H
  | H : _ /\ _ |- _ => destruct H
  end.

(** C6: the bounds of a [confidence] or [processTime] filter are an optional
    minimum and an optional maximum.  Two specs with the same id, one holding
    the minimum and one the maximum, compile to a predicate that holds of
    the same rows as the predicate of one spec holding both, namely those
    whose value lies between the bounds, both included; a spec with one
    bound compiles to the one-sided condition.  The bounds of [confidence]
    are divided by 100 and compared with the stored confidence in the single
    precision of its column, so that [min = 50] keeps the rows whose stored
    confidence is at least 1/2; the bounds of [processTime] are compared as
    they are.  This is stated of the bounds the store can read, a [real]
    for the confidence and an [integer] for the processing time: the query
    of such bounds is one the store reads, and it fails on another. *)
Theorem numeric_range_filters (tz : Z) (min max lo hi : Q) (r : QueryRow) :
  float4_text (double (min / 100)) = true ->
  float4_text (double (max / 100)) = true ->
  integer_text lo = true ->
  integer_text hi = true ->
  let c := float4 (dpr_confidenceDetection (qr_detected_plate_results r)) in
  matches (parseFiltersToDrizzle tz
             [confidence_filter (Some min) None; confidence_filter None (Some max)]) r
  = matches (parseFiltersToDrizzle tz [confidence_filter (Some min) (Some max)]) r
  /\ (matches (parseFiltersToDrizzle tz [confidence_filter (Some min) (Some max)]) r
      = true
      <-> (float4 (double (min / 100)) <= c)%Q /\ (c <= float4 (double (max / 100)))%Q)
  /\ (matches (parseFiltersToDrizzle tz [confidence_filter (Some min) None]) r
      = true <-> (float4 (double (min / 100)) <= c)%Q)
  /\ (matches (parseFiltersToDrizzle tz [confidence_filter None (Some max)]) r
      = true <-> (c <= float4 (double (max / 100)))%Q)
  /\ (matches (parseFiltersToDrizzle tz [confidence_filter (Some 50%Q) None]) r
      = true <-> (1 # 2 <= c)%Q)
  /\ matches (parseFiltersToDrizzle tz
                [processTime_filter (Some lo) None; processTime_filter None (Some hi)]) r
     = matches (parseFiltersToDrizzle tz [processTime_filter (Some lo) (Some hi)]) r
  /\ (matches (parseFiltersToDrizzle tz [processTime_filter (Some lo) (Some hi)]) r
      = true
      <-> exists d ms, qr_detections r = Some d /\ det_processTimeMs d = Some ms
            /\ (lo <= inject_Z ms)%Q /\ (inject_Z ms <= hi)%Q)
  /\ (matches (parseFiltersToDrizzle tz [processTime_filter (Some lo) None]) r
      = true
      <-> exists d ms, qr_detections r = Some d /\ det_processTimeMs d = Some ms
            /\ (lo <= inject_Z ms)%Q)
  /\ (matches (parseFiltersToDrizzle tz [processTime_filter None (Some hi)]) r
      = true
      <-> exists d ms, qr_detections r = Some d /\ det_processTimeMs d = Some ms
            /\ (inject_Z ms <= hi)%Q)
  /\ readable_where
       (parseFiltersToDrizzle tz
          [confidence_filter (Some min) (Some max);
           processTime_filter (Some lo) (Some hi)]) = true
  /\ (forall bound,
        integer_text bound = false ->
        readable_where
          (parseFiltersToDrizzle tz [processTime_filter None (Some bound)])
        = false).
Proof.
  intros Rmin Rmax Rlo Rhi c.
  range_facts tz [(Some min, @None Q); (@None Q, Some max)] r Hsplit.
  range_facts tz [(Some min, Some max)] r Hboth.
  range_facts tz [(Some min, @None Q)] r Hmin.
  range_facts tz [(@None Q, Some max)] r Hmax.
  range_facts tz [(Some 50%Q, @None Q)] r Hfifty.
  range_facts tz [(Some lo, @None Q); (@None Q, Some hi)] r Hsplit'.
  range_facts tz [(Some lo, Some hi)] r Hboth'.
  range_facts tz [(Some lo, @None Q)] r Hmin'.
  range_facts tz [(@None Q, Some hi)] r Hmax'.
  fold c in Hsplit, Hboth, Hmin, Hmax, Hfifty.
  destruct Hsplit as [Cs _], Hboth as [Cb _], Hmin as [Cmin _],
    Hmax as [Cmax _], Hfifty as [Cf _].
  destruct Hsplit' as [_ Ts], Hboth' as [_ Tb], Hmin' as [_ Tmin],
    Hmax' as [_ Tmax].
  assert (Cboth : matches (parseFiltersToDrizzle tz [confidence_filter (Some min) (Some max)]) r
                  = true
                  <-> (float4 (double (min / 100)) <= c)%Q
                      /\ (c <= float4 (double (max / 100)))%Q).
  { rewrite Cb. split.
    - intros H. use_bounds. split; assumption.
    - intros [H1 H2]. split; [|exact I].
      split; intros q Hq; inversion Hq; subst; assumption. }
  assert (Tboth : matches (parseFiltersToDrizzle tz [processTime_filter (Some lo) (Some hi)]) r
                  = true <->
                  exists d ms, qr_detections r = Some d /\ det_processTimeMs d = Some ms
                    /\ (forall q, Some lo = Some q -> (q <= inject_Z ms)%Q)
                    /\ (forall q, Some hi = Some q -> (inject_Z ms <= q)%Q)).
  { rewrite Tb. split.
    - intros [[[H _]|H] _]; [discriminate H | exact H].
    - intros H. split; [right; exact H | exact I]. }
  split.
  { apply Bool.eq_iff_eq_true. rewrite Cs, Cboth. split.
    - intros H. use_bounds. split; assumption.
    - intros [H1 H2].
      split; [|split; [|exact I]]; split; intros q Hq; inversion Hq; subst;
        assumption. }
  split; [exact Cboth|]. split.
  { rewrite Cmin. split.
    - intros H. use_bounds. assumption.
    - intros H. split; [|exact I].
      split; intros q Hq; inversion Hq; subst; assumption. }
  split.
  { rewrite Cmax. split.
    - intros H. use_bounds. assumption.
    - intros H. split; [|exact I].
      split; intros q Hq; inversion Hq; subst; assumption. }
  split.
  { rewrite Cf.
    assert (E : (float4 (double (50 / 100)) == 1 # 2)%Q) by (vm_compute; reflexivity).
    split.
    - intros H. use_bounds. rewrite <- E. assumption.
    - intros H. split; [|exact I].
      split; intros q Hq; inversion Hq; subst. rewrite E. assumption. }
  split.
  { apply Bool.eq_iff_eq_true. rewrite Ts, Tboth. split.
    - intros [[[H _]|(d & ms & E1 & E2 & H1 & _)] [[[_ H']|(d' & ms' & E1' & E2' & _ & H2)] _]];
        try discriminate H; try discriminate H'.
      rewrite E1 in E1'. inversion E1'; subst d'.
      rewrite E2 in E2'. inversion E2'; subst ms'.
      exists d, ms. auto.
    - intros (d & ms & E1 & E2 & H1 & H2).
      split; [|split; [|exact I]]; right; exists d, ms;
        repeat split; try assumption; intros q Hq; discriminate Hq. }
  split.
  { rewrite Tboth. split.
    - intros (d & ms & E1 & E2 & H1 & H2). exists d, ms. auto.
    - intros (d & ms & E1 & E2 & H1 & H2). exists d, ms.
      repeat split; try assumption; intros q Hq; inversion Hq; subst; assumption. }
  split.
  { rewrite Tmin. split.
    - intros [[[H _]|(d & ms & E1 & E2 & H1 & H2)] _]; [discriminate H|].
      exists d, ms. auto.
    - intros (d & ms & E1 & E2 & H1). split; [right | exact I].
      exists d, ms. repeat split; try assumption; intros q Hq;
        inversion Hq; subst; assumption. }
  split.
  { rewrite Tmax. split.
    - intros [[[_ H]|(d & ms & E1 & E2 & H1 & H2)] _]; [discriminate H|].
      exists d, ms. auto.
    - intros (d & ms & E1 & E2 & H1). split; [right | exact I].
      exists d, ms. repeat split; try assumption; intros q Hq;
        inversion Hq; subst; assumption. }
  split.
  { unfold parseFiltersToDrizzle. cbn [flat_map].
    rewrite (proj1 (conditions_of_range tz (Some min) (Some max))).
    rewrite (proj2 (conditions_of_range tz (Some lo) (Some hi))).
    cbn [app pushed drizzle_and length].
    change (Z.of_nat 2 =? 0) with false.
    cbn [readable_where readable readable_param].
    rewrite Rmin, Rmax, Rlo, Rhi. reflexivity. }
  { intros bound Hbound. unfold parseFiltersToDrizzle. cbn [flat_map].
    rewrite (proj2 (conditions_of_range tz None (Some bound))).
    cbn [app pushed drizzle_and length].
    change (Z.of_nat 1 =? 0) with false.
    cbn [readable_where readable readable_param].
    rewrite Hbound. reflexivity. }
Qed.

Lemma numeric_range_witness :
  let r :=
    {| qr_detected_plate_results :=
         result_row 1 (detectedPlateData 1 ∅ (sample_detection "51A-12345"));
       qr_detections := None; qr_license_plates := None |} in
  let c := float4 (dpr_confidenceDetection (qr_detected_plate_results r)) in
  matches (parseFiltersToDrizzle 0
             [confidence_filter (Some 50%Q) None; confidence_filter None (Some 90%Q)]) r
  = matches (parseFiltersToDrizzle 0 [confidence_filter (Some 50%Q) (Some 90%Q)]) r
  /\ (matches (parseFiltersToDrizzle 0 [confidence_filter (Some 50%Q) (Some 90%Q)]) r
      = true
      <-> (float4 (double (50 / 100)) <= c)%Q /\ (c <= float4 (double (90 / 100)))%Q)
  /\ (matches (parseFiltersToDrizzle 0 [confidence_filter (Some 50%Q) None]) r
      = true <-> (float4 (double (50 / 100)) <= c)%Q)
  /\ (matches (parseFiltersToDrizzle 0 [confidence_filter None (Some 90%Q)]) r
      = true <-> (c <= float4 (double (90 / 100)))%Q)
  /\ (matches (parseFiltersToDrizzle 0 [confidence_filter (Some 50%Q) None]) r
      = true <-> (1 # 2 <= c)%Q)
  /\ matches (parseFiltersToDrizzle 0
                [processTime_filter (Some 100%Q) None;
                 processTime_filter None (Some 2000%Q)]) r
     = matches (parseFiltersToDrizzle 0
                  [processTime_filter (Some 100%Q) (Some 2000%Q)]) r
  /\ (matches (parseFiltersToDrizzle 0
                 [processTime_filter (Some 100%Q) (Some 2000%Q)]) r
      = true
      <-> exists d ms, qr_detections r = Some d /\ det_processTimeMs d = Some ms
            /\ (100 <= inject_Z ms)%Q /\ (inject_Z ms <= 2000)%Q)
  /\ (matches (parseFiltersToDrizzle 0 [processTime_filter (Some 100%Q) None]) r
      = true
      <-> exists d ms, qr_detections r = Some d /\ det_processTimeMs d = Some ms
            /\ (100 <= inject_Z ms)%Q)
  /\ (matches (parseFiltersToDrizzle 0 [processTime_filter None (Some 2000%Q)]) r
      = true
      <-> exists d ms, qr_detections r = Some d /\ det_processTimeMs d = Some ms
            /\ (inject_Z ms <= 2000)%Q)
  /\ readable_where
       (parseFiltersToDrizzle 0
          [confidence_filter (Some 50%Q) (Some 90%Q);
           processTime_filter (Some 100%Q) (Some 2000%Q)]) = true
  /\ (forall bound,
        integer_text bound = false ->
        readable_where
          (parseFiltersToDrizzle 0 [processTime_filter None (Some bound)])
        = false).
Proof.
  apply (numeric_range_filters 0 50 90 100 2000); vm_compute; reflexivity.
Defined.

(** The bound 3000000000 of a processing time is no [integer], nor is 12.5;
    the store fails on the query that holds one. *)
Lemma processTime_bound_out_of_range :
  integer_text 3000000000 = false
  /\ integer_text (25 # 2) = false
  /\ fetchDetectionHistory 0 {| pageIndex := 0; pageSize := 10 |} []
       [processTime_filter None (Some 3000000000%Q)] sample_store_after
     = Thrown "Failed to fetch detection history from database.".
Proof. vm_compute. repeat split; reflexivity. Qed.

(** A confidence of 0.9 is stored as the [real] nearest to it, and the bound
    90 is read as the same [real]: the row passes both [confidenceMin = 90]
    and [confidenceMax = 90]. *)
Lemma confidence_bound_in_single_precision :
  let r :=
    {| qr_detected_plate_results :=
         result_row 1 (detectedPlateData 1 ∅ (sample_detection "51A-12345"));
       qr_detections := None; qr_license_plates := None |} in
  float4 (9 # 10) = (7549747 # 8388608)%Q
  /\ matches (parseFiltersToDrizzle 0 [confidence_filter (Some 90%Q) (Some 90%Q)]) r
     = true.
Proof. vm_compute. split; reflexivity. Qed.

(** ** Running code against the store *)

Lemma bind_returned {A B : Type} (m : Db A) (k : A -> Db B) s s' b :
  bind m k s = (s', Returned b)
  <-> exists s1 a, m s = (s1, Returned a) /\ k a s1 = (s', Returned b).
Proof.
  unfold bind. destruct (m s) as [s1 [a|e]].
  - split; [eauto|]. intros (s2 & a' & E & H). inversion E; subst. exact H.
  - split; [discriminate|]. intros (s2 & a' & E & _). discriminate E.
Qed.

Lemma send_returned fault st s s' u :
  send fault st s = (s', Returned u) <-> fault st = false /\ s' = s.
Proof.
  unfold send. destruct (fault st); cbn; split.
  - discriminate.
  - intros [H _]. discriminate H.
  - intros H. inversion H. auto.
  - intros [_ ->]. destruct u. reflexivity.
Qed.

Lemma ret_returned {A : Type} (a b : A) s s' :
  ret a s = (s', Returned b) <-> a = b /\ s' = s.
Proof.
  unfold ret. split; [intros H; inversion H; auto | intros [-> ->]; reflexivity].
Qed.

(** ** Blank plate numbers *)

Lemma trim_start_empty s : trim_start s = "" <-> all_whitespace s = true.
Proof.
  unfold all_whitespace. induction s as [|c s IH]; cbn; [tauto|].
  destruct (is_whitespace c); cbn; [exact IH|].
  split; discriminate.
Qed.

Lemma trim_end_empty s : trim_end s = "" <-> all_whitespace s = true.
Proof.
  unfold all_whitespace. induction s as [|c s IH]; cbn; [tauto|].
  destruct (trim_end s) as [|d t].
  - destruct (is_whitespace c); cbn; [tauto|]. split; discriminate.
  - rewrite andb_true_iff, <- IH. split; [discriminate|]. intros [_ H].
    discriminate H.
Qed.

Lemma trim_start_whitespace s :
  all_whitespace (trim_start s) = all_whitespace s.
Proof.
  unfold all_whitespace. induction s as [|c s IH]; cbn; [reflexivity|].
  destruct (is_whitespace c) eqn:E; cbn; [exact IH|].
  rewrite E. reflexivity.
Qed.

Lemma trim_empty s : trim s = "" <-> all_whitespace s = true.
Proof. unfold trim. rewrite trim_end_empty, trim_start_whitespace. tauto. Qed.

(** The plate numbers kept for [license_plates] are those with a character
    that is not white space. *)
Lemma keeps_plate_number_spec pn :
  keeps_plate_number pn = true <-> all_whitespace pn = false.
Proof.
  unfold keeps_plate_number, truthy_string.
  rewrite andb_true_iff, !negb_true_iff.
  split.
  - intros [_ H]. destruct (all_whitespace pn) eqn:E; [|reflexivity].
    apply trim_empty in E. rewrite E in H. discriminate H.
  - intros H. split.
    + destruct (String.eqb_spec pn "") as [->|]; [discriminate H|reflexivity].
    + destruct (String.eqb_spec (trim pn) "") as [E|]; [|reflexivity].
      apply trim_empty in E. congruence.
Qed.

(** ** Distinct plate numbers *)

Lemma unique_strings_from_In seen l x :
  In x (unique_strings_from seen l) <-> In x l /\ ~ In x seen.
Proof.
  revert seen. induction l as [|y l IH]; intros seen; cbn.
  - tauto.
  - destruct (string_includes seen y) eqn:E.
    + rewrite IH. apply string_includes_In in E. split.
      * intros [H1 H2]. auto.
      * intros [[->|H1] H2]; [contradiction|auto].
    + cbn. rewrite IH. cbn.
      assert (~ In y seen).
      { intros H. apply string_includes_In in H. congruence. }
      split.
      * intros [->|[H1 H2]]; auto.
      * intros [[->|H1] H2]; [auto|].
        destruct (String.eqb_spec y x) as [->|Hne]; [auto|].
        right. split; [exact H1|]. intros [?|?]; contradiction.
Qed.

Lemma unique_strings_from_NoDup seen l : NoDup (unique_strings_from seen l).
Proof.
  revert seen. induction l as [|y l IH]; intros seen; cbn.
  - constructor.
  - destruct (string_includes seen y); [apply IH|].
    apply NoDup_cons_2; [|apply IH].
    rewrite list_elem_of_In, unique_strings_from_In. cbn. tauto.
Qed.

Lemma unique_strings_In l x : In x (unique_strings l) <-> In x l.
Proof. unfold unique_strings. rewrite unique_strings_from_In. cbn. tauto. Qed.

Lemma unique_strings_NoDup l : NoDup (unique_strings l).
Proof. apply unique_strings_from_NoDup. Qed.

(** ** The upsert of plate numbers *)

Lemma has_plate_In tbl pn :
  has_plate tbl pn = true <-> In pn (List.map lp_plateNumber tbl).
Proof.
  unfold has_plate. rewrite existsb_exists, in_map_iff. split.
  - intros (p & Hp & E). apply String.eqb_eq in E. eauto.
  - intros (p & E & Hp). exists p. split; [exact Hp|]. apply String.eqb_eq, E.
Qed.

Lemma has_plate_app tbl tbl' pn :
  has_plate (tbl ++ tbl') pn = has_plate tbl pn || has_plate tbl' pn.
Proof. unfold has_plate. apply existsb_app. Qed.

Lemma upsert_plates_spec pns :
  forall tbl seq,
    NoDup pns ->
    exists added,
      upsert_plates pns tbl seq = (tbl ++ added, seq + Z.of_nat (length pns))
      /\ List.map lp_plateNumber added
         = List.filter (fun pn => negb (has_plate tbl pn)) pns
      /\ Forall (fun p => seq < lp_id p <= seq + Z.of_nat (length pns)) added
      /\ NoDup (List.map lp_id added).
Proof.
  induction pns as [|pn pns IH]; intros tbl seq Hnd.
  - exists []. cbn. rewrite app_nil_r, Z.add_0_r.
    repeat split; constructor.
  - apply NoDup_cons in Hnd. destruct Hnd as [Hpn Hnd].
    rewrite list_elem_of_In in Hpn.
    cbn [upsert_plates List.filter].
    destruct (has_plate tbl pn) eqn:E; cbn [negb].
    + destruct (IH tbl (seq + 1) Hnd) as (added & -> & Hnames & Hids & Hnodup).
      exists added. repeat split; try assumption.
      * rewrite length_cons. f_equal. lia.
      * eapply Forall_impl; [exact Hids|]. cbn beta. intros p Hp.
        rewrite length_cons. lia.
    + destruct (IH (tbl ++ [{| lp_id := seq + 1; lp_plateNumber := pn |}])
                  (seq + 1) Hnd) as (added & -> & Hnames & Hids & Hnodup).
      exists ({| lp_id := seq + 1; lp_plateNumber := pn |} :: added).
      repeat split.
      * rewrite <- app_assoc, length_cons. cbn [app]. f_equal. lia.
      * cbn [List.map lp_plateNumber]. f_equal. rewrite Hnames.
        apply filter_ext_in. intros q Hq. rewrite has_plate_app.
        cbn [has_plate existsb lp_plateNumber]. rewrite orb_false_r.
        destruct (String.eqb_spec pn q) as [->|_]; [contradiction|].
        rewrite orb_false_r. reflexivity.
      * constructor.
        -- cbn [lp_id]. rewrite length_cons. lia.
        -- eapply Forall_impl; [exact Hids|]. cbn beta. intros p Hp.
           rewrite length_cons. lia.
      * cbn [List.map lp_id]. apply NoDup_cons_2; [|exact Hnodup].
        rewrite list_elem_of_In, in_map_iff. intros (p & Ep & Hp).
        rewrite Forall_forall in Hids.
        specialize (Hids p (proj2 (list_elem_of_In _ _) Hp)). cbn in Hids. lia.
Qed.

(** ** The transaction, when it commits *)

Lemma filter_nothing {A : Type} (l : list A) : List.filter (fun _ => false) l = [].
Proof. induction l; [reflexivity | assumption]. Qed.

Lemma ingestion_transaction_returned fault now response dets source url s s1 i :
  ingestion_transaction fault now response dets source url s = (s1, Returned i) ->
  let tbl :=
    fst (upsert_plates (uniquePlateNumbers dets) (license_plates s)
           (license_plates_id_seq s)) in
  let inserts := List.map (detectedPlateData i (records_after dets tbl)) dets in
  (fault InsertDetection = false
   /\ (uniquePlateNumbers dets <> [] ->
       fault UpsertLicensePlates = false /\ fault SelectLicensePlates = false)
   /\ (dets <> [] -> fault InsertDetectedPlateResults = false))
  /\ i = detections_id_seq s + 1
  /\ i <> 0
  /\ (dets <> [] -> forallb valid_result_insert inserts = true)
  /\ s1 = {| detections := detections s ++ [new_detection now response source url i];
             license_plates := tbl;
             detected_plate_results :=
               detected_plate_results s ++
               number_rows (detected_plate_results_id_seq s) inserts;
             detections_id_seq := i;
             license_plates_id_seq :=
               snd (upsert_plates (uniquePlateNumbers dets) (license_plates s)
                      (license_plates_id_seq s));
             detected_plate_results_id_seq :=
               detected_plate_results_id_seq s + Z.of_nat (length dets) |}.
Proof.
  unfold ingestion_transaction. intros H.
  apply bind_returned in H. destruct H as (s2 & ids & Hins & H).
  unfold insert_detection in Hins.
  apply bind_returned in Hins. destruct Hins as (s3 & [] & Hsend & Hins).
  apply send_returned in Hsend. destruct Hsend as [F1 ->].
  destruct (match ins_processTimeMs _ with Some n => in_int4 n | None => true end);
    [|discriminate Hins].
  inversion Hins; subst s2 ids; clear Hins.
  destruct (detections_id_seq s + 1 =? 0) eqn:Hzero; [discriminate H|].
  apply Z.eqb_neq in Hzero.
  apply bind_returned in H. destruct H as (s4 & records & Hrec & H).
  apply bind_returned in H. destruct H as (s5 & [] & Hres & H).
  apply ret_returned in H. destruct H as [<- ->].
  fold (uniquePlateNumbers dets) in Hrec.
  assert (Hplates :
    (uniquePlateNumbers dets <> [] ->
     fault UpsertLicensePlates = false /\ fault SelectLicensePlates = false)
    /\ s4 = {| detections :=
              detections s ++
              [new_detection now response source url (detections_id_seq s + 1)];
            license_plates :=
              fst (upsert_plates (uniquePlateNumbers dets) (license_plates s)
                     (license_plates_id_seq s));
            detected_plate_results := detected_plate_results s;
            detections_id_seq := detections_id_seq s + 1;
            license_plates_id_seq :=
              snd (upsert_plates (uniquePlateNumbers dets) (license_plates s)
                     (license_plates_id_seq s));
            detected_plate_results_id_seq := detected_plate_results_id_seq s |}
    /\ records
       = records_after dets
           (fst (upsert_plates (uniquePlateNumbers dets) (license_plates s)
                   (license_plates_id_seq s)))).
  { destruct (uniquePlateNumbers dets) as [|pn pns] eqn:Epns.
    - cbn [length Z.of_nat Z.ltb Z.compare] in Hrec.
      apply ret_returned in Hrec. destruct Hrec as [<- ->].
      cbn [upsert_plates fst snd]. split; [congruence|]. split; [reflexivity|].
      unfold records_after. rewrite Epns.
      rewrite (filter_ext _ (fun _ => false)) by reflexivity.
      rewrite filter_nothing. reflexivity.
    - cbn [length Z.of_nat Z.ltb Z.compare] in Hrec.
      apply bind_returned in Hrec. destruct Hrec as (s6 & [] & Hup & Hrec).
      apply bind_returned in Hrec. destruct Hrec as (s7 & fetched & Hsel & Hrec).
      apply ret_returned in Hrec. destruct Hrec as [<- ->].
      unfold insert_license_plates in Hup.
      apply bind_returned in Hup. destruct Hup as (s8 & [] & Hsend & Hup).
      apply send_returned in Hsend. destruct Hsend as [F2 ->].
      destruct (forallb (fits 20) (pn :: pns)); [|discriminate Hup].
      cbn [license_plates license_plates_id_seq] in Hup.
      destruct (upsert_plates (pn :: pns) (license_plates s) (license_plates_id_seq s))
        as [tbl seq] eqn:Eup.
      inversion Hup; subst s6; clear Hup.
      unfold select_license_plates in Hsel.
      apply bind_returned in Hsel. destruct Hsel as (s9 & [] & Hsend & Hsel).
      apply send_returned in Hsend. destruct Hsend as [F3 ->].
      inversion Hsel; subst s7 fetched; clear Hsel.
      cbn [fst snd license_plates]. split; [auto|]. split; [reflexivity|].
      unfold records_after. rewrite Epns. reflexivity. }
  destruct Hplates as (F23 & -> & ->).
  set (tbl := fst (upsert_plates (uniquePlateNumbers dets) (license_plates s)
                     (license_plates_id_seq s))) in *.
  cbn zeta.
  rewrite length_map in Hres.
  destruct dets as [|det dets].
  - cbn [length Z.of_nat Z.ltb Z.compare] in Hres.
    apply ret_returned in Hres. destruct Hres as [_ ->].
    split; [split; [exact F1|split; [exact F23|congruence]]|].
    split; [reflexivity|]. split; [exact Hzero|].
    split; [congruence|].
    cbn [List.map number_rows length Z.of_nat].
    rewrite app_nil_r, Z.add_0_r. reflexivity.
  - cbn [length Z.of_nat Z.ltb Z.compare] in Hres.
    unfold insert_detected_plate_results in Hres.
    apply bind_returned in Hres. destruct Hres as (s8 & [] & Hsend & Hres).
    apply send_returned in Hsend. destruct Hsend as [F4 ->].
    destruct (forallb valid_result_insert _) eqn:Hvalid; [|discriminate Hres].
    inversion Hres; subst s5; clear Hres.
    split; [split; [exact F1|split; [exact F23|intros _; exact F4]]|].
    split; [reflexivity|]. split; [exact Hzero|].
    split; [intros _; reflexivity|].
    cbn [detections license_plates detected_plate_results detections_id_seq
         license_plates_id_seq detected_plate_results_id_seq].
    rewrite !length_map. reflexivity.
Qed.

(** When the transaction throws, the tables hold what they held before. *)
Lemma db_transaction_thrown {A : Type} fault (body : Db A) s s1 e :
  db_transaction fault body s = (s1, Thrown e) ->
  detections s1 = detections s
  /\ license_plates s1 = license_plates s
  /\ detected_plate_results s1 = detected_plate_results s.
Proof.
  unfold db_transaction. destruct (body s) as [s2 [a|e']].
  - destruct (fault Commit); intros H; inversion H; subst.
    repeat split.
  - intros H. inversion H; subst. repeat split.
Qed.

(** A statement of the transaction on which the store fails makes the
    transaction throw. *)
Lemma faulty_statement_aborts fault now response dets source url s :
  dets <> [] ->
  fault InsertDetection = true
  \/ fault InsertDetectedPlateResults = true
  \/ fault Commit = true
  \/ (uniquePlateNumbers dets <> []
      /\ (fault UpsertLicensePlates = true \/ fault SelectLicensePlates = true)) ->
  exists s1 e,
    db_transaction fault
      (ingestion_transaction fault now response dets source url) s
    = (s1, Thrown e).
Proof.
  intros Hdets Hfault. unfold db_transaction.
  destruct (ingestion_transaction fault now response dets source url s)
    as [s1 [i|e]] eqn:E; [|eauto].
  destruct (fault Commit) eqn:Hcommit; [eauto|].
  apply ingestion_transaction_returned in E.
  destruct E as ((F1 & F23 & F4) & _).
  specialize (F4 Hdets).
  destruct Hfault as [H|[H|[H|[Hne [H|H]]]]]; try congruence;
    destruct (F23 Hne); congruence.
Qed.

(** C1: when the transaction of a response with at least one detection
    throws, whatever statement made it throw, the call throws the one error
    of the ingestion writer, which is not the [null] of an empty response,
    and the three tables hold what they held before the call. *)
Theorem failed_transaction_rolls_back
    (fault : statement -> bool) (now : Z) (response : ApiResponse)
    (dets : list BackendDetection) (source : detection_source)
    (originalImageUrl : string) (s s1 : Store) (e : string) :
  api_detections response = Some dets ->
  dets <> [] ->
  db_transaction fault
    (ingestion_transaction fault now response dets source originalImageUrl) s
  = (s1, Thrown e) ->
  insertDetectionAndResults fault now (Some response) source originalImageUrl s
  = (s1, Thrown "Failed to save detection result via query function.")
  /\ detections s1 = detections s
  /\ license_plates s1 = license_plates s
  /\ detected_plate_results s1 = detected_plate_results s
  /\ insertDetectionAndResults fault now (Some response) source originalImageUrl s
     <> (s1, Returned None).
Proof.
  intros Hdets Hne Htx.
  assert (E : insertDetectionAndResults fault now (Some response) source
                originalImageUrl s
              = (s1, Thrown "Failed to save detection result via query function.")).
  { unfold insertDetectionAndResults. rewrite Hdets.
    destruct dets as [|det dets]; [congruence|].
    unfold try_catch, bind. rewrite Htx. reflexivity. }
  destruct (db_transaction_thrown _ _ _ _ _ Htx) as (H1 & H2 & H3).
  rewrite E. repeat split; try assumption. discriminate.
Qed.

(** ** The plate-number lookup *)

Lemma records_fold_other (l : list LicensePlateRow) :
  forall (acc : gmap string Z) (k : string),
    ~ In k (List.map lp_plateNumber l) \/ k = "__proto__" ->
    fold_left (fun o p => JsObject.set o (lp_plateNumber p) (lp_id p)) l acc !! k
    = acc !! k.
Proof.
  induction l as [|p l IH]; intros acc k Hk; cbn [fold_left]; [reflexivity|].
  rewrite IH.
  - unfold JsObject.set.
    destruct (String.eqb_spec (lp_plateNumber p) "__proto__") as [E|E];
      [reflexivity|].
    apply lookup_insert_ne. intros Ek.
    destruct Hk as [Hk|Hk]; [|congruence]. apply Hk. left. exact Ek.
  - destruct Hk as [Hk|Hk]; [left|right; exact Hk].
    intros H. apply Hk. right. exact H.
Qed.

Lemma records_fold_in (l : list LicensePlateRow) :
  NoDup (List.map lp_plateNumber l) ->
  forall (acc : gmap string Z) (p : LicensePlateRow),
    In p l -> lp_plateNumber p <> "__proto__" ->
    fold_left (fun o p => JsObject.set o (lp_plateNumber p) (lp_id p)) l acc
      !! lp_plateNumber p
    = Some (lp_id p).
Proof.
  induction l as [|x l IH]; intros Hnd acc p Hp Hproto; [destruct Hp|].
  cbn [List.map] in Hnd. apply NoDup_cons in Hnd. destruct Hnd as [Hx Hnd].
  rewrite list_elem_of_In in Hx.
  cbn [fold_left]. destruct Hp as [->|Hp].
  - rewrite records_fold_other by (left; exact Hx).
    unfold JsObject.set.
    destruct (String.eqb_spec (lp_plateNumber p) "__proto__") as [E|E];
      [contradiction|].
    apply lookup_insert_eq.
  - apply IH; assumption.
Qed.

Lemma NoDup_map_filter {A B : Type} (f : A -> B) (q : A -> bool) (l : list A) :
  NoDup (List.map f l) -> NoDup (List.map f (List.filter q l)).
Proof.
  induction l as [|x l IH]; cbn; intros H; [constructor|].
  apply NoDup_cons in H. destruct H as [Hx H].
  destruct (q x); [|apply IH, H].
  cbn. apply NoDup_cons_2; [|apply IH, H].
  intros Hin. apply Hx. rewrite list_elem_of_In in *.
  apply in_map_iff in Hin. destruct Hin as (y & E & Hy).
  apply filter_In in Hy. apply in_map_iff. exists y. tauto.
Qed.

Lemma records_after_lookup dets tbl p :
  NoDup (List.map lp_plateNumber tbl) ->
  In p tbl ->
  In (lp_plateNumber p) (uniquePlateNumbers dets) ->
  lp_plateNumber p <> "__proto__" ->
  records_after dets tbl !! lp_plateNumber p = Some (lp_id p).
Proof.
  intros Hnd Hp Hin Hproto. unfold records_after, licensePlateRecords_of.
  apply records_fold_in.
  - apply NoDup_map_filter, Hnd.
  - apply filter_In. split; [exact Hp|]. apply string_includes_In, Hin.
  - exact Hproto.
Qed.

Lemma records_after_proto dets tbl : records_after dets tbl !! "__proto__" = None.
Proof.
  unfold records_after, licensePlateRecords_of.
  rewrite records_fold_other by (right; reflexivity). apply lookup_empty.
Qed.

Lemma inherited_proto : JsObject.inherited "__proto__" = true.
Proof. vm_compute. reflexivity. Qed.

Lemma kept_in_uniquePlateNumbers dets det :
  In det dets -> keeps_plate_number (plate_number det) = true ->
  In (plate_number det) (uniquePlateNumbers dets).
Proof.
  intros Hdet Hkeep. unfold uniquePlateNumbers, detectedPlateNumbers.
  apply unique_strings_In, filter_In. split; [|exact Hkeep].
  apply in_map, Hdet.
Qed.

Lemma uniquePlateNumbers_kept dets pn :
  In pn (uniquePlateNumbers dets) ->
  keeps_plate_number pn = true /\ exists det, In det dets /\ plate_number det = pn.
Proof.
  unfold uniquePlateNumbers, detectedPlateNumbers.
  rewrite unique_strings_In, filter_In, in_map_iff.
  intros [(det & E & Hdet) Hkeep]. eauto.
Qed.

(** The link written for a detection whose plate number is in the table. *)
Lemma link_of_present i dets tbl det p :
  NoDup (List.map lp_plateNumber tbl) ->
  In p tbl -> lp_id p <> 0 ->
  In det dets -> plate_number det = lp_plateNumber p ->
  keeps_plate_number (lp_plateNumber p) = true ->
  valid_result_insert (detectedPlateData i (records_after dets tbl) det) = true ->
  ins_licensePlateId (detectedPlateData i (records_after dets tbl) det)
  = LinkId (lp_id p).
Proof.
  intros Hnd Hp Hid Hdet Epn Hkeep Hvalid.
  unfold valid_result_insert in Hvalid.
  cbn [detectedPlateData ins_licensePlateId] in *.
  unfold licensePlateId_of in *. rewrite Epn in *.
  assert (Htruthy : truthy_string (lp_plateNumber p) = true).
  { unfold keeps_plate_number in Hkeep. apply andb_prop in Hkeep. tauto. }
  rewrite Htruthy in *. unfold JsObject.get in *.
  destruct (String.eqb_spec (lp_plateNumber p) "__proto__") as [E|E].
  - rewrite E in Hvalid. rewrite records_after_proto, inherited_proto in Hvalid.
    discriminate Hvalid.
  - rewrite records_after_lookup; try assumption.
    + destruct (Z.eqb_spec (lp_id p) 0); [contradiction|reflexivity].
    + rewrite <- Epn. apply kept_in_uniquePlateNumbers; [exact Hdet|].
      rewrite Epn. exact Hkeep.
Qed.

(** ** Rows written by a committed transaction *)

Lemma number_rows_length seq vs : length (number_rows seq vs) = length vs.
Proof.
  revert seq. induction vs as [|v vs IH]; intros seq; cbn; [reflexivity|].
  rewrite IH. reflexivity.
Qed.

Lemma number_rows_nth seq vs n v :
  nth_error vs n = Some v ->
  nth_error (number_rows seq vs) n = Some (result_row (seq + 1 + Z.of_nat n) v).
Proof.
  revert seq n. induction vs as [|x vs IH]; intros seq n H.
  - destruct n; discriminate H.
  - destruct n as [|n]; cbn in *.
    + inversion H; subst. rewrite Z.add_0_r. reflexivity.
    + rewrite (IH (seq + 1) n H). f_equal. f_equal. lia.
Qed.

Lemma number_rows_In seq vs r :
  In r (number_rows seq vs) -> exists k v, In v vs /\ r = result_row k v.
Proof.
  revert seq. induction vs as [|x vs IH]; intros seq H; cbn in H; [destruct H|].
  destruct H as [<-|H].
  - exists (seq + 1), x. split; [left|]; reflexivity.
  - destruct (IH _ H) as (k & v & Hv & ->). exists k, v. split; [right|]; auto.
Qed.

Lemma upsert_plates_ok dets tbl seq :
  0 <= seq ->
  NoDup (List.map lp_plateNumber tbl) ->
  NoDup (List.map lp_id tbl) ->
  Forall (fun p => 0 < lp_id p <= seq) tbl ->
  Forall (fun p => keeps_plate_number (lp_plateNumber p) = true) tbl ->
  exists added,
    upsert_plates (uniquePlateNumbers dets) tbl seq
    = (tbl ++ added, seq + Z.of_nat (length (uniquePlateNumbers dets)))
    /\ NoDup (List.map lp_plateNumber (tbl ++ added))
    /\ NoDup (List.map lp_id (tbl ++ added))
    /\ Forall (fun p => 0 < lp_id p
                        <= seq + Z.of_nat (length (uniquePlateNumbers dets)))
         (tbl ++ added)
    /\ Forall (fun p => keeps_plate_number (lp_plateNumber p) = true) (tbl ++ added)
    /\ (forall p, In p added ->
          ~ In (lp_plateNumber p) (List.map lp_plateNumber tbl)
          /\ exists det, In det dets /\ plate_number det = lp_plateNumber p).
Proof.
  intros Hseq Hnames Hids Hserial Hkept.
  destruct (upsert_plates_spec (uniquePlateNumbers dets) tbl seq)
    as (added & E & Eadded & Hnew & Hnewids).
  { apply unique_strings_NoDup. }
  assert (Hadded : forall p, In p added ->
            ~ In (lp_plateNumber p) (List.map lp_plateNumber tbl)
            /\ In (lp_plateNumber p) (uniquePlateNumbers dets)).
  { intros p Hp.
    assert (H : In (lp_plateNumber p) (List.map lp_plateNumber added))
      by (apply in_map, Hp).
    rewrite Eadded in H. apply filter_In in H. destruct H as [H1 H2].
    split; [|exact H1]. intros Hin. apply has_plate_In in Hin.
    rewrite Hin in H2. discriminate H2. }
  exists added. split; [exact E|].
  rewrite Forall_forall in Hserial, Hnew.
  split; [|split; [|split; [|split]]].
  - rewrite map_app. apply NoDup_app. split; [exact Hnames|]. split.
    + intros x Hx Hx'. rewrite list_elem_of_In in Hx, Hx'.
      apply in_map_iff in Hx'. destruct Hx' as (p & <- & Hp).
      apply (Hadded p Hp). exact Hx.
    + rewrite Eadded. apply NoDup_ListNoDup, List.NoDup_filter, NoDup_ListNoDup.
      apply unique_strings_NoDup.
  - rewrite map_app. apply NoDup_app. split; [exact Hids|]. split; [|exact Hnewids].
    intros x Hx Hx'. rewrite list_elem_of_In in Hx, Hx'.
    apply in_map_iff in Hx. destruct Hx as (p & <- & Hp).
    apply in_map_iff in Hx'. destruct Hx' as (q & Eq & Hq).
    apply list_elem_of_In in Hp, Hq.
    specialize (Hserial p Hp). specialize (Hnew q Hq). cbn in *. lia.
  - apply Forall_app. split; apply Forall_forall; intros p Hp.
    + specialize (Hserial p Hp). cbn in *. lia.
    + specialize (Hnew p Hp). cbn in *. lia.
  - apply Forall_app. split; [exact Hkept|]. apply Forall_forall. intros p Hp.
    apply list_elem_of_In in Hp.
    apply (uniquePlateNumbers_kept dets), Hadded, Hp.
  - intros p Hp. destruct (Hadded p Hp) as [H1 H2]. split; [exact H1|].
    apply uniquePlateNumbers_kept in H2. destruct H2 as [_ H2]. exact H2.
Qed.

Lemma insertDetectionAndResults_returned fault now response dets source url s s' res :
  api_detections response = Some dets ->
  dets <> [] ->
  insertDetectionAndResults fault now (Some response) source url s
  = (s', Returned res) ->
  exists i,
    ingestion_transaction fault now response dets source url s = (s', Returned i)
    /\ fault FindFirstDetection = false.
Proof.
  intros Hdets Hne H. unfold insertDetectionAndResults in H. rewrite Hdets in H.
  destruct dets as [|det dets]; [congruence|].
  unfold try_catch in H.
  destruct (bind _ _ s) as [s2 [a|e]] eqn:E; [|discriminate H].
  inversion H; subst s2 a; clear H.
  apply bind_returned in E. destruct E as (s3 & i & Htx & E).
  apply bind_returned in E. destruct E as (s4 & created & Hfind & E).
  apply ret_returned in E. destruct E as [<- ->].
  unfold find_first_detection in Hfind.
  apply bind_returned in Hfind. destruct Hfind as (s5 & [] & Hsend & Hfind).
  apply send_returned in Hsend. destruct Hsend as [F ->].
  inversion Hfind; subst s4; clear Hfind.
  unfold db_transaction in Htx.
  destruct (ingestion_transaction _ _ _ _ _ _ s) as [s6 [j|e]];
    [|discriminate Htx].
  destruct (fault Commit); [discriminate Htx|].
  inversion Htx; subst. eauto.
Qed.

(** C2: on a store that satisfies [store_ok], a call with [n >= 1]
    detections, whose strings fit their columns, that returns appends one
    row to [detections], whose id no
    earlier detection has, and [n] rows to [detected_plate_results], all
    pointing to it.  The rows appended to [license_plates] carry plate
    numbers of the response that the table did not hold, each once, so that
    [plateNumber] stays unique; a detection whose plate number the table
    held before the call gets the id of that row as [licensePlateId]. *)
Theorem ingestion_creates_rows
    (fault : statement -> bool) (now : Z) (response : ApiResponse)
    (dets : list BackendDetection) (source : detection_source)
    (originalImageUrl : string) (s s' : Store) (res : option DetectionSelect) :
  store_ok s ->
  api_detections response = Some dets ->
  dets <> [] ->
  Forall (fun det => fits_columns det = true) dets ->
  insertDetectionAndResults fault now (Some response) source originalImageUrl s
  = (s', Returned res) ->
  exists (i : Z) (added_plates : list LicensePlateRow)
         (added_results : list DetectedPlateResultRow),
    detections s'
    = detections s ++ [new_detection now response source originalImageUrl i]
    /\ ~ In i (List.map det_id (detections s))
    /\ detected_plate_results s' = detected_plate_results s ++ added_results
    /\ length added_results = length dets
    /\ Forall (fun r => dpr_detectionId r = i) added_results
    /\ license_plates s' = license_plates s ++ added_plates
    /\ NoDup (List.map lp_plateNumber added_plates)
    /\ NoDup (List.map lp_plateNumber (license_plates s'))
    /\ (forall p, In p added_plates ->
          ~ In (lp_plateNumber p) (List.map lp_plateNumber (license_plates s))
          /\ exists det, In det dets /\ plate_number det = lp_plateNumber p)
    /\ (forall n det p,
          nth_error dets n = Some det ->
          In p (license_plates s) ->
          lp_plateNumber p = plate_number det ->
          exists r, nth_error added_results n = Some r
                    /\ dpr_plateNumber r = plate_number det
                    /\ dpr_licensePlateId r = Some (lp_id p)).
Proof.
  intros Hok Hdets Hne _ H.
  destruct (insertDetectionAndResults_returned _ _ _ _ _ _ _ _ _ Hdets Hne H)
    as (i & Htx & _).
  apply ingestion_transaction_returned in Htx.
  destruct Htx as (_ & Ei & _ & Hvalid & Es').
  specialize (Hvalid Hne).
  destruct Hok as [Hnames Hids Hserial Hdids Hdserial Hkept [Hseq1 Hseq2]].
  destruct (upsert_plates_ok dets (license_plates s) (license_plates_id_seq s)
              Hseq2 Hnames Hids Hserial Hkept)
    as (added & Eup & Hnames' & Hids' & Hserial' & Hkept' & Hadded).
  rewrite Eup in Es', Hvalid. cbn [fst snd] in Es', Hvalid.
  exists i, added,
    (number_rows (detected_plate_results_id_seq s)
       (List.map (detectedPlateData i (records_after dets (license_plates s ++ added)))
          dets)).
  subst s'. cbn [detections license_plates detected_plate_results].
  split; [reflexivity|]. split.
  { rewrite in_map_iff. intros (d & Ed & Hd).
    rewrite Forall_forall in Hdserial.
    specialize (Hdserial d (proj2 (list_elem_of_In _ _) Hd)). cbn in Hdserial. lia. }
  split; [reflexivity|]. split.
  { rewrite number_rows_length, length_map. reflexivity. }
  split.
  { apply Forall_forall. intros r Hr. apply list_elem_of_In in Hr.
    apply number_rows_In in Hr. destruct Hr as (k & v & Hv & ->).
    apply in_map_iff in Hv. destruct Hv as (det & <- & _). reflexivity. }
  split; [reflexivity|]. split.
  { rewrite map_app in Hnames'. apply NoDup_app in Hnames'. tauto. }
  split; [exact Hnames'|]. split; [exact Hadded|].
  intros n det p Hn Hp Epn.
  eexists. split.
  { apply number_rows_nth. rewrite nth_error_map, Hn. reflexivity. }
  split; [reflexivity|].
  cbn [result_row dpr_licensePlateId].
  rewrite (link_of_present i dets (license_plates s ++ added) det p);
    try assumption; try reflexivity.
  - apply in_or_app. left. exact Hp.
  - rewrite Forall_forall in Hserial.
    specialize (Hserial p (proj2 (list_elem_of_In _ _) Hp)). cbn in Hserial. lia.
  - eapply nth_error_In, Hn.
  - symmetry. exact Epn.
  - rewrite Forall_forall in Hkept.
    apply (Hkept p), list_elem_of_In, Hp.
  - rewrite forallb_forall in Hvalid. apply Hvalid.
    apply in_map. eapply nth_error_In, Hn.
Qed.

(** ** The invariant of the store *)

Lemma store_ok_empty : store_ok empty_store.
Proof.
  split; cbn; try constructor; lia.
Qed.

Lemma seq_le_refl s : seq_le s s.
Proof. unfold seq_le. lia. Qed.

Lemma seq_le_trans s1 s2 s3 : seq_le s1 s2 -> seq_le s2 s3 -> seq_le s1 s3.
Proof. unfold seq_le. lia. Qed.

Lemma monotone_ret {A : Type} (a : A) : monotone (ret a).
Proof. intros s s' o H. inversion H. apply seq_le_refl. Qed.

Lemma monotone_throw {A : Type} (e : string) : monotone (@throw A e).
Proof. intros s s' o H. inversion H. apply seq_le_refl. Qed.

Lemma monotone_bind {A B : Type} (m : Db A) (k : A -> Db B) :
  monotone m -> (forall a, monotone (k a)) -> monotone (bind m k).
Proof.
  intros Hm Hk s s' o H. unfold bind in H.
  destruct (m s) as [s1 [a|e]] eqn:E.
  - eapply seq_le_trans; [eapply Hm, E | eapply Hk, H].
  - inversion H; subst. eapply Hm, E.
Qed.

Lemma monotone_send fault st : monotone (send fault st).
Proof.
  unfold send. destruct (fault st); [apply monotone_throw | apply monotone_ret].
Qed.

Lemma upsert_plates_seq pns :
  forall tbl seq,
    snd (upsert_plates pns tbl seq) = seq + Z.of_nat (length pns).
Proof.
  induction pns as [|pn pns IH]; intros tbl seq; cbn [upsert_plates].
  - cbn. lia.
  - rewrite length_cons. destruct (has_plate tbl pn); rewrite IH; lia.
Qed.

Lemma monotone_ingestion_transaction fault now response dets source url :
  monotone (ingestion_transaction fault now response dets source url).
Proof.
  unfold ingestion_transaction.
  apply monotone_bind.
  { unfold insert_detection. apply monotone_bind; [apply monotone_send|].
    intros _ s s' o H.
    destruct (match ins_processTimeMs _ with Some n => in_int4 n | None => true end);
      inversion H; subst; unfold seq_le; cbn; lia. }
  intros [|i ids]; [apply monotone_throw|].
  destruct (i =? 0); [apply monotone_throw|].
  apply monotone_bind.
  { destruct (0 <? _); [|apply monotone_ret].
    apply monotone_bind.
    - unfold insert_license_plates. apply monotone_bind; [apply monotone_send|].
      intros _ s s' o H.
      destruct (forallb (fits 20) _); [|inversion H; apply seq_le_refl].
      pose proof (upsert_plates_seq (unique_strings (detectedPlateNumbers dets))
                    (license_plates s) (license_plates_id_seq s)) as Hseq.
      destruct (upsert_plates _ _ _) as [tbl seq]. cbn [snd] in Hseq.
      inversion H; subst. unfold seq_le. cbn. lia.
    - intros _. apply monotone_bind.
      + unfold select_license_plates. apply monotone_bind; [apply monotone_send|].
        intros _ s s' o H. inversion H. apply seq_le_refl.
      + intros fetched. apply monotone_ret. }
  intros records. apply monotone_bind.
  { destruct (0 <? _); [|apply monotone_ret].
    unfold insert_detected_plate_results.
    apply monotone_bind; [apply monotone_send|].
    intros _ s s' o H.
    destruct (forallb valid_result_insert _); inversion H; subst;
      unfold seq_le; cbn; lia. }
  intros _. apply monotone_ret.
Qed.

Lemma store_ok_rollback s s1 : store_ok s -> seq_le s s1 -> store_ok (rollback s s1).
Proof.
  intros [Hnames Hids Hserial Hdids Hdserial Hkept [Hseq1 Hseq2]] [Hle1 Hle2].
  split; cbn; try assumption.
  - eapply Forall_impl; [exact Hserial|]. cbn. intros; lia.
  - eapply Forall_impl; [exact Hdserial|]. cbn. intros; lia.
  - lia.
Qed.

Lemma store_ok_committed fault now response dets source url s s1 i :
  store_ok s ->
  ingestion_transaction fault now response dets source url s = (s1, Returned i) ->
  store_ok s1.
Proof.
  intros Hok Htx.
  apply ingestion_transaction_returned in Htx.
  destruct Htx as (_ & Ei & _ & _ & ->).
  destruct Hok as [Hnames Hids Hserial Hdids Hdserial Hkept [Hseq1 Hseq2]].
  destruct (upsert_plates_ok dets (license_plates s) (license_plates_id_seq s)
              Hseq2 Hnames Hids Hserial Hkept)
    as (added & Eup & Hnames' & Hids' & Hserial' & Hkept' & _).
  rewrite Eup. cbn [fst snd].
  rewrite Forall_forall in Hdserial.
  split; cbn [detections license_plates detections_id_seq license_plates_id_seq];
    try assumption.
  - rewrite map_app. apply NoDup_app. split; [exact Hdids|]. split.
    + intros x Hx Hx'. rewrite list_elem_of_In in Hx.
      apply in_map_iff in Hx. destruct Hx as (d & <- & Hd).
      specialize (Hdserial d (proj2 (list_elem_of_In _ _) Hd)).
      cbn in Hx'. apply list_elem_of_singleton in Hx'. cbn in Hdserial. lia.
    + cbn. apply NoDup_singleton.
  - apply Forall_app. split.
    + apply Forall_forall. intros d Hd. specialize (Hdserial d Hd).
      cbn in Hdserial. lia.
    + constructor; [cbn; lia | constructor].
  - lia.
Qed.

(** Every call of the ingestion writer, whatever its outcome, keeps the
    invariant. *)
Lemma store_ok_preserved fault now apiResponse source url s s' o :
  store_ok s ->
  insertDetectionAndResults fault now apiResponse source url s = (s', o) ->
  store_ok s'.
Proof.
  intros Hok H. unfold insertDetectionAndResults in H.
  destruct apiResponse as [response|]; [|inversion H; subst; exact Hok].
  destruct (api_detections response) as [[|det dets]|];
    try (inversion H; subst; exact Hok).
  unfold try_catch, bind, db_transaction in H.
  destruct (ingestion_transaction fault now response (det :: dets) source url s)
    as [s1 [i|e]] eqn:Htx.
  - assert (Hs1 : store_ok s1) by (eapply store_ok_committed; eassumption).
    destruct (fault Commit).
    + cbn in H. inversion H; subst.
      apply store_ok_rollback; [exact Hok|].
      eapply monotone_ingestion_transaction, Htx.
    + unfold find_first_detection, bind, send in H.
      destruct (fault FindFirstDetection); cbn in H; inversion H; subst; exact Hs1.
  - cbn in H. inversion H; subst.
    apply store_ok_rollback; [exact Hok|].
    eapply monotone_ingestion_transaction, Htx.
Qed.

(** ** Ordering *)

Section Ordering.

Context {A : Type} (leb : A -> A -> bool).
Hypothesis leb_total : forall a b, leb a b = true \/ leb b a = true.

Lemma insert_by_Permutation x l : Permutation (insert_by leb x l) (x :: l).
Proof.
  induction l as [|y l IH]; cbn; [reflexivity|].
  destruct (leb x y); [reflexivity|].
  rewrite IH. apply perm_swap.
Qed.

Lemma sort_by_Permutation l : Permutation (sort_by leb l) l.
Proof.
  induction l as [|x l IH]; cbn; [reflexivity|].
  rewrite insert_by_Permutation. apply perm_skip, IH.
Qed.

Lemma insert_by_HdRel a x l :
  leb a x = true ->
  HdRel (fun u v => leb u v = true) a l ->
  HdRel (fun u v => leb u v = true) a (insert_by leb x l).
Proof.
  intros Hax Hal. destruct l as [|y l]; cbn.
  - constructor. exact Hax.
  - destruct (leb x y); constructor; [exact Hax|].
    inversion Hal; assumption.
Qed.

Lemma insert_by_Sorted x l :
  Sorted (fun u v => leb u v = true) l ->
  Sorted (fun u v => leb u v = true) (insert_by leb x l).
Proof.
  induction l as [|y l IH]; intros Hs; cbn.
  - repeat constructor.
  - destruct (leb x y) eqn:E.
    + constructor; [exact Hs|]. constructor. exact E.
    + inversion Hs; subst. constructor; [apply IH; assumption|].
      apply insert_by_HdRel; [|assumption].
      destruct (leb_total x y); congruence.
Qed.

Lemma sort_by_Sorted l : Sorted (fun u v => leb u v = true) (sort_by leb l).
Proof.
  induction l as [|x l IH]; cbn; [constructor|].
  apply insert_by_Sorted, IH.
Qed.

End Ordering.

Lemma sort_by_length {A : Type} (leb : A -> A -> bool) l :
  length (sort_by leb l) = length l.
Proof. apply Permutation_length, sort_by_Permutation. Qed.

Lemma nullable_leb_total {A : Type} (leb : A -> A -> bool) :
  (forall a b, leb a b = true \/ leb b a = true) ->
  forall a b, nullable_leb leb a b = true \/ nullable_leb leb b a = true.
Proof.
  intros H [a|] [b|]; cbn; auto.
Qed.

(** ** Distinct values of a column *)

Section Distinct.

Context {A : Type} `{EqDecision A} (leb : A -> A -> bool) (w : option A -> bool).
Hypothesis leb_total : forall a b, leb a b = true \/ leb b a = true.
Hypothesis w_not_null : forall v, w v = true -> v <> None.

Lemma selectDistinct_In col v :
  In v (selectDistinct leb w col) <-> In v col /\ w v = true.
Proof.
  unfold selectDistinct.
  rewrite <- !list_elem_of_In.
  rewrite (sort_by_Permutation _ _), elem_of_remove_dups.
  rewrite !list_elem_of_In. apply filter_In.
Qed.

Lemma non_null_In (l : list (option A)) x : In x (non_null l) <-> In (Some x) l.
Proof.
  induction l as [|[y|] l IH]; cbn; [tauto| |].
  - rewrite IH. split; intros [H|H]; auto; left; congruence.
  - rewrite IH. split; [auto|]. intros [H|H]; [discriminate H|exact H].
Qed.

Lemma non_null_NoDup (l : list (option A)) : NoDup l -> NoDup (non_null l).
Proof.
  induction l as [|[y|] l IH]; cbn; intros H; [constructor| |].
  - apply NoDup_cons in H. destruct H as [Hy H].
    apply NoDup_cons_2; [|apply IH, H].
    rewrite list_elem_of_In, non_null_In, <- list_elem_of_In. exact Hy.
  - apply NoDup_cons in H. apply IH, H.
Qed.

Lemma non_null_Sorted (l : list (option A)) :
  Forall (fun v => v <> None) l ->
  Sorted (fun u v => nullable_leb leb u v = true) l ->
  Sorted (fun u v => leb u v = true) (non_null l).
Proof.
  induction l as [|[y|] l IH]; cbn; intros Hall Hs; [constructor| |].
  - inversion Hall; subst. inversion Hs; subst.
    constructor; [apply IH; assumption|].
    destruct l as [|[z|] l]; cbn.
    + constructor.
    + constructor. inversion H4; subst. assumption.
    + inversion H2; subst. congruence.
  - inversion Hall; subst. congruence.
Qed.

(** The list the reader hands out for one column: the values present in
    the column and kept by [w], once each, in ascending order. *)
Lemma distinct_values col :
  NoDup (non_null (selectDistinct leb w col))
  /\ Sorted (fun u v => leb u v = true) (non_null (selectDistinct leb w col))
  /\ (forall x, In x (non_null (selectDistinct leb w col))
                <-> In (Some x) col /\ w (Some x) = true).
Proof.
  split; [|split].
  - apply non_null_NoDup. unfold selectDistinct.
    rewrite (sort_by_Permutation _ _). apply NoDup_remove_dups.
  - apply non_null_Sorted.
    + apply Forall_forall. intros v Hv. apply list_elem_of_In in Hv.
      apply selectDistinct_In in Hv. apply w_not_null, Hv.
    + apply sort_by_Sorted, nullable_leb_total, leb_total.
  - intros x. rewrite non_null_In. apply selectDistinct_In.
Qed.

End Distinct.

(** ** The options reader *)

Lemma Sorted_impl {A : Type} (R R' : A -> A -> Prop) l :
  (forall a b, R a b -> R' a b) -> Sorted R l -> Sorted R' l.
Proof.
  intros H. induction 1 as [|a l Hs IH Hhd]; constructor; [exact IH|].
  destruct Hhd; constructor. auto.
Qed.

Lemma vehicle_label_inj a b : vehicle_label a = vehicle_label b -> a = b.
Proof. destruct a, b; cbn; intros H; try reflexivity; discriminate H. Qed.

Lemma source_label_inj a b : source_label a = source_label b -> a = b.
Proof. destruct a, b; cbn; intros H; try reflexivity; discriminate H. Qed.

Lemma NoDup_map_inj {A B : Type} (f : A -> B) l :
  (forall a b, f a = f b -> a = b) -> NoDup l -> NoDup (List.map f l).
Proof.
  intros Hinj. induction 1 as [|x l Hx Hl IH]; cbn; [constructor|].
  apply NoDup_cons_2; [|exact IH].
  rewrite list_elem_of_In, in_map_iff. intros (y & E & Hy).
  apply Hinj in E. subst y. apply Hx, list_elem_of_In, Hy.
Qed.

Lemma vehicle_leb_total a b : vehicle_leb a b = true \/ vehicle_leb b a = true.
Proof. unfold vehicle_leb. rewrite !Z.leb_le. lia. Qed.

Lemma source_leb_total a b : source_leb a b = true \/ source_leb b a = true.
Proof. unfold source_leb. rewrite !Z.leb_le. lia. Qed.

Lemma is_not_null_spec {A : Type} (v : option A) : is_not_null v = true -> v <> None.
Proof. destruct v; [discriminate|discriminate]. Qed.

Lemma not_null_nor_empty_spec v : not_null_nor_empty v = true -> v <> None.
Proof. destruct v; [discriminate|discriminate]. Qed.

(** C9: [getFilterOptions] returns three lists.  [ocrEngines] holds the
    non-empty strings found in [ocrEngineUsed], [vehicleTypes] the labels of
    the categories found in [typeVehicle], [sources] the labels of the
    sources found in [detections.source]: each value once, no null, no empty
    string, nothing that no row holds.  The engines come in ascending order;
    the vehicle types and the sources come in the order in which their
    enumerated type declares its values, which is not the ascending order
    of their labels. *)
Theorem filter_options_are_the_distinct_values (s : Store) :
  exists (o : FilterOptions) (vehicles : list vehicle_category)
         (srcs : list detection_source),
    getFilterOptions s = Returned o
    /\ NoDup (ocrEngines o)
    /\ Sorted (fun a b => String.leb a b = true) (ocrEngines o)
    /\ (forall e, In e (ocrEngines o)
          <-> e <> "" /\ exists r, In r (detected_plate_results s)
                                   /\ dpr_ocrEngineUsed r = Some e)
    /\ vehicleTypes o = List.map vehicle_label vehicles
    /\ NoDup (vehicleTypes o)
    /\ Sorted (fun a b => vehicle_rank a <= vehicle_rank b) vehicles
    /\ (forall v, In v vehicles
          <-> exists r, In r (detected_plate_results s) /\ dpr_typeVehicle r = Some v)
    /\ sources o = List.map source_label srcs
    /\ NoDup (sources o)
    /\ Sorted (fun a b => source_rank a <= source_rank b) srcs
    /\ (forall x, In x srcs
          <-> exists d, In d (detections s) /\ det_source d = Some x)
    /\ ~ In "" (ocrEngines o) /\ ~ In "" (vehicleTypes o) /\ ~ In "" (sources o).
Proof.
  destruct (distinct_values String.leb not_null_nor_empty String.leb_total
              not_null_nor_empty_spec
              (List.map dpr_ocrEngineUsed (detected_plate_results s)))
    as (He1 & He2 & He3).
  destruct (distinct_values vehicle_leb is_not_null vehicle_leb_total
              is_not_null_spec
              (List.map dpr_typeVehicle (detected_plate_results s)))
    as (Hv1 & Hv2 & Hv3).
  destruct (distinct_values source_leb is_not_null source_leb_total
              is_not_null_spec
              (List.map det_source (detections s)))
    as (Hs1 & Hs2 & Hs3).
  eexists _, _, _. split; [reflexivity|].
  cbn [ocrEngines vehicleTypes sources].
  assert (Hengines : forall e,
    In e (non_null (selectDistinct String.leb not_null_nor_empty
                      (List.map dpr_ocrEngineUsed (detected_plate_results s))))
    <-> e <> "" /\ exists r, In r (detected_plate_results s)
                             /\ dpr_ocrEngineUsed r = Some e).
  { intros e. rewrite He3, in_map_iff. cbn [not_null_nor_empty].
    rewrite negb_true_iff. split.
    - intros [(r & E & Hr) Hne]. split; [|eauto].
      intros ->. discriminate Hne.
    - intros [Hne (r & Hr & E)]. split; [eauto|].
      destruct (String.eqb_spec e ""); [contradiction|reflexivity]. }
  split; [exact He1|]. split; [exact He2|]. split; [exact Hengines|].
  split; [reflexivity|].
  split; [apply NoDup_map_inj; [apply vehicle_label_inj | exact Hv1]|].
  split.
  { eapply Sorted_impl; [|exact Hv2]. intros a b. unfold vehicle_leb.
    apply Z.leb_le. }
  split.
  { intros v. rewrite Hv3, in_map_iff. cbn [is_not_null]. split.
    - intros [(r & E & Hr) _]. eauto.
    - intros (r & Hr & E). split; [eauto|reflexivity]. }
  split; [reflexivity|].
  split; [apply NoDup_map_inj; [apply source_label_inj | exact Hs1]|].
  split.
  { eapply Sorted_impl; [|exact Hs2]. intros a b. unfold source_leb.
    apply Z.leb_le. }
  split.
  { intros x. rewrite Hs3, in_map_iff. cbn [is_not_null]. split.
    - intros [(d & E & Hd) _]. eauto.
    - intros (d & Hd & E). split; [eauto|reflexivity]. }
  split; [|split].
  - intros H. apply Hengines in H. destruct H as [H _]. apply H. reflexivity.
  - rewrite in_map_iff. intros (v & E & _). destruct v; discriminate E.
  - rewrite in_map_iff. intros (x & E & _). destruct x; discriminate E.
Qed.

(** C9, at the store after the two sample images: the options reader
    returns the sources in the order in which the type declares its values,
    [upload] before [api], which is not the ascending order of the strings
    it returns. *)
Lemma sources_are_not_sorted_ascending :
  exists o : FilterOptions,
    getFilterOptions sample_store_after = Returned o
    /\ sources o = ["upload"; "api"]
    /\ ~ Sorted (fun a b => String.leb a b = true) (sources o).
Proof.
  eexists. split; [vm_compute; reflexivity|]. split; [reflexivity|].
  intros H. inversion H as [|a l Hs Hhd]; subst.
  inversion Hhd as [|b l' Hle]; subst.
  vm_compute in Hle. discriminate Hle.
Qed.

(** ** The history reader *)

Lemma SQL_induction (P : SQL -> Prop) :
  (forall c pattern, P (SqlIlike c pattern)) ->
  (forall c v, P (SqlEq c v)) ->
  (forall c v, P (SqlGte c v)) ->
  (forall c v, P (SqlLte c v)) ->
  (forall c v, P (SqlLt c v)) ->
  (forall conds, Forall P conds -> P (SqlAnd conds)) ->
  forall c, P c.
Proof.
  intros H1 H2 H3 H4 H5 H6. fix IH 1.
  intros [c p|c v|c v|c v|c v|conds];
    [apply H1|apply H2|apply H3|apply H4|apply H5|].
  apply H6. induction conds as [|c conds IHconds]; constructor.
  - apply IH.
  - exact IHconds.
Qed.

(** A condition reads the result row and its detection, nothing else. *)
Lemma eval_ignores_license_plate c r d p p' :
  eval c {| qr_detected_plate_results := r; qr_detections := d;
            qr_license_plates := p |}
  = eval c {| qr_detected_plate_results := r; qr_detections := d;
              qr_license_plates := p' |}.
Proof.
  induction c as [col pat|col v|col v|col v|col v|conds IH] using SQL_induction;
    try (cbn [eval]; destruct col; reflexivity).
  induction IH as [|c conds Hc _ IHconds]; [reflexivity|].
  rewrite !eval_and_cons, Hc, IHconds. reflexivity.
Qed.

Lemma matches_ignores_license_plate w r d p p' :
  matches w {| qr_detected_plate_results := r; qr_detections := d;
               qr_license_plates := p |}
  = matches w {| qr_detected_plate_results := r; qr_detections := d;
                 qr_license_plates := p' |}.
Proof.
  destruct w as [c|]; [|reflexivity]. cbn [matches].
  rewrite (eval_ignores_license_plate c r d p p'). reflexivity.
Qed.

Lemma filter_by_key_at_most_one (l : list LicensePlateRow) (q : LicensePlateRow -> bool) :
  NoDup (List.map lp_id l) ->
  (forall a b, q a = true -> q b = true -> lp_id a = lp_id b) ->
  List.filter q l = [] \/ exists p, List.filter q l = [p].
Proof.
  intros Hnd Hq. induction l as [|x l IH]; cbn; [left; reflexivity|].
  cbn in Hnd. apply NoDup_cons in Hnd. destruct Hnd as [Hx Hnd].
  destruct (q x) eqn:Ex.
  - right. exists x. f_equal.
    destruct (List.filter q l) as [|y l'] eqn:E; [reflexivity|].
    exfalso. apply Hx. rewrite list_elem_of_In, in_map_iff.
    assert (Hy : In y (List.filter q l)) by (rewrite E; left; reflexivity).
    apply filter_In in Hy. destruct Hy as [Hy Hqy].
    exists y. split; [|exact Hy]. symmetry. apply Hq; assumption.
  - apply IH, Hnd.
Qed.

Lemma left_join_license_plates_one s x :
  NoDup (List.map lp_id (license_plates s)) ->
  exists p,
    left_join_license_plates s true x
    = [{| qr_detected_plate_results := fst x; qr_detections := snd x;
          qr_license_plates := p |}].
Proof.
  intros Hnd. unfold left_join_license_plates.
  destruct (filter_by_key_at_most_one (license_plates s) (links_to (fst x)) Hnd)
    as [E|(p & E)].
  - unfold links_to. intros a b Ha Hb.
    destruct (dpr_licensePlateId (fst x)); [|discriminate Ha].
    apply Z.eqb_eq in Ha, Hb. congruence.
  - rewrite E. eauto.
  - rewrite E. cbn. eauto.
Qed.

(** The join with [license_plates] neither adds nor removes a row that the
    filter keeps. *)
Lemma count_of_joined_rows s w :
  NoDup (List.map lp_id (license_plates s)) ->
  length (List.filter (matches w) (joined_rows s false))
  = length (List.filter (matches w) (joined_rows s true)).
Proof.
  intros Hnd. unfold joined_rows.
  induction (flat_map (left_join_detections s) (detected_plate_results s))
    as [|x l IH]; [reflexivity|].
  cbn [flat_map]. rewrite !List.filter_app, !length_app, IH. f_equal.
  destruct (left_join_license_plates_one s x Hnd) as (p & ->).
  cbn [left_join_license_plates List.filter].
  rewrite (matches_ignores_license_plate w (fst x) (snd x) p None).
  destruct (matches w _); reflexivity.
Qed.

Lemma compare_dbval_antisym a b :
  compare_dbval b a = CompOpp (compare_dbval a b).
Proof.
  destruct a as [|x|x|x|x|x|x|x], b as [|y|y|y|y|y|y|y]; cbn; try reflexivity.
  - apply String.compare_antisym.
  - symmetry. apply Qcompare_antisym.
  - symmetry. apply Qcompare_antisym.
  - destruct x, y; reflexivity.
  - apply Z.compare_antisym.
  - apply Z.compare_antisym.
  - apply Z.compare_antisym.
Qed.

Lemma compare_rows_antisym keys a b :
  compare_rows keys b a = CompOpp (compare_rows keys a b).
Proof.
  induction keys as [|[c descending] keys IH]; cbn [compare_rows]; [reflexivity|].
  rewrite (compare_dbval_antisym (column_value c a) (column_value c b)).
  destruct descending, (compare_dbval (column_value c a) (column_value c b));
    cbn; auto.
Qed.

Lemma rows_leb_total keys a b :
  rows_leb keys a b = true \/ rows_leb keys b a = true.
Proof.
  unfold rows_leb. rewrite (compare_rows_antisym keys a b).
  destruct (compare_rows keys a b); cbn; auto.
Qed.

Lemma Sorted_skipn {A : Type} (R : A -> A -> Prop) n l :
  Sorted R l -> Sorted R (skipn n l).
Proof.
  revert l. induction n as [|n IH]; intros l H; [exact H|].
  destruct l as [|x l]; [constructor|]. cbn. apply IH.
  inversion H; assumption.
Qed.

Lemma Sorted_firstn {A : Type} (R : A -> A -> Prop) n l :
  Sorted R l -> Sorted R (firstn n l).
Proof.
  revert l. induction n as [|n IH]; intros l H; [constructor|].
  destruct l as [|x l]; [constructor|]. cbn.
  inversion H as [|? ? Hs Hhd]; subst. constructor; [apply IH, Hs|].
  destruct n; [constructor|]. destruct l as [|y l]; [constructor|].
  cbn. constructor. inversion Hhd; assumption.
Qed.

Lemma Sorted_map {A B : Type} (R : B -> B -> Prop) (f : A -> B) l :
  Sorted (fun a b => R (f a) (f b)) l -> Sorted R (List.map f l).
Proof.
  induction 1 as [|x l Hs IH Hhd]; cbn; constructor; [exact IH|].
  destruct Hhd; cbn; constructor. assumption.
Qed.

Lemma unmapped_mappedRow q : unmapped (mappedRow q) = q.
Proof. destruct q; reflexivity. Qed.

(** The history reader throws when the store cannot read a parameter of
    the filter; otherwise, for a page index and a page size that are not
    negative, it returns the page and the total. *)
Lemma fetchDetectionHistory_value tz pagination sorting filters s :
  NoDup (List.map lp_id (license_plates s)) ->
  0 <= pageIndex pagination ->
  0 <= pageSize pagination ->
  fetchDetectionHistory tz pagination sorting filters s
  = if readable_where (parseFiltersToDrizzle tz filters)
    then
      Returned
        {| rows :=
             List.map mappedRow
               (firstn (Z.to_nat (pageSize pagination))
                  (skipn (Z.to_nat (pageIndex pagination * pageSize pagination))
                     (sort_by (rows_leb (order_keys (parseSortingToDrizzle sorting)))
                        (List.filter (matches (parseFiltersToDrizzle tz filters))
                           (joined_rows s true)))));
           totalRowCount :=
             Z.of_nat
               (length (List.filter (matches (parseFiltersToDrizzle tz filters))
                          (joined_rows s true))) |}
    else Thrown "Failed to fetch detection history from database.".
Proof.
  intros Hkey Hindex Hsize.
  assert (Hoffset : (pageIndex pagination * pageSize pagination <? 0) = false)
    by (apply Z.ltb_ge; nia).
  assert (Hlimit : (pageSize pagination <? 0) = false) by (apply Z.ltb_ge; lia).
  unfold fetchDetectionHistory, run_count, run_select.
  cbn [page_query count_query join_license_plates where_ orderBy limit offset].
  destruct (readable_where (parseFiltersToDrizzle tz filters)); cbn [negb];
    [|reflexivity].
  rewrite Hoffset, Hlimit.
  cbn [order_keys flat_map]. rewrite sort_by_length, (count_of_joined_rows s _ Hkey).
  destruct (Z.eqb_spec
              (Z.of_nat
                 (length (List.filter (matches (parseFiltersToDrizzle tz filters))
                            (joined_rows s true)))) 0) as [E|E];
    [rewrite E|]; reflexivity.
Qed.

Lemma fetchDetectionHistory_returned tz pagination sorting filters s res :
  NoDup (List.map lp_id (license_plates s)) ->
  0 <= pageIndex pagination ->
  0 <= pageSize pagination ->
  fetchDetectionHistory tz pagination sorting filters s = Returned res ->
  res
  = {| rows :=
         List.map mappedRow
           (firstn (Z.to_nat (pageSize pagination))
              (skipn (Z.to_nat (pageIndex pagination * pageSize pagination))
                 (sort_by (rows_leb (order_keys (parseSortingToDrizzle sorting)))
                    (List.filter (matches (parseFiltersToDrizzle tz filters))
                       (joined_rows s true)))));
       totalRowCount :=
         Z.of_nat
           (length (List.filter (matches (parseFiltersToDrizzle tz filters))
                      (joined_rows s true))) |}.
Proof.
  intros Hkey Hindex Hsize H.
  rewrite (fetchDetectionHistory_value tz pagination sorting filters s Hkey Hindex
             Hsize) in H.
  destruct (readable_where (parseFiltersToDrizzle tz filters));
    [|discriminate H].
  inversion H. reflexivity.
Qed.

Lemma fetchDetectionHistory_returns tz pagination sorting filters s :
  NoDup (List.map lp_id (license_plates s)) ->
  0 <= pageIndex pagination ->
  0 <= pageSize pagination ->
  readable_where (parseFiltersToDrizzle tz filters) = true ->
  fetchDetectionHistory tz pagination sorting filters s
  = Returned
      {| rows :=
           List.map mappedRow
             (firstn (Z.to_nat (pageSize pagination))
                (skipn (Z.to_nat (pageIndex pagination * pageSize pagination))
                   (sort_by (rows_leb (order_keys (parseSortingToDrizzle sorting)))
                      (List.filter (matches (parseFiltersToDrizzle tz filters))
                         (joined_rows s true)))));
         totalRowCount :=
           Z.of_nat
             (length (List.filter (matches (parseFiltersToDrizzle tz filters))
                        (joined_rows s true))) |}.
Proof.
  intros Hkey Hindex Hsize Hread.
  rewrite (fetchDetectionHistory_value tz pagination sorting filters s Hkey Hindex
             Hsize), Hread.
  reflexivity.
Qed.

(** C4: take a page index and a page size that are not negative and a store
    whose [license_plates] ids are a key.  The page query and the count
    query carry the same condition, the one [parseFiltersToDrizzle] compiles
    from the filters.  When [fetchDetectionHistory] returns, whatever the
    sorting and the filters, [rows] is the slice that starts at
    [pageIndex * pageSize] and has at most [pageSize] rows of the joined
    rows that satisfy the condition, put in an order that follows the
    compiled ordering, and [totalRowCount] is the number of the joined rows
    that satisfy the condition; so 25 such rows and a page size of 10 give
    10 rows at page 0 and 5 rows at page 2. *)
Theorem history_page_and_total
    (tz : Z) (pagination : ApiPaginationState) (sorting : ApiSortingState)
    (filters : ApiColumnFiltersState) (s : Store) (res : FetchHistoryResult) :
  NoDup (List.map lp_id (license_plates s)) ->
  0 <= pageIndex pagination ->
  0 <= pageSize pagination ->
  fetchDetectionHistory tz pagination sorting filters s = Returned res ->
  where_ (page_query tz pagination sorting filters) = parseFiltersToDrizzle tz filters
  /\ where_ (count_query tz filters) = parseFiltersToDrizzle tz filters
  /\ (exists ordered : list QueryRow,
        Permutation ordered
          (List.filter (matches (parseFiltersToDrizzle tz filters))
             (joined_rows s true))
        /\ Sorted
             (fun a b =>
                rows_leb (order_keys (parseSortingToDrizzle sorting)) a b = true)
             ordered
        /\ List.map unmapped (rows res)
           = firstn (Z.to_nat (pageSize pagination))
               (skipn (Z.to_nat (pageIndex pagination * pageSize pagination))
                  ordered))
  /\ totalRowCount res
     = Z.of_nat
         (length (List.filter (matches (parseFiltersToDrizzle tz filters))
                    (joined_rows s true)))
  /\ Z.of_nat (length (rows res))
     = Z.min (pageSize pagination)
         (Z.max 0 (totalRowCount res
                   - pageIndex pagination * pageSize pagination))
  /\ (pageSize pagination = 10 -> totalRowCount res = 25 ->
      (pageIndex pagination = 0 -> length (rows res) = 10%nat)
      /\ (pageIndex pagination = 2 -> length (rows res) = 5%nat)).
Proof.
  intros Hkey Hindex Hsize H.
  apply (fetchDetectionHistory_returned tz pagination sorting filters s res Hkey
           Hindex Hsize) in H.
  subst res. cbn [rows totalRowCount].
  set (matching := List.filter (matches (parseFiltersToDrizzle tz filters))
                     (joined_rows s true)).
  set (keys := order_keys (parseSortingToDrizzle sorting)).
  split; [reflexivity|]. split; [reflexivity|]. split.
  { exists (sort_by (rows_leb keys) matching).
    split; [apply sort_by_Permutation|].
    split; [apply sort_by_Sorted, rows_leb_total|].
    rewrite map_map. erewrite map_ext; [apply map_id|].
    intros q. apply unmapped_mappedRow. }
  split; [reflexivity|].
  assert (Hlen : Z.of_nat
            (length
               (List.map mappedRow
                  (firstn (Z.to_nat (pageSize pagination))
                     (skipn (Z.to_nat (pageIndex pagination * pageSize pagination))
                        (sort_by (rows_leb keys) matching)))))
          = Z.min (pageSize pagination)
              (Z.max 0 (Z.of_nat (length matching)
                        - pageIndex pagination * pageSize pagination))).
  { rewrite length_map, length_firstn, length_skipn, sort_by_length. nia. }
  split; [exact Hlen|].
  revert Hlen.
  match goal with |- context [length ?l] => generalize (length l) end.
  intros n Hlen Esize Etotal. rewrite Esize, Etotal in Hlen.
  split; intros Eindex; rewrite Eindex in Hlen; lia.
Qed.

(** ** The properties at the sample data *)

Lemma sample_store_ok : store_ok sample_store.
Proof.
  apply (store_ok_preserved no_fault 1000
           (Some (sample_response ["51A-12345"])) SrcUpload "a.jpg" empty_store
           sample_store
           (snd (insertDetectionAndResults no_fault 1000
                   (Some (sample_response ["51A-12345"])) SrcUpload "a.jpg"
                   empty_store))).
  - apply store_ok_empty.
  - vm_compute. reflexivity.
Qed.

Lemma failed_transaction_witness :
  insertDetectionAndResults fault_on_results 2000
    (Some (sample_response second_plates)) SrcApi "b.jpg" sample_store
  = (sample_store_rolled_back,
     Thrown "Failed to save detection result via query function.")
  /\ detections sample_store_rolled_back = detections sample_store
  /\ license_plates sample_store_rolled_back = license_plates sample_store
  /\ detected_plate_results sample_store_rolled_back
     = detected_plate_results sample_store
  /\ insertDetectionAndResults fault_on_results 2000
       (Some (sample_response second_plates)) SrcApi "b.jpg" sample_store
     <> (sample_store_rolled_back, Returned None).
Proof.
  apply (failed_transaction_rolls_back fault_on_results 2000
           (sample_response second_plates)
           (List.map sample_detection second_plates) SrcApi "b.jpg"
           sample_store sample_store_rolled_back "storage failure").
  - reflexivity.
  - discriminate.
  - vm_compute. reflexivity.
Defined.

(** Before the failure the transaction had written a detection and a plate. *)
Lemma midway_rows :
  length (detections sample_store_midway) = 2%nat
  /\ length (license_plates sample_store_midway) = 2%nat
  /\ length (detections sample_store) = 1%nat
  /\ length (license_plates sample_store) = 1%nat.
Proof. repeat split. Qed.

Lemma ingestion_creates_rows_witness :
  exists (i : Z) (added_plates : list LicensePlateRow)
         (added_results : list DetectedPlateResultRow),
    detections sample_store_after
    = detections sample_store
      ++ [new_detection 2000 (sample_response second_plates) SrcApi "b.jpg" i]
    /\ ~ In i (List.map det_id (detections sample_store))
    /\ detected_plate_results sample_store_after
       = detected_plate_results sample_store ++ added_results
    /\ length added_results = length (List.map sample_detection second_plates)
    /\ Forall (fun r => dpr_detectionId r = i) added_results
    /\ license_plates sample_store_after = license_plates sample_store ++ added_plates
    /\ NoDup (List.map lp_plateNumber added_plates)
    /\ NoDup (List.map lp_plateNumber (license_plates sample_store_after))
    /\ (forall p, In p added_plates ->
          ~ In (lp_plateNumber p)
              (List.map lp_plateNumber (license_plates sample_store))
          /\ exists det, In det (List.map sample_detection second_plates)
                         /\ plate_number det = lp_plateNumber p)
    /\ (forall n det p,
          nth_error (List.map sample_detection second_plates) n = Some det ->
          In p (license_plates sample_store) ->
          lp_plateNumber p = plate_number det ->
          exists r, nth_error added_results n = Some r
                    /\ dpr_plateNumber r = plate_number det
                    /\ dpr_licensePlateId r = Some (lp_id p)).
Proof.
  apply (ingestion_creates_rows no_fault 2000 (sample_response second_plates)
           (List.map sample_detection second_plates) SrcApi "b.jpg"
           sample_store sample_store_after sample_created).
  - apply sample_store_ok.
  - reflexivity.
  - discriminate.
  - repeat constructor.
  - vm_compute. reflexivity.
Defined.

Lemma history_page_witness :
  where_ (page_query 0 {| pageIndex := 0; pageSize := 10 |}
            [{| sort_id := "confidence"; sort_desc := true |}]
            [confidence_filter (Some 50%Q) None])
  = parseFiltersToDrizzle 0 [confidence_filter (Some 50%Q) None]
  /\ where_ (count_query 0 [confidence_filter (Some 50%Q) None])
     = parseFiltersToDrizzle 0 [confidence_filter (Some 50%Q) None]
  /\ (exists ordered : list QueryRow,
        Permutation ordered
          (List.filter
             (matches (parseFiltersToDrizzle 0 [confidence_filter (Some 50%Q) None]))
             (joined_rows sample_store_after true))
        /\ Sorted
             (fun a b =>
                rows_leb
                  (order_keys
                     (parseSortingToDrizzle
                        [{| sort_id := "confidence"; sort_desc := true |}]))
                  a b = true)
             ordered
        /\ List.map unmapped (rows sample_page)
           = firstn (Z.to_nat 10) (skipn (Z.to_nat (0 * 10)) ordered))
  /\ totalRowCount sample_page
     = Z.of_nat
         (length
            (List.filter
               (matches (parseFiltersToDrizzle 0 [confidence_filter (Some 50%Q) None]))
               (joined_rows sample_store_after true)))
  /\ Z.of_nat (length (rows sample_page))
     = Z.min 10 (Z.max 0 (totalRowCount sample_page - 0 * 10))
  /\ (10 = 10 -> totalRowCount sample_page = 25 ->
      (0 = 0 -> length (rows sample_page) = 10%nat)
      /\ (0 = 2 -> length (rows sample_page) = 5%nat)).
Proof.
  apply (history_page_and_total 0 {| pageIndex := 0; pageSize := 10 |}
           [{| sort_id := "confidence"; sort_desc := true |}]
           [confidence_filter (Some 50%Q) None] sample_store_after sample_page).
  - apply (bool_decide_unpack _). vm_compute. exact I.
  - cbn. lia.
  - cbn. lia.
  - vm_compute. reflexivity.
Defined.

(** The example of the history reader: 25 matching rows, pages of 10. *)
Lemma pages_of_25 :
  page_sizes (fetchDetectionHistory 0 {| pageIndex := 0; pageSize := 10 |} [] []
                store_of_25) = Some (10%nat, 25)
  /\ page_sizes (fetchDetectionHistory 0 {| pageIndex := 2; pageSize := 10 |} [] []
                   store_of_25) = Some (5%nat, 25)
  /\ page_sizes (fetchDetectionHistory 0 {| pageIndex := 3; pageSize := 10 |} [] []
                   store_of_25) = Some (0%nat, 25).
Proof. vm_compute. repeat split. Qed.

(** The options of the sample store; [upload] comes before [api], as in the
    declaration of [detection_source]. *)
Lemma sample_filter_options :
  getFilterOptions sample_store_after
  = Returned {| ocrEngines := ["easyocr"]; vehicleTypes := [];
                sources := ["upload"; "api"] |}.
Proof. vm_compute. reflexivity. Qed.

(** The read-back runs after the commit: when it fails the call throws the
    same error, and the rows of the call are in the store. *)
Lemma failed_read_back_keeps_rows :
  insertDetectionAndResults fault_on_read_back 2000
    (Some (sample_response second_plates)) SrcApi "b.jpg" sample_store
  = (sample_store_after,
     Thrown "Failed to save detection result via query function.").
Proof. vm_compute. reflexivity. Qed.

(** The same response ingested twice: two detections, one plate. *)
Lemma same_response_twice :
  length (detections sample_store_twice) = 2%nat
  /\ length (license_plates sample_store_twice) = 1%nat
  /\ length (detected_plate_results sample_store_twice) = 2%nat
  /\ List.map dpr_licensePlateId (detected_plate_results sample_store_twice)
     = [Some 1; Some 1].
Proof. repeat split. Qed.

(** * Further properties *)

(** ** Filters the compiler does not know *)

Lemma conditions_of_unknown tz columnId v :
  filterColumnMap !! columnId = None ->
  conditions_of_filter tz {| filter_id := columnId; filter_value := v |} = [].
Proof.
  intros H. unfold conditions_of_filter, JsObject.get. cbn [filter_id].
  rewrite H. destruct (JsObject.inherited columnId); reflexivity.
Qed.

Lemma filterColumnMap_no_constructor : filterColumnMap !! "constructor" = None.
Proof. vm_compute. reflexivity. Qed.

(** X1: a filter whose id is no key of [filterColumnMap] pushes no
    condition, also when the id is the name of a member of
    [Object.prototype]; the predicate compiled from a list that holds it is
    the predicate compiled without it. *)
Theorem unknown_filter_is_ignored
    (tz : Z) (columnId : string) (v : jsval)
    (before after : ApiColumnFiltersState) :
  filterColumnMap !! columnId = None ->
  conditions_of_filter tz {| filter_id := columnId; filter_value := v |} = []
  /\ parseFiltersToDrizzle tz
       (before ++ {| filter_id := columnId; filter_value := v |} :: after)
     = parseFiltersToDrizzle tz (before ++ after).
Proof.
  intros H. pose proof (conditions_of_unknown tz columnId v H) as Hnil.
  split; [exact Hnil|].
  rewrite !parseFiltersToDrizzle_conditions, !flat_map_app. cbn [flat_map].
  rewrite Hnil. reflexivity.
Qed.

Lemma unknown_filter_witness :
  conditions_of_filter 0 {| filter_id := "constructor"; filter_value := JStr "x" |} = []
  /\ parseFiltersToDrizzle 0
       ([] ++ {| filter_id := "constructor"; filter_value := JStr "x" |} :: [])
     = parseFiltersToDrizzle 0 ([] ++ []).
Proof.
  apply unknown_filter_is_ignored. apply filterColumnMap_no_constructor.
Defined.

(** ** Filters compose by conjunction *)

(** X2: the predicate compiled from two lists of filters put together holds
    of a row exactly when the predicates compiled from each list hold, and
    the order of the filters does not change the rows kept. *)
Theorem filters_compose_by_conjunction
    (tz : Z) (filters1 filters2 filters3 : ApiColumnFiltersState) (r : QueryRow) :
  matches (parseFiltersToDrizzle tz (filters1 ++ filters2)) r
  = matches (parseFiltersToDrizzle tz filters1) r
    && matches (parseFiltersToDrizzle tz filters2) r
  /\ (Permutation filters1 filters3 ->
      matches (parseFiltersToDrizzle tz filters1) r
      = matches (parseFiltersToDrizzle tz filters3) r).
Proof.
  split.
  - apply Bool.eq_iff_eq_true.
    rewrite andb_true_iff, !matches_parse, flat_map_app, Forall_app. tauto.
  - intros Hperm. apply Bool.eq_iff_eq_true. rewrite !matches_parse.
    assert (Hflat : Permutation (flat_map (conditions_of_filter tz) filters1)
                      (flat_map (conditions_of_filter tz) filters3)).
    { induction Hperm; cbn [flat_map].
      - reflexivity.
      - apply Permutation_app_head. assumption.
      - rewrite !app_assoc. apply Permutation_app_tail, Permutation_app_comm.
      - etransitivity; eassumption. }
    rewrite !Forall_forall. split; intros H c Hc; apply H.
    + rewrite Hflat. exact Hc.
    + rewrite <- Hflat. exact Hc.
Qed.

Lemma filters_compose_witness :
  matches (parseFiltersToDrizzle 0
             [confidence_filter (Some 50%Q) None; processTime_filter None (Some 3%Q)])
    {| qr_detected_plate_results :=
         result_row 1 (detectedPlateData 1 ∅ (sample_detection "51A-12345"));
       qr_detections := None; qr_license_plates := None |}
  = matches (parseFiltersToDrizzle 0
               [processTime_filter None (Some 3%Q); confidence_filter (Some 50%Q) None])
      {| qr_detected_plate_results :=
           result_row 1 (detectedPlateData 1 ∅ (sample_detection "51A-12345"));
         qr_detections := None; qr_license_plates := None |}.
Proof.
  apply (filters_compose_by_conjunction 0
           [confidence_filter (Some 50%Q) None; processTime_filter None (Some 3%Q)]
           []
           [processTime_filter None (Some 3%Q); confidence_filter (Some 50%Q) None]).
  apply perm_swap.
Defined.

(** ** The validity flag and the enumerated fields *)

Lemma filterColumnMap_isValidFormat :
  JsObject.get filterColumnMap "isValidFormat" = JsObject.Own ColIsValidFormat.
Proof. vm_compute. reflexivity. Qed.

Lemma conditions_of_isValidFormat tz v :
  conditions_of_filter tz {| filter_id := "isValidFormat"; filter_value := v |}
  = boolean_case ColIsValidFormat v.
Proof.
  unfold conditions_of_filter; cbn [filter_id filter_value].
  rewrite filterColumnMap_isValidFormat. reflexivity.
Qed.

Lemma matches_single tz f c r :
  conditions_of_filter tz f = [c] ->
  (matches (parseFiltersToDrizzle tz [f]) r = true <-> eval c r = Some true).
Proof.
  intros H. rewrite matches_parse. cbn [flat_map]. rewrite H, app_nil_r.
  rewrite Forall_cons, Forall_nil. tauto.
Qed.

(** X3: the [isValidFormat] filter with a boolean keeps exactly the rows
    whose flag is that boolean, so a row whose flag is null passes for
    neither value; a value that is no boolean pushes no condition. *)
Theorem validity_filter_is_exact (tz : Z) (b : bool) (v : jsval) (r : QueryRow) :
  (forall b', v <> JBool b') ->
  (matches (parseFiltersToDrizzle tz
              [{| filter_id := "isValidFormat"; filter_value := JBool b |}]) r = true
   <-> dpr_isValidFormat (qr_detected_plate_results r) = Some b)
  /\ conditions_of_filter tz {| filter_id := "isValidFormat"; filter_value := v |}
     = [].
Proof.
  intros Hv. split.
  - rewrite (matches_single tz _ (SqlEq ColIsValidFormat (PBool b)))
      by (rewrite conditions_of_isValidFormat; reflexivity).
    cbn [eval column_value].
    destruct (dpr_isValidFormat (qr_detected_plate_results r)) as [x|]; cbn.
    + destruct x, b; cbn; split; congruence.
    + split; discriminate.
  - rewrite conditions_of_isValidFormat. destruct v; try reflexivity.
    exfalso. eapply Hv. reflexivity.
Qed.

Lemma validity_filter_witness :
  (matches (parseFiltersToDrizzle 0
              [{| filter_id := "isValidFormat"; filter_value := JBool true |}])
     {| qr_detected_plate_results :=
          result_row 1 (detectedPlateData 1 ∅ (sample_detection "51A-12345"));
        qr_detections := None; qr_license_plates := None |} = true
   <-> dpr_isValidFormat
         (result_row 1 (detectedPlateData 1 ∅ (sample_detection "51A-12345")))
       = Some true)
  /\ conditions_of_filter 0
       {| filter_id := "isValidFormat"; filter_value := JStr "true" |} = [].
Proof.
  apply (validity_filter_is_exact 0 true (JStr "true")).
  intros b' H. discriminate H.
Defined.

Lemma vehicle_of_label_label c : vehicle_of_label (vehicle_label c) = Some c.
Proof. destruct c; reflexivity. Qed.

Lemma source_of_label_label x : source_of_label (source_label x) = Some x.
Proof. destruct x; reflexivity. Qed.

Lemma vehicle_rank_inj a b : (vehicle_rank a ?= vehicle_rank b) = Eq <-> a = b.
Proof. destruct a, b; cbn; split; congruence. Qed.

Lemma source_rank_inj a b : (source_rank a ?= source_rank b) = Eq <-> a = b.
Proof. destruct a, b; cbn; split; congruence. Qed.

Lemma conditions_of_vehicle_label tz c :
  conditions_of_filter tz
    {| filter_id := "typeVehicle"; filter_value := JStr (vehicle_label c) |}
  = [SqlEq ColTypeVehicle (PStr (vehicle_label c))].
Proof. rewrite conditions_of_typeVehicle. destruct c; reflexivity. Qed.

Lemma conditions_of_source_label tz x :
  conditions_of_filter tz
    {| filter_id := "source"; filter_value := JStr (source_label x) |}
  = [SqlEq ColSource (PStr (source_label x))].
Proof. rewrite conditions_of_source. destruct x; reflexivity. Qed.

Lemma conditions_of_engine tz e :
  e <> "" ->
  conditions_of_filter tz {| filter_id := "ocrEngine"; filter_value := JStr e |}
  = [SqlEq ColOcrEngineUsed (PStr e)].
Proof.
  intros He. rewrite conditions_of_ocrEngine. unfold enum_case.
  rewrite (nonempty_length e He). reflexivity.
Qed.

Lemma eval_eq_vehicle c r :
  eval (SqlEq ColTypeVehicle (PStr (vehicle_label c))) r = Some true
  <-> dpr_typeVehicle (qr_detected_plate_results r) = Some c.
Proof.
  cbn [eval column_value].
  destruct (dpr_typeVehicle (qr_detected_plate_results r)) as [x|];
    cbn [compare_param test_comparison].
  - rewrite vehicle_of_label_label. cbn [test_comparison].
    pose proof (vehicle_rank_inj x c) as H.
    destruct (vehicle_rank x ?= vehicle_rank c); split; intros E;
      try discriminate E; try reflexivity.
    + f_equal. apply H. reflexivity.
    + inversion E. apply H in H1. discriminate H1.
    + inversion E. apply H in H1. discriminate H1.
  - split; discriminate.
Qed.

Lemma eval_eq_source x r :
  eval (SqlEq ColSource (PStr (source_label x))) r = Some true
  <-> exists d, qr_detections r = Some d /\ det_source d = Some x.
Proof.
  cbn [eval column_value].
  destruct (qr_detections r) as [d|]; cbn [compare_param test_comparison].
  - destruct (det_source d) as [y|] eqn:Ey; cbn [compare_param test_comparison].
    + rewrite source_of_label_label. cbn [test_comparison].
      pose proof (source_rank_inj y x) as H.
      destruct (source_rank y ?= source_rank x); split; intros E;
        try discriminate E; try reflexivity.
      * exists d. split; [reflexivity|]. rewrite Ey. f_equal. apply H. reflexivity.
      * destruct E as (d' & E1 & E2). inversion E1; subst d'.
        rewrite Ey in E2. inversion E2. apply H in H1. discriminate H1.
      * destruct E as (d' & E1 & E2). inversion E1; subst d'.
        rewrite Ey in E2. inversion E2. apply H in H1. discriminate H1.
    + split; [discriminate|]. intros (d' & E1 & E2). inversion E1; subst d'.
      congruence.
  - split; [discriminate|]. intros (d' & E1 & _). discriminate E1.
Qed.

Lemma string_compare_refl e : String.compare e e = Eq.
Proof.
  pose proof (String.compare_antisym e e) as H.
  destruct (String.compare e e); cbn in H; congruence.
Qed.

Lemma eval_eq_engine e r :
  eval (SqlEq ColOcrEngineUsed (PStr e)) r = Some true
  <-> dpr_ocrEngineUsed (qr_detected_plate_results r) = Some e.
Proof.
  cbn [eval column_value].
  destruct (dpr_ocrEngineUsed (qr_detected_plate_results r)) as [x|];
    cbn [text_or_null compare_param test_comparison].
  - destruct (String.compare x e) eqn:E; split; intros H; try discriminate H;
      try reflexivity.
    + f_equal. apply String.compare_eq_iff, E.
    + inversion H; subst.
      rewrite string_compare_refl in E. discriminate E.
    + inversion H; subst.
      rewrite string_compare_refl in E. discriminate E.
  - split; discriminate.
Qed.

(** X4: a [typeVehicle] filter holding the label of a category keeps exactly
    the rows of that category, a [source] filter holding the label of a
    source exactly the rows whose detection has that source, and an
    [ocrEngine] filter holding a non-empty string exactly the rows whose
    engine is that string, letter case included. *)
Theorem enumerated_filters_match_exactly
    (tz : Z) (c : vehicle_category) (x : detection_source) (e : string)
    (r : QueryRow) :
  e <> "" ->
  (matches (parseFiltersToDrizzle tz
              [{| filter_id := "typeVehicle"; filter_value := JStr (vehicle_label c) |}])
     r = true
   <-> dpr_typeVehicle (qr_detected_plate_results r) = Some c)
  /\ (matches (parseFiltersToDrizzle tz
                 [{| filter_id := "source"; filter_value := JStr (source_label x) |}])
        r = true
      <-> exists d, qr_detections r = Some d /\ det_source d = Some x)
  /\ (matches (parseFiltersToDrizzle tz
                 [{| filter_id := "ocrEngine"; filter_value := JStr e |}]) r = true
      <-> dpr_ocrEngineUsed (qr_detected_plate_results r) = Some e).
Proof.
  intros He. split; [|split].
  - rewrite (matches_single tz _ _ r (conditions_of_vehicle_label tz c)).
    apply eval_eq_vehicle.
  - rewrite (matches_single tz _ _ r (conditions_of_source_label tz x)).
    apply eval_eq_source.
  - rewrite (matches_single tz _ _ r (conditions_of_engine tz e He)).
    apply eval_eq_engine.
Qed.

Lemma enumerated_filters_witness :
  (matches (parseFiltersToDrizzle 0
              [{| filter_id := "typeVehicle"; filter_value := JStr (vehicle_label VehCar) |}])
     {| qr_detected_plate_results :=
          result_row 1 (detectedPlateData 1 ∅ (sample_detection "51A-12345"));
        qr_detections := None; qr_license_plates := None |} = true
   <-> dpr_typeVehicle
         (result_row 1 (detectedPlateData 1 ∅ (sample_detection "51A-12345")))
       = Some VehCar)
  /\ (matches (parseFiltersToDrizzle 0
                 [{| filter_id := "source"; filter_value := JStr (source_label SrcApi) |}])
        {| qr_detected_plate_results :=
             result_row 1 (detectedPlateData 1 ∅ (sample_detection "51A-12345"));
           qr_detections := None; qr_license_plates := None |} = true
      <-> exists d, None = Some d /\ det_source d = Some SrcApi)
  /\ (matches (parseFiltersToDrizzle 0
                 [{| filter_id := "ocrEngine"; filter_value := JStr "easyocr" |}])
        {| qr_detected_plate_results :=
             result_row 1 (detectedPlateData 1 ∅ (sample_detection "51A-12345"));
           qr_detections := None; qr_license_plates := None |} = true
      <-> dpr_ocrEngineUsed
            (result_row 1 (detectedPlateData 1 ∅ (sample_detection "51A-12345")))
          = Some "easyocr").
Proof.
  apply (enumerated_filters_match_exactly 0 VehCar SrcApi "easyocr").
  discriminate.
Defined.

(** ** Text filters *)

Lemma append_nil_l s : "" +:+ s = s.
Proof. reflexivity. Qed.

Lemma append_cons c a b : String c a +:+ b = String c (a +:+ b).
Proof. reflexivity. Qed.

Lemma like_percent p s :
  like (String "%" p) s = true
  <-> exists before rest, s = before +:+ rest /\ like p rest = true.
Proof.
  cbn [like Ascii.eqb Bool.eqb].
  induction s as [|d s IH].
  - rewrite orb_false_r. split.
    + intros H. exists "", "". split; [reflexivity|exact H].
    + intros (before & rest & E & H).
      destruct before; [|discriminate E].
      rewrite append_nil_l in E. subst rest. exact H.
  - rewrite orb_true_iff, IH. split.
    + intros [H|(before & rest & E & H)].
      * exists "", (String d s). split; [reflexivity|exact H].
      * exists (String d before), rest.
        split; [rewrite append_cons; congruence|exact H].
    + intros (before & rest & E & H). destruct before as [|d' before].
      * rewrite append_nil_l in E. subst rest. left. exact H.
      * rewrite append_cons in E. inversion E; subst. right. eauto.
Qed.

Lemma append_nil_r s : s +:+ "" = s.
Proof.
  induction s as [|c s IH]; [reflexivity|]. rewrite append_cons, IH. reflexivity.
Qed.

Lemma like_anything s : like "%" s = true.
Proof. apply like_percent. exists s, "". rewrite append_nil_r. auto. Qed.

Lemma like_literal c p s :
  plain_char c = true ->
  (like (String c p) s = true
   <-> exists rest, s = String c rest /\ like p rest = true).
Proof.
  intros Hc. unfold plain_char in Hc.
  apply andb_prop in Hc. destruct Hc as [Hc H3].
  apply andb_prop in Hc. destruct Hc as [Hc H2].
  apply andb_prop in Hc. destruct Hc as [_ H1].
  apply negb_true_iff in H1, H2, H3.
  cbn [like]. rewrite H1, H2, H3. destruct s as [|d s].
  - split; [discriminate|]. intros (rest & E & _). discriminate E.
  - rewrite andb_true_iff, Ascii.eqb_eq. split.
    + intros [-> H]. eauto.
    + intros (rest & E & H). inversion E; subst. auto.
Qed.

Lemma like_prefix v s :
  plain v = true ->
  (like (v +:+ "%") s = true <-> exists after, s = v +:+ after).
Proof.
  revert s. induction v as [|c v IH]; intros s Hplain.
  - rewrite append_nil_l, like_anything. split; [|reflexivity].
    intros _. exists s. reflexivity.
  - unfold plain in Hplain. cbn [list_ascii_of_string forallb] in Hplain.
    apply andb_prop in Hplain. destruct Hplain as [Hc Hv].
    rewrite append_cons, (like_literal c _ s Hc). split.
    + intros (rest & -> & H). apply IH in H; [|exact Hv].
      destruct H as (after & ->). exists after. reflexivity.
    + intros (after & ->). rewrite append_cons. eexists. split; [reflexivity|].
      apply IH; [exact Hv|]. eauto.
Qed.

Lemma like_contains v s :
  plain v = true ->
  (like ("%" +:+ v +:+ "%") s = true <-> contains v s).
Proof.
  intros Hplain. rewrite append_cons, append_nil_l.
  rewrite like_percent. unfold contains. split.
  - intros (before & rest & -> & H). apply like_prefix in H; [|exact Hplain].
    destruct H as (after & ->). eauto.
  - intros (before & after & ->). exists before, (v +:+ after).
    split; [reflexivity|]. apply like_prefix; eauto.
Qed.

Lemma lowercase_append a b : lowercase (a +:+ b) = lowercase a +:+ lowercase b.
Proof.
  induction a as [|c a IH]; [reflexivity|].
  rewrite append_cons. cbn [lowercase]. rewrite append_cons, IH. reflexivity.
Qed.

Lemma plain_char_lower c : plain_char (lower_ascii c) = plain_char c.
Proof.
  destruct c as [[] [] [] [] [] [] [] []]; vm_compute; reflexivity.
Qed.

Lemma plain_lowercase v : plain (lowercase v) = plain v.
Proof.
  unfold plain. induction v as [|c v IH]; [reflexivity|].
  cbn [lowercase list_ascii_of_string forallb].
  rewrite plain_char_lower, IH. reflexivity.
Qed.

Lemma text_columns columnId col :
  In (columnId, col)
    [("plateNumber", ColPlateNumber); ("normalizedPlate", ColNormalizedPlate);
     ("provinceName", ColProvinceName)] ->
  forall tz v,
    conditions_of_filter tz {| filter_id := columnId; filter_value := v |}
    = string_case col v.
Proof.
  intros H tz v. unfold conditions_of_filter. cbn [filter_id filter_value].
  destruct H as [H|[H|[H|[]]]]; inversion H; subst.
  - replace (JsObject.get filterColumnMap "plateNumber")
      with (JsObject.Own ColPlateNumber) by (vm_compute; reflexivity).
    reflexivity.
  - replace (JsObject.get filterColumnMap "normalizedPlate")
      with (JsObject.Own ColNormalizedPlate) by (vm_compute; reflexivity).
    reflexivity.
  - replace (JsObject.get filterColumnMap "provinceName")
      with (JsObject.Own ColProvinceName) by (vm_compute; reflexivity).
    reflexivity.
Qed.

(** X5: a [plateNumber], [normalizedPlate] or [provinceName] filter holding
    a non-empty string of ASCII characters, none of them [%], [_] or the
    backslash, keeps exactly the rows whose column is not null and contains
    the string, letter case apart; the empty string pushes no condition. *)
Theorem text_filter_is_substring_match
    (tz : Z) (columnId : string) (col : column) (v : string) (r : QueryRow) :
  In (columnId, col)
    [("plateNumber", ColPlateNumber); ("normalizedPlate", ColNormalizedPlate);
     ("provinceName", ColProvinceName)] ->
  v <> "" ->
  plain v = true ->
  (matches (parseFiltersToDrizzle tz
              [{| filter_id := columnId; filter_value := JStr v |}]) r = true
   <-> exists text, column_value col r = DText text
                    /\ contains (lowercase v) (lowercase text))
  /\ conditions_of_filter tz {| filter_id := columnId; filter_value := JStr "" |}
     = [].
Proof.
  intros Hcol Hv Hplain. split.
  - rewrite (matches_single tz _ (SqlIlike col ("%" +:+ v +:+ "%"))).
    + cbn [eval]. destruct (column_value col r) as [|text| | | | | |];
        try (split; [discriminate | intros (txt & E & _); discriminate E]).
      rewrite !lowercase_append.
      change (lowercase "%") with "%".
      split.
      * intros H. inversion H as [H']. exists text. split; [reflexivity|].
        apply like_contains; [rewrite plain_lowercase; exact Hplain | exact H'].
      * intros (txt & E & H). inversion E; subst txt. f_equal.
        apply like_contains; [rewrite plain_lowercase; exact Hplain | exact H].
    + rewrite (text_columns columnId col Hcol). unfold string_case.
      rewrite (nonempty_length v Hv). reflexivity.
  - rewrite (text_columns columnId col Hcol). reflexivity.
Qed.

Lemma text_filter_witness :
  (matches (parseFiltersToDrizzle 0
              [{| filter_id := "plateNumber"; filter_value := JStr "a-123" |}])
     {| qr_detected_plate_results :=
          result_row 1 (detectedPlateData 1 ∅ (sample_detection "51A-12345"));
        qr_detections := None; qr_license_plates := None |} = true
   <-> exists text,
         column_value ColPlateNumber
           {| qr_detected_plate_results :=
                result_row 1 (detectedPlateData 1 ∅ (sample_detection "51A-12345"));
              qr_detections := None; qr_license_plates := None |} = DText text
         /\ contains (lowercase "a-123") (lowercase text))
  /\ conditions_of_filter 0 {| filter_id := "plateNumber"; filter_value := JStr "" |}
     = [].
Proof.
  apply (text_filter_is_substring_match 0 "plateNumber" ColPlateNumber "a-123").
  - left. reflexivity.
  - discriminate.
  - reflexivity.
Defined.

(** A backslash in the value escapes the [%] that the compiler puts after
    it: the filter then keeps the plates that end with [%], and not the
    plates that hold a backslash. *)
Lemma backslash_filter_is_an_escape :
  let row (pn : string) :=
    {| qr_detected_plate_results :=
         result_row 1 (detectedPlateData 1 ∅ (sample_detection pn));
       qr_detections := None; qr_license_plates := None |} in
  let filter := [{| filter_id := "plateNumber"; filter_value := JStr "\" |}] in
  matches (parseFiltersToDrizzle 0 filter) (row "50%") = true
  /\ matches (parseFiltersToDrizzle 0 filter) (row "A\B") = false.
Proof. vm_compute. split; reflexivity. Qed.

(** ** The order of the history *)

Lemma recent_first_of_leb a b :
  rows_leb [(ColDetectionTime, true)] (unmapped a) (unmapped b) = true ->
  recent_first a b.
Proof.
  unfold rows_leb, recent_first, unmapped.
  cbn [compare_rows column_value qr_detections].
  destruct (detection a) as [d1|], (detection b) as [d2|]; cbn; try tauto.
  - destruct (Z.compare_spec (det_detectionTime d1) (det_detectionTime d2));
      cbn; intros Hle; try discriminate Hle; lia.
  - discriminate.
Qed.

(** X6: when [fetchDetectionHistory] returns a page, its rows come in the
    compiled order, each row before the next one; without sort spec that
    order is the most recent detection first, rows without detection ahead
    of all.  A sort id that is a name inherited from [Object.prototype]
    gives no key to [order_keys] and orders nothing. *)
Theorem history_rows_are_ordered
    (tz : Z) (pagination : ApiPaginationState) (sorting : ApiSortingState)
    (filters : ApiColumnFiltersState) (s : Store) (res : FetchHistoryResult) :
  NoDup (List.map lp_id (license_plates s)) ->
  0 <= pageIndex pagination ->
  0 <= pageSize pagination ->
  fetchDetectionHistory tz pagination sorting filters s = Returned res ->
  Sorted
    (fun a b =>
       rows_leb (order_keys (parseSortingToDrizzle sorting)) (unmapped a) (unmapped b)
       = true)
    (rows res)
  /\ (sorting = [] -> Sorted recent_first (rows res)).
Proof.
  intros Hkey Hindex Hsize H.
  apply (fetchDetectionHistory_returned tz pagination sorting filters s res Hkey
           Hindex Hsize) in H.
  subst res. cbn [rows].
  assert (Hsorted :
    Sorted
      (fun a b =>
         rows_leb (order_keys (parseSortingToDrizzle sorting)) (unmapped a)
           (unmapped b) = true)
      (List.map mappedRow
         (firstn (Z.to_nat (pageSize pagination))
            (skipn (Z.to_nat (pageIndex pagination * pageSize pagination))
               (sort_by (rows_leb (order_keys (parseSortingToDrizzle sorting)))
                  (List.filter (matches (parseFiltersToDrizzle tz filters))
                     (joined_rows s true))))))).
  { apply Sorted_map, Sorted_firstn, Sorted_skipn.
    eapply Sorted_impl; [|apply sort_by_Sorted, rows_leb_total].
    intros [r1 d1 p1] [r2 d2 p2] H'. exact H'. }
  split; [exact Hsorted|].
  intros ->. eapply Sorted_impl; [|exact Hsorted].
  intros a b. apply recent_first_of_leb.
Qed.

Lemma history_order_witness :
  Sorted
    (fun a b =>
       rows_leb (order_keys (parseSortingToDrizzle [])) (unmapped a) (unmapped b)
       = true)
    (rows sample_history)
  /\ (([] : ApiSortingState) = [] -> Sorted recent_first (rows sample_history)).
Proof.
  apply (history_rows_are_ordered 0 {| pageIndex := 0; pageSize := 10 |} [] []
           sample_store_after sample_history).
  - apply (bool_decide_unpack _). vm_compute. exact I.
  - cbn. lia.
  - cbn. lia.
  - vm_compute. reflexivity.
Defined.

(** ** The rows of the history and the store *)

Lemma filter_nil_none {A : Type} (q : A -> bool) (l : list A) :
  List.filter q l = [] -> forall x, In x l -> q x = false.
Proof.
  intros E x Hx. destruct (q x) eqn:Eq; [|reflexivity].
  assert (H : In x (List.filter q l)) by (apply filter_In; split; assumption).
  rewrite E in H. destruct H.
Qed.

Lemma In_left_join_detections s r r' od :
  In (r', od) (left_join_detections s r) ->
  r' = r
  /\ match od with
     | Some d => In d (detections s) /\ det_id d = dpr_detectionId r
     | None => forall d, In d (detections s) -> det_id d <> dpr_detectionId r
     end.
Proof.
  unfold left_join_detections.
  destruct (List.filter (fun d => dpr_detectionId r =? det_id d) (detections s))
    as [|d0 ds] eqn:E.
  - intros [H|[]]. inversion H; subst. split; [reflexivity|].
    intros d Hd Heq. pose proof (filter_nil_none _ _ E d Hd) as Hf.
    cbn in Hf. apply Z.eqb_neq in Hf. congruence.
  - rewrite <- E. intros H. apply in_map_iff in H.
    destruct H as (d & Hd & Hin). inversion Hd; subst.
    apply filter_In in Hin. destruct Hin as [Hin Hq].
    apply Z.eqb_eq in Hq. auto.
Qed.

Lemma In_left_join_license_plates s x q :
  In q (left_join_license_plates s true x) ->
  qr_detected_plate_results q = fst x
  /\ qr_detections q = snd x
  /\ match qr_license_plates q with
     | Some p =>
         In p (license_plates s) /\ dpr_licensePlateId (fst x) = Some (lp_id p)
     | None =>
         forall p, In p (license_plates s) ->
                   dpr_licensePlateId (fst x) <> Some (lp_id p)
     end.
Proof.
  unfold left_join_license_plates.
  destruct (List.filter (links_to (fst x)) (license_plates s)) as [|p0 ps] eqn:E.
  - intros [H|[]]. subst q. cbn. repeat split.
    intros p Hp Heq. pose proof (filter_nil_none _ _ E p Hp) as Hf.
    unfold links_to in Hf. rewrite Heq, Z.eqb_refl in Hf. discriminate Hf.
  - rewrite <- E. intros H. apply in_map_iff in H.
    destruct H as (p & Hq & Hin). subst q. cbn. repeat split.
    + apply filter_In in Hin. apply Hin.
    + apply filter_In in Hin. destruct Hin as [_ Hl]. unfold links_to in Hl.
      destruct (dpr_licensePlateId (fst x)); [|discriminate Hl].
      apply Z.eqb_eq in Hl. congruence.
Qed.

Lemma In_joined_rows s q :
  In q (joined_rows s true) -> joined_from s (mappedRow q).
Proof.
  unfold joined_rows. intros H. apply in_flat_map in H.
  destruct H as ([r od] & Hx & Hq). apply in_flat_map in Hx.
  destruct Hx as (r0 & Hr0 & Hx).
  apply In_left_join_detections in Hx. destruct Hx as [-> Hod].
  apply In_left_join_license_plates in Hq. cbn [fst snd] in Hq.
  destruct Hq as (Hr & Hd & Hp).
  unfold joined_from, mappedRow. cbn [item detection licensePlate].
  rewrite Hr, Hd. auto.
Qed.

Lemma In_firstn {A : Type} n (l : list A) x : In x (firstn n l) -> In x l.
Proof.
  revert l. induction n as [|n IH]; intros [|y l]; cbn; try tauto.
  intros [H|H]; auto.
Qed.

Lemma In_skipn {A : Type} n (l : list A) x : In x (skipn n l) -> In x l.
Proof.
  revert l. induction n as [|n IH]; intros [|y l]; cbn; try tauto.
  intros H. right. apply IH, H.
Qed.

(** X7: when [fetchDetectionHistory] returns a page, every row of it is a
    row of [detected_plate_results] that the compiled filter keeps, shown
    with the detection its [detectionId] names and the license plate its
    [licensePlateId] names, and with none where the store has no such row. *)
Theorem history_rows_come_from_the_store
    (tz : Z) (pagination : ApiPaginationState) (sorting : ApiSortingState)
    (filters : ApiColumnFiltersState) (s : Store) (res : FetchHistoryResult) :
  NoDup (List.map lp_id (license_plates s)) ->
  0 <= pageIndex pagination ->
  0 <= pageSize pagination ->
  fetchDetectionHistory tz pagination sorting filters s = Returned res ->
  Forall
    (fun i =>
       joined_from s i
       /\ matches (parseFiltersToDrizzle tz filters) (unmapped i) = true)
    (rows res).
Proof.
  intros Hkey Hindex Hsize H.
  apply (fetchDetectionHistory_returned tz pagination sorting filters s res Hkey
           Hindex Hsize) in H.
  subst res. cbn [rows]. apply List.Forall_forall. intros i Hi.
  apply in_map_iff in Hi. destruct Hi as (q & <- & Hq).
  apply In_firstn, In_skipn in Hq.
  apply (Permutation_in _ (sort_by_Permutation _ _)) in Hq.
  apply filter_In in Hq. destruct Hq as [Hq Hm].
  rewrite unmapped_mappedRow. split; [apply In_joined_rows, Hq|exact Hm].
Qed.

Lemma history_rows_witness :
  Forall
    (fun i =>
       joined_from sample_store_after i
       /\ matches (parseFiltersToDrizzle 0 []) (unmapped i) = true)
    (rows sample_history).
Proof.
  apply (history_rows_come_from_the_store 0 {| pageIndex := 0; pageSize := 10 |}
           [] [] sample_store_after sample_history).
  - apply (bool_decide_unpack _). vm_compute. exact I.
  - cbn. lia.
  - cbn. lia.
  - vm_compute. reflexivity.
Defined.

Lemma left_join_detections_one s r :
  NoDup (List.map det_id (detections s)) ->
  exists od, left_join_detections s r = [(r, od)].
Proof.
  intros Hnd. unfold left_join_detections.
  assert (H : forall l, NoDup (List.map det_id l) ->
            List.filter (fun d => dpr_detectionId r =? det_id d) l = []
            \/ exists d, List.filter (fun d => dpr_detectionId r =? det_id d) l = [d]).
  { clear. intros l Hnd. induction l as [|x l IH]; cbn; [left; reflexivity|].
    cbn in Hnd. apply NoDup_cons in Hnd. destruct Hnd as [Hx Hnd].
    destruct (Z.eqb_spec (dpr_detectionId r) (det_id x)) as [Ex|Ex].
    - right. exists x. f_equal.
      destruct (List.filter _ l) as [|y l'] eqn:E; [reflexivity|].
      exfalso. apply Hx. rewrite list_elem_of_In, in_map_iff.
      assert (Hy : In y (List.filter (fun d => dpr_detectionId r =? det_id d) l))
        by (rewrite E; left; reflexivity).
      apply filter_In in Hy. destruct Hy as [Hy Hqy].
      apply Z.eqb_eq in Hqy. exists y. split; [congruence|exact Hy].
    - apply IH, Hnd. }
  destruct (H _ Hnd) as [E|(d & E)]; rewrite E; cbn; eauto.
Qed.

Lemma joined_rows_length s :
  NoDup (List.map det_id (detections s)) ->
  NoDup (List.map lp_id (license_plates s)) ->
  length (joined_rows s true) = length (detected_plate_results s).
Proof.
  intros Hd Hp. unfold joined_rows.
  induction (detected_plate_results s) as [|r l IH]; [reflexivity|].
  cbn [flat_map]. destruct (left_join_detections_one s r Hd) as (od & ->).
  cbn [app flat_map].
  destruct (left_join_license_plates_one s (r, od) Hp) as (p & ->).
  cbn [app length]. rewrite IH. reflexivity.
Qed.



Lemma firstn_then_firstn_skipn {A : Type} a b (l : list A) :
  firstn a l ++ firstn b (skipn a l) = firstn (a + b) l.
Proof.
  revert l. induction a as [|a IH]; intros l; [reflexivity|].
  destruct l as [|x l]; cbn; [rewrite firstn_nil; reflexivity|].
  rewrite IH. reflexivity.
Qed.

(** *** The compiled ordering is a total preorder *)

Lemma chained_lex a1 b1 c1 a2 b2 c2 a b c :
  chained a1 b1 c1 -> chained a2 b2 c2 ->
  a = match a1 with Eq => a2 | Lt => Lt | Gt => Gt end ->
  b = match b1 with Eq => b2 | Lt => Lt | Gt => Gt end ->
  c = match c1 with Eq => c2 | Lt => Lt | Gt => Gt end ->
  chained a b c.
Proof.
  intros H1 H2 -> -> ->. revert H1 H2. unfold chained.
  destruct a1, b1, c1; intros H1 H2; try (intros Ha Hb; congruence);
    try (intros _ _; split; [discriminate|discriminate]);
    try (exfalso; destruct H1 as [H1 H1']; try discriminate;
         first [ apply H1; reflexivity
               | destruct (H1' eq_refl) as [E1 E2]; discriminate ]).
  intros Ha Hb. destruct (H2 Ha Hb) as [Hc Heq]. split; [exact Hc|exact Heq].
Qed.

Lemma chained_Z (x y z : Z) : chained (x ?= y) (y ?= z) (x ?= z).
Proof.
  unfold chained. intros Ha Hb.
  change (x <= y) in Ha. change (y <= z) in Hb.
  split; [change (x <= z); lia|].
  intros E. apply Z.compare_eq_iff in E. split; apply Z.compare_eq_iff; lia.
Qed.

Lemma chained_N (x y z : N) : chained (x ?= y)%N (y ?= z)%N (x ?= z)%N.
Proof.
  unfold chained. intros Ha Hb.
  change (x <= y)%N in Ha. change (y <= z)%N in Hb.
  split; [change (x <= z)%N; lia|].
  intros E. apply N.compare_eq_iff in E. split; apply N.compare_eq_iff; lia.
Qed.

Lemma chained_Q (x y z : Q) : chained (x ?= y)%Q (y ?= z)%Q (x ?= z)%Q.
Proof.
  unfold chained. intros Ha Hb.
  apply Qle_alt in Ha. apply Qle_alt in Hb.
  split; [apply Qle_alt; eapply Qle_trans; eassumption|].
  intros E. apply Qeq_alt in E.
  split; apply Qeq_alt; apply Qle_antisym; try assumption.
  - rewrite E. exact Hb.
  - rewrite <- E. exact Ha.
Qed.

Lemma chained_bool (x y z : bool) :
  chained (Bool.compare x y) (Bool.compare y z) (Bool.compare x z).
Proof.
  unfold chained. destruct x, y, z; cbn; intros Ha Hb;
    try congruence; split; try discriminate; auto.
Qed.

Lemma chained_string (x y z : string) :
  chained (String.compare x y) (String.compare y z) (String.compare x z).
Proof.
  revert y z. induction x as [|a x IH]; intros [|b y] [|c z]; cbn;
    try (unfold chained; intros Ha Hb; first [congruence|
         split; [discriminate|first [intros E; discriminate E|auto]]]).
  apply (chained_lex (Ascii.compare a b) (Ascii.compare b c) (Ascii.compare a c)
           (String.compare x y) (String.compare y z) (String.compare x z));
    [unfold Ascii.compare; apply chained_N|apply IH| | |].
  - destruct (Ascii.compare a b); reflexivity.
  - destruct (Ascii.compare b c); reflexivity.
  - destruct (Ascii.compare a c); reflexivity.
Qed.

Lemma chained_dbval (k : nat) (a b c : dbval) :
  kind a = 0%nat \/ kind a = k ->
  kind b = 0%nat \/ kind b = k ->
  kind c = 0%nat \/ kind c = k ->
  chained (compare_dbval a b) (compare_dbval b c) (compare_dbval a c).
Proof.
  intros Ha Hb Hc.
  destruct a, b, c; cbn [kind] in Ha, Hb, Hc;
    try (exfalso; lia);
    cbn [compare_dbval];
    try apply chained_string; try apply chained_Q; try apply chained_bool;
    try apply chained_Z;
    unfold chained; intros H1 H2; try congruence;
    split; try discriminate; auto; intros E; discriminate E.
Qed.

Lemma column_value_kind (c : column) :
  exists k, forall r, kind (column_value c r) = 0%nat \/ kind (column_value c r) = k.
Proof.
  destruct c;
    [exists 1%nat|exists 1%nat|exists 3%nat|exists 5%nat|exists 1%nat
    |exists 4%nat|exists 1%nat|exists 6%nat|exists 7%nat|exists 2%nat];
    intros r; cbn [column_value]; unfold text_or_null;
    repeat match goal with
           | |- context [match ?o with Some _ => _ | None => _ end] => destruct o
           end;
    cbn [kind]; auto.
Qed.

Lemma chained_swap a b c : chained a b c -> chained b a c.
Proof.
  unfold chained. intros H Hb Ha. destruct (H Ha Hb) as [Hc Heq].
  split; [exact Hc|]. intros E. destruct (Heq E). auto.
Qed.

Lemma chained_rows keys x y z :
  chained (compare_rows keys x y) (compare_rows keys y z) (compare_rows keys x z).
Proof.
  induction keys as [|[c descending] keys IH]; cbn [compare_rows].
  { unfold chained. auto. }
  set (head := fun a b : QueryRow =>
                if descending
                then CompOpp (compare_dbval (column_value c a) (column_value c b))
                else compare_dbval (column_value c a) (column_value c b)).
  assert (Hhead : chained (head x y) (head y z) (head x z)).
  { unfold head.
    destruct (column_value_kind c) as (k & Hk).
    pose proof (chained_dbval k _ _ _ (Hk x) (Hk y) (Hk z)) as H.
    destruct descending; [|exact H].
    pose proof (chained_dbval k _ _ _ (Hk z) (Hk y) (Hk x)) as H'.
    apply chained_swap in H'.
    rewrite <- !compare_dbval_antisym. exact H'. }
  apply (chained_lex _ _ _ _ _ _ _ _ _ Hhead IH);
    unfold head;
    match goal with
    | |- match ?o with _ => _ end = _ => destruct o; reflexivity
    end.
Qed.

Lemma rows_leb_trans keys x y z :
  rows_leb keys x y = true -> rows_leb keys y z = true -> rows_leb keys x z = true.
Proof.
  unfold rows_leb. intros Ha Hb.
  destruct (chained_rows keys x y z) as [Hc _].
  - intros E. rewrite E in Ha. discriminate Ha.
  - intros E. rewrite E in Hb. discriminate Hb.
  - destruct (compare_rows keys x z); [reflexivity|reflexivity|congruence].
Qed.

(** Rows that do not tie can be put in one order only. *)
Lemma sorted_rows_unique keys (l1 l2 : list QueryRow) :
  (forall a b, In a l1 -> In b l1 -> compare_rows keys a b = Eq -> a = b) ->
  Permutation l1 l2 ->
  Sorted (fun a b => rows_leb keys a b = true) l1 ->
  Sorted (fun a b => rows_leb keys a b = true) l2 ->
  l1 = l2.
Proof.
  intros Hties Hperm H1 H2.
  assert (Htrans : Relations_1.Transitive (fun a b => rows_leb keys a b = true)).
  { intros x y z. apply rows_leb_trans. }
  apply (Sorted_StronglySorted Htrans) in H1.
  apply (Sorted_StronglySorted Htrans) in H2.
  clear Htrans. revert l2 Hperm H2.
  induction H1 as [|a l1 Hs1 IH Ha]; intros l2 Hperm H2.
  { apply Permutation_nil in Hperm. subst. reflexivity. }
  destruct H2 as [|b l2 Hs2 Hb].
  { apply Permutation_sym, Permutation_nil in Hperm. discriminate Hperm. }
  assert (E : a = b).
  { assert (Hin_a : In a (b :: l2))
      by (eapply Permutation_in; [exact Hperm|left; reflexivity]).
    assert (Hin_b : In b (a :: l1))
      by (eapply Permutation_in; [apply Permutation_sym, Hperm|left; reflexivity]).
    destruct Hin_a as [->|Hin_a]; [reflexivity|].
    destruct Hin_b as [->|Hin_b]; [reflexivity|].
    rewrite List.Forall_forall in Ha, Hb.
    pose proof (Ha b Hin_b) as Hab. pose proof (Hb a Hin_a) as Hba.
    apply Hties; [left; reflexivity|right; exact Hin_b|].
    unfold rows_leb in Hab, Hba. rewrite (compare_rows_antisym keys a b) in Hba.
    destruct (compare_rows keys a b); [reflexivity|discriminate Hba|discriminate Hab]. }
  subst b. f_equal. apply IH.
  - intros x y Hx Hy. apply Hties; right; assumption.
  - eapply Permutation_cons_inv, Hperm.
  - exact Hs2.
Qed.

(** X9: pages of one size follow one another when no two of the rows that
    the filter keeps tie on the ordering keys, so that the keys leave the
    store one order only.  Take the rows that the filter keeps in an order
    that follows the compiled ordering.  The rows of the pages [0 .. n - 1]
    that [fetchDetectionHistory] returns from one store, one after the
    other, are then the first [n * pageSize] of these rows: no row is
    skipped or shown twice between two pages. *)
Theorem pages_follow_one_another
    (tz : Z) (size : nat) (sorting : ApiSortingState)
    (filters : ApiColumnFiltersState) (s : Store)
    (pages : list FetchHistoryResult) (ordered : list QueryRow) :
  NoDup (List.map lp_id (license_plates s)) ->
  (forall a b,
     In a ordered -> In b ordered ->
     compare_rows (order_keys (parseSortingToDrizzle sorting)) a b = Eq ->
     a = b) ->
  Permutation ordered
    (List.filter (matches (parseFiltersToDrizzle tz filters)) (joined_rows s true)) ->
  Sorted
    (fun a b => rows_leb (order_keys (parseSortingToDrizzle sorting)) a b = true)
    ordered ->
  (forall k page,
     nth_error pages k = Some page ->
     fetchDetectionHistory tz
       {| pageIndex := Z.of_nat k; pageSize := Z.of_nat size |} sorting filters s
     = Returned page) ->
  List.map unmapped (flat_map rows pages) = firstn (length pages * size) ordered.
Proof.
  intros Hkey Hties Hperm Hsorted Hpages.
  assert (E : ordered
              = sort_by (rows_leb (order_keys (parseSortingToDrizzle sorting)))
                  (List.filter (matches (parseFiltersToDrizzle tz filters))
                     (joined_rows s true))).
  { apply (sorted_rows_unique (order_keys (parseSortingToDrizzle sorting)));
      [exact Hties| |exact Hsorted|apply sort_by_Sorted, rows_leb_total].
    eapply Permutation_trans; [exact Hperm|].
    apply Permutation_sym, sort_by_Permutation. }
  rewrite E. clear E Hties Hperm Hsorted ordered.
  induction pages as [|page pages IH] using rev_ind; [reflexivity|].
  rewrite flat_map_app, map_app, IH.
  2:{ intros k p Hk. apply Hpages. rewrite nth_error_app1; [exact Hk|].
      apply nth_error_Some. congruence. }
  cbn [flat_map]. rewrite app_nil_r.
  assert (Hlast : nth_error (pages ++ [page]) (length pages) = Some page).
  { rewrite nth_error_app2, Nat.sub_diag by lia. reflexivity. }
  apply Hpages in Hlast.
  apply fetchDetectionHistory_returned in Hlast;
    [|exact Hkey|cbn; lia|cbn; lia].
  rewrite Hlast. cbn [rows pageIndex pageSize].
  rewrite map_map. erewrite (map_ext (fun x => unmapped (mappedRow x)));
    [rewrite map_id|intros q; apply unmapped_mappedRow].
  rewrite <- Nat2Z.inj_mul, !Nat2Z.id.
  rewrite firstn_then_firstn_skipn. f_equal.
  rewrite length_app. cbn [length]. lia.
Qed.

Lemma pages_follow_witness :
  List.map unmapped (flat_map rows sample_pages)
  = firstn (length sample_pages * 2) sample_ordered.
Proof.
  apply (pages_follow_one_another 0 2
           [{| sort_id := "plateNumber"; sort_desc := false |};
            {| sort_id := "date"; sort_desc := true |}] [] sample_store_after
           sample_pages sample_ordered).
  - apply (bool_decide_unpack _). vm_compute. exact I.
  - intros a b Ha Hb Hc. vm_compute in Ha, Hb.
    repeat (destruct Ha as [<-|Ha]);
      repeat (destruct Hb as [<-|Hb]);
      try reflexivity; try (vm_compute in Hc; discriminate Hc);
      contradiction.
  - exact (sort_by_Permutation
             (rows_leb
                (order_keys
                   (parseSortingToDrizzle
                      [{| sort_id := "plateNumber"; sort_desc := false |};
                       {| sort_id := "date"; sort_desc := true |}])))
             (joined_rows sample_store_after true)).
  - vm_compute. repeat constructor.
  - intros k page Hk.
    destruct k as [|[|k]]; cbn in Hk; inversion Hk; subst;
      try (vm_compute; reflexivity).
    destruct k; discriminate.
Defined.

(** ** The options and the filters *)








(** ** The rows written by the ingestion writer *)

Lemma inherited_is_kept k :
  JsObject.inherited k = true -> keeps_plate_number k = true.
Proof.
  unfold JsObject.inherited. intros H. apply bool_decide_eq_true_1 in H.
  apply list_elem_of_In in H. unfold JsObject.prototype_keys in H.
  repeat (destruct H as [<-|H]; [vm_compute; reflexivity|]). destruct H.
Qed.

Lemma records_after_none dets tbl k :
  ~ In k (uniquePlateNumbers dets) -> records_after dets tbl !! k = None.
Proof.
  intros Hk. unfold records_after, licensePlateRecords_of.
  rewrite records_fold_other; [apply lookup_empty|].
  left. rewrite in_map_iff. intros (p & <- & Hp).
  apply filter_In in Hp. destruct Hp as [_ Hp].
  apply string_includes_In in Hp. exact (Hk Hp).
Qed.

Lemma upsert_plates_covers pns tbl seq pn :
  NoDup pns -> In pn pns ->
  exists p, In p (fst (upsert_plates pns tbl seq)) /\ lp_plateNumber p = pn.
Proof.
  intros Hnd Hpn.
  destruct (upsert_plates_spec pns tbl seq Hnd) as (added & E & Enames & _).
  rewrite E. cbn [fst].
  destruct (has_plate tbl pn) eqn:Eh.
  - apply has_plate_In, in_map_iff in Eh. destruct Eh as (p & Ep & Hp).
    exists p. split; [apply in_or_app; left; exact Hp|exact Ep].
  - assert (Hin : In pn (List.map lp_plateNumber added)).
    { rewrite Enames. apply filter_In. split; [exact Hpn|]. rewrite Eh. reflexivity. }
    apply in_map_iff in Hin. destruct Hin as (p & Ep & Hp).
    exists p. split; [apply in_or_app; right; exact Hp|exact Ep].
Qed.

(** The three values of [licensePlateId]. *)
Lemma link_cases i dets tbl det :
  NoDup (List.map lp_plateNumber tbl) ->
  (forall pn, In pn (uniquePlateNumbers dets) ->
              exists p, In p tbl /\ lp_plateNumber p = pn) ->
  In det dets ->
  (plate_number det = "__proto__" ->
   ins_licensePlateId (detectedPlateData i (records_after dets tbl) det)
   = LinkObject "__proto__")
  /\ (keeps_plate_number (plate_number det) = false ->
      ins_licensePlateId (detectedPlateData i (records_after dets tbl) det)
      = LinkNull)
  /\ (keeps_plate_number (plate_number det) = true ->
      plate_number det <> "__proto__" ->
      exists p, In p tbl /\ lp_plateNumber p = plate_number det
                /\ ins_licensePlateId (detectedPlateData i (records_after dets tbl) det)
                   = if lp_id p =? 0 then LinkNull else LinkId (lp_id p)).
Proof.
  intros Hnd Hcover Hdet.
  cbn [detectedPlateData ins_licensePlateId]. unfold licensePlateId_of, JsObject.get.
  split; [|split].
  - intros ->. rewrite records_after_proto, inherited_proto. reflexivity.
  - intros Hkeep. destruct (truthy_string (plate_number det)); [|reflexivity].
    rewrite records_after_none.
    + destruct (JsObject.inherited (plate_number det)) eqn:Ei; [|reflexivity].
      apply inherited_is_kept in Ei. congruence.
    + intros Hin. apply uniquePlateNumbers_kept in Hin. destruct Hin. congruence.
  - intros Hkeep Hproto.
    destruct (Hcover _ (kept_in_uniquePlateNumbers dets det Hdet Hkeep))
      as (p & Hp & Ep).
    exists p. split; [exact Hp|]. split; [exact Ep|].
    assert (Htruthy : truthy_string (plate_number det) = true).
    { unfold keeps_plate_number in Hkeep. apply andb_prop in Hkeep. tauto. }
    rewrite Htruthy, <- Ep.
    rewrite (records_after_lookup dets tbl p Hnd Hp).
    + reflexivity.
    + rewrite Ep. apply kept_in_uniquePlateNumbers; assumption.
    + congruence.
Qed.

Lemma valid_link v :
  valid_result_insert v = true -> forall k, ins_licensePlateId v <> LinkObject k.
Proof.
  unfold valid_result_insert. intros H k E. rewrite E in H. discriminate H.
Qed.

(** What a call that returns has written. *)
Lemma ingestion_writes fault now response dets source url s s' res :
  store_ok s ->
  api_detections response = Some dets ->
  dets <> [] ->
  insertDetectionAndResults fault now (Some response) source url s
  = (s', Returned res) ->
  let i := detections_id_seq s + 1 in
  let inserts :=
    List.map (detectedPlateData i (records_after dets (license_plates s'))) dets in
  store_ok s'
  /\ detections s' = detections s ++ [new_detection now response source url i]
  /\ detections_id_seq s' = i
  /\ (exists added, license_plates s' = license_plates s ++ added)
  /\ detected_plate_results s'
     = detected_plate_results s ++ number_rows (detected_plate_results_id_seq s) inserts
  /\ detected_plate_results_id_seq s'
     = detected_plate_results_id_seq s + Z.of_nat (length dets)
  /\ forallb valid_result_insert inserts = true
  /\ (forall pn, In pn (uniquePlateNumbers dets) ->
        exists p, In p (license_plates s') /\ lp_plateNumber p = pn)
  /\ fault FindFirstDetection = false.
Proof.
  intros Hok Hdets Hne H.
  destruct (insertDetectionAndResults_returned _ _ _ _ _ _ _ _ _ Hdets Hne H)
    as (i & Htx & Hfind).
  pose proof (store_ok_committed _ _ _ _ _ _ _ _ _ Hok Htx) as Hok'.
  apply ingestion_transaction_returned in Htx.
  destruct Htx as (_ & Ei & _ & Hvalid & Es').
  specialize (Hvalid Hne).
  destruct Hok as [Hnames Hids Hserial Hdids Hdserial Hkept [Hseq1 Hseq2]].
  destruct (upsert_plates_ok dets (license_plates s) (license_plates_id_seq s)
              Hseq2 Hnames Hids Hserial Hkept)
    as (added & Eup & _).
  pose proof (fun pn => upsert_plates_covers (uniquePlateNumbers dets)
                          (license_plates s) (license_plates_id_seq s) pn
                          (unique_strings_NoDup _)) as Hcover.
  rewrite Eup in Es', Hvalid, Hcover. cbn [fst snd] in Es', Hvalid, Hcover.
  subst s' i. cbn [detections license_plates detected_plate_results
                     detections_id_seq detected_plate_results_id_seq].
  split; [exact Hok'|]. split; [reflexivity|]. split; [reflexivity|].
  split; [eauto|]. split; [reflexivity|]. split; [reflexivity|].
  split; [exact Hvalid|]. split; [exact Hcover|exact Hfind].
Qed.

Lemma vehicleCategory_of_spec a v :
  vehicleCategory_of a = Some v
  <-> exists x info,
        a = Some x /\ plate_type_info x = Some info
        /\ category info = Some (vehicle_label v).
Proof.
  unfold vehicleCategory_of. split.
  - destruct a as [x|]; [|discriminate].
    destruct (plate_type_info x) as [info|] eqn:Einfo; [|discriminate].
    destruct (category info) as [c|] eqn:Ec; [|discriminate].
    destruct (truthy_string c && string_includes vehicleCategoryEnum c) eqn:E;
      [|discriminate].
    intros Hv. exists x, info. split; [reflexivity|]. split; [exact Einfo|].
    rewrite Ec. f_equal.
    apply andb_prop in E. destruct E as [_ E]. apply string_includes_In in E.
    unfold vehicleCategoryEnum in E.
    repeat (destruct E as [<-|E];
            [cbn in Hv; inversion Hv; reflexivity|]).
    destruct E.
  - intros (x & info & -> & -> & ->). destruct v; reflexivity.
Qed.

(** X11: a call that returns for detections whose strings fit their columns
    writes one row per detection of the response, in the order of the
    response and with consecutive ids.  The row of a
    detection whose plate number is not blank points to the row of
    [license_plates] that holds this plate number, whether the call added
    that row or found it; the row of a detection with a blank plate number
    has no license plate. *)
Theorem written_rows_are_linked
    (fault : statement -> bool) (now : Z) (response : ApiResponse)
    (dets : list BackendDetection) (source : detection_source)
    (originalImageUrl : string) (s s' : Store) (res : option DetectionSelect) :
  store_ok s ->
  api_detections response = Some dets ->
  dets <> [] ->
  Forall (fun det => fits_columns det = true) dets ->
  insertDetectionAndResults fault now (Some response) source originalImageUrl s
  = (s', Returned res) ->
  exists added_results : list DetectedPlateResultRow,
    detected_plate_results s' = detected_plate_results s ++ added_results
    /\ length added_results = length dets
    /\ forall (n : nat) (det : BackendDetection),
         nth_error dets n = Some det ->
         exists r,
           nth_error added_results n = Some r
           /\ dpr_id r = detected_plate_results_id_seq s + 1 + Z.of_nat n
           /\ dpr_plateNumber r = plate_number det
           /\ if keeps_plate_number (plate_number det)
              then exists p, In p (license_plates s')
                             /\ lp_plateNumber p = plate_number det
                             /\ dpr_licensePlateId r = Some (lp_id p)
              else dpr_licensePlateId r = None.
Proof.
  intros Hok Hdets Hne _ H.
  destruct (ingestion_writes _ _ _ _ _ _ _ _ _ Hok Hdets Hne H)
    as (Hok' & _ & _ & _ & Eres & _ & Hvalid & Hcover & _).
  eexists. split; [exact Eres|]. split.
  { rewrite number_rows_length, length_map. reflexivity. }
  intros n det Hn.
  eexists. split.
  { apply number_rows_nth. rewrite nth_error_map, Hn. reflexivity. }
  split; [reflexivity|]. split; [reflexivity|].
  assert (Hdet : In det dets) by (eapply nth_error_In, Hn).
  rewrite forallb_forall in Hvalid.
  pose proof (Hvalid _ (in_map _ _ _ Hdet)) as Hv.
  destruct (link_cases (detections_id_seq s + 1) dets (license_plates s') det
              (plate_numbers_unique _ Hok') Hcover Hdet) as (Hproto & Hblank & Hkept).
  cbn [result_row dpr_licensePlateId].
  destruct (keeps_plate_number (plate_number det)) eqn:Hkeep.
  - destruct (Hkept eq_refl) as (p & Hp & Ep & El).
    { intros E. eapply valid_link; [exact Hv|]. apply Hproto, E. }
    exists p. split; [exact Hp|]. split; [exact Ep|].
    rewrite El.
    pose proof (plate_ids_serial _ Hok') as Hserial.
    rewrite List.Forall_forall in Hserial. specialize (Hserial p Hp).
    destruct (Z.eqb_spec (lp_id p) 0); [lia|reflexivity].
  - rewrite (Hblank eq_refl). reflexivity.
Qed.

Lemma written_rows_witness :
  exists added_results : list DetectedPlateResultRow,
    detected_plate_results sample_store_after
    = detected_plate_results sample_store ++ added_results
    /\ length added_results
       = length (List.map sample_detection second_plates)
    /\ forall (n : nat) (det : BackendDetection),
         nth_error (List.map sample_detection second_plates) n = Some det ->
         exists r,
           nth_error added_results n = Some r
           /\ dpr_id r = detected_plate_results_id_seq sample_store + 1 + Z.of_nat n
           /\ dpr_plateNumber r = plate_number det
           /\ if keeps_plate_number (plate_number det)
              then exists p, In p (license_plates sample_store_after)
                             /\ lp_plateNumber p = plate_number det
                             /\ dpr_licensePlateId r = Some (lp_id p)
              else dpr_licensePlateId r = None.
Proof.
  apply (written_rows_are_linked no_fault 2000 (sample_response second_plates)
           (List.map sample_detection second_plates) SrcApi "b.jpg"
           sample_store sample_store_after sample_created).
  - apply sample_store_ok.
  - reflexivity.
  - discriminate.
  - repeat constructor.
  - vm_compute. reflexivity.
Defined.

(** X12: when the strings of the detections fit their columns, the row
    written for a detection copies its bounding box and engine; the analysis
    columns are null when the detection has no analysis; the vehicle type is
    a category exactly when the analysis names that category of the schema,
    and null for any other name. *)
Theorem written_rows_copy_the_response
    (fault : statement -> bool) (now : Z) (response : ApiResponse)
    (dets : list BackendDetection) (source : detection_source)
    (originalImageUrl : string) (s s' : Store) (res : option DetectionSelect)
    (n : nat) (det : BackendDetection) :
  store_ok s ->
  api_detections response = Some dets ->
  dets <> [] ->
  Forall (fun det => fits_columns det = true) dets ->
  insertDetectionAndResults fault now (Some response) source originalImageUrl s
  = (s', Returned res) ->
  nth_error dets n = Some det ->
  exists r,
    nth_error (detected_plate_results s') (length (detected_plate_results s) + n)
    = Some r
    /\ dpr_detectionId r = detections_id_seq s + 1
    /\ dpr_boundingBox r = bounding_box det
    /\ dpr_ocrEngineUsed r = ocr_engine_used det
    /\ dpr_normalizedPlate r = option_map normalized (plate_analysis det)
    /\ dpr_plateType r = option_map plate_type (plate_analysis det)
    /\ dpr_isValidFormat r = option_map is_valid_format (plate_analysis det)
    /\ (plate_analysis det = None ->
        dpr_provinceCode r = None /\ dpr_provinceName r = None
        /\ dpr_detectedColor r = None /\ dpr_formatDescription r = None
        /\ dpr_typeVehicle r = None)
    /\ (forall v, dpr_typeVehicle r = Some v
          <-> exists a info,
                plate_analysis det = Some a /\ plate_type_info a = Some info
                /\ category info = Some (vehicle_label v)).
Proof.
  intros Hok Hdets Hne _ H Hn.
  destruct (ingestion_writes _ _ _ _ _ _ _ _ _ Hok Hdets Hne H)
    as (_ & _ & _ & _ & Eres & _ & Hvalid & _).
  eexists. split.
  { rewrite Eres, nth_error_app2 by lia.
    replace (length (detected_plate_results s) + n - length (detected_plate_results s))%nat
      with n by lia.
    apply number_rows_nth. rewrite nth_error_map, Hn. reflexivity. }
  cbn [result_row detectedPlateData dpr_detectionId dpr_confidenceDetection
       dpr_boundingBox dpr_ocrEngineUsed dpr_normalizedPlate dpr_plateType
       dpr_isValidFormat dpr_provinceCode dpr_provinceName dpr_detectedColor
       dpr_formatDescription dpr_typeVehicle ins_detectionId
       ins_confidenceDetection ins_boundingBox ins_ocrEngineUsed
       ins_normalizedPlate ins_plateType ins_isValidFormat ins_provinceCode
       ins_provinceName ins_detectedColor ins_formatDescription ins_typeVehicle].
  repeat (split; [reflexivity|]).
  split; [intros ->; repeat split|].
  intros v; apply vehicleCategory_of_spec.
Qed.

Lemma written_rows_copy_witness :
  exists r,
    nth_error (detected_plate_results analysed_store)
      (length (detected_plate_results sample_store) + 0)
    = Some r
    /\ dpr_detectionId r = detections_id_seq sample_store + 1
    /\ dpr_boundingBox r = bounding_box analysed_detection
    /\ dpr_ocrEngineUsed r = ocr_engine_used analysed_detection
    /\ dpr_normalizedPlate r = option_map normalized (plate_analysis analysed_detection)
    /\ dpr_plateType r = option_map plate_type (plate_analysis analysed_detection)
    /\ dpr_isValidFormat r
       = option_map is_valid_format (plate_analysis analysed_detection)
    /\ (plate_analysis analysed_detection = None ->
        dpr_provinceCode r = None /\ dpr_provinceName r = None
        /\ dpr_detectedColor r = None /\ dpr_formatDescription r = None
        /\ dpr_typeVehicle r = None)
    /\ (forall v, dpr_typeVehicle r = Some v
          <-> exists a info,
                plate_analysis analysed_detection = Some a
                /\ plate_type_info a = Some info
                /\ category info = Some (vehicle_label v)).
Proof.
  apply (written_rows_copy_the_response no_fault 3000 analysed_response
           [analysed_detection; sample_detection " "] SrcCamera "c.jpg"
           sample_store analysed_store analysed_created 0 analysed_detection).
  - apply sample_store_ok.
  - reflexivity.
  - discriminate.
  - repeat constructor.
  - vm_compute. reflexivity.
  - reflexivity.
Defined.

(** ** The links of the store *)

Lemma number_rows_ids seq vs :
  Forall (fun r => seq < dpr_id r <= seq + Z.of_nat (length vs)) (number_rows seq vs)
  /\ NoDup (List.map dpr_id (number_rows seq vs)).
Proof.
  revert seq. induction vs as [|v vs IH]; intros seq; cbn [number_rows List.map].
  - split; constructor.
  - destruct (IH (seq + 1)) as [Hrange Hnd]. split.
    + constructor; [cbn; lia|].
      eapply Forall_impl; [exact Hrange|]. cbn. intros r Hr. lia.
    + apply NoDup_cons. split; [|exact Hnd].
      rewrite list_elem_of_In, in_map_iff. intros (r & Er & Hr).
      rewrite List.Forall_forall in Hrange. specialize (Hrange r Hr).
      cbn in Er. lia.
Qed.

Lemma results_monotone_ret {A : Type} (a : A) : results_monotone (ret a).
Proof. intros s s' o H. inversion H. lia. Qed.

Lemma results_monotone_throw {A : Type} (e : string) : results_monotone (@throw A e).
Proof. intros s s' o H. inversion H. lia. Qed.

Lemma results_monotone_bind {A B : Type} (m : Db A) (k : A -> Db B) :
  results_monotone m -> (forall a, results_monotone (k a)) ->
  results_monotone (bind m k).
Proof.
  intros Hm Hk s s' o H. unfold bind in H.
  destruct (m s) as [s1 [a|e]] eqn:E.
  - specialize (Hm _ _ _ E). specialize (Hk a _ _ _ H). lia.
  - inversion H; subst. eapply Hm, E.
Qed.

Lemma results_monotone_send fault st : results_monotone (send fault st).
Proof.
  unfold send. destruct (fault st);
    [apply results_monotone_throw | apply results_monotone_ret].
Qed.

Lemma results_monotone_ingestion_transaction fault now response dets source url :
  results_monotone (ingestion_transaction fault now response dets source url).
Proof.
  unfold ingestion_transaction.
  apply results_monotone_bind.
  { unfold insert_detection.
    apply results_monotone_bind; [apply results_monotone_send|].
    intros _ s s' o H.
    destruct (match ins_processTimeMs _ with Some n => in_int4 n | None => true end);
      inversion H; subst; cbn; lia. }
  intros [|i ids]; [apply results_monotone_throw|].
  destruct (i =? 0); [apply results_monotone_throw|].
  apply results_monotone_bind.
  { destruct (0 <? _); [|apply results_monotone_ret].
    apply results_monotone_bind.
    - unfold insert_license_plates.
      apply results_monotone_bind; [apply results_monotone_send|].
      intros _ s s' o H.
      destruct (forallb (fits 20) _); [|inversion H; lia].
      destruct (upsert_plates _ _ _) as [tbl seq].
      inversion H; subst. cbn. lia.
    - intros _. apply results_monotone_bind.
      + unfold select_license_plates.
        apply results_monotone_bind; [apply results_monotone_send|].
        intros _ s s' o H. inversion H. lia.
      + intros fetched. apply results_monotone_ret. }
  intros records. apply results_monotone_bind.
  { destruct (0 <? _); [|apply results_monotone_ret].
    unfold insert_detected_plate_results.
    apply results_monotone_bind; [apply results_monotone_send|].
    intros _ s s' o H.
    destruct (forallb valid_result_insert _); inversion H; subst; cbn; lia. }
  intros _. apply results_monotone_ret.
Qed.

Lemma store_linked_empty : store_linked empty_store.
Proof.
  split; [apply store_ok_empty|..]; cbn; try constructor; lia.
Qed.

Lemma store_linked_rollback s s1 :
  store_linked s -> seq_le s s1 ->
  detected_plate_results_id_seq s <= detected_plate_results_id_seq s1 ->
  store_linked (rollback s s1).
Proof.
  intros [Hok Hids Hserial Hseq Hdet Hplate] Hle Hle'.
  split; cbn [rollback detections license_plates detected_plate_results
              detected_plate_results_id_seq]; try assumption.
  - apply store_ok_rollback; assumption.
  - eapply Forall_impl; [exact Hserial|]. cbn. intros; lia.
  - lia.
Qed.

(** What a transaction that returns has written. *)
Lemma transaction_writes fault now response dets source url s s' i :
  store_ok s ->
  dets <> [] ->
  ingestion_transaction fault now response dets source url s = (s', Returned i) ->
  let inserts :=
    List.map (detectedPlateData i (records_after dets (license_plates s'))) dets in
  i = detections_id_seq s + 1
  /\ store_ok s'
  /\ detections s' = detections s ++ [new_detection now response source url i]
  /\ (exists added, license_plates s' = license_plates s ++ added)
  /\ detected_plate_results s'
     = detected_plate_results s ++ number_rows (detected_plate_results_id_seq s) inserts
  /\ detected_plate_results_id_seq s'
     = detected_plate_results_id_seq s + Z.of_nat (length dets)
  /\ forallb valid_result_insert inserts = true
  /\ (forall pn, In pn (uniquePlateNumbers dets) ->
        exists p, In p (license_plates s') /\ lp_plateNumber p = pn).
Proof.
  intros Hok Hne Htx.
  pose proof (store_ok_committed _ _ _ _ _ _ _ _ _ Hok Htx) as Hok'.
  apply ingestion_transaction_returned in Htx.
  destruct Htx as (_ & Ei & _ & Hvalid & Es').
  specialize (Hvalid Hne).
  destruct Hok as [Hnames Hids Hserial Hdids Hdserial Hkept [Hseq1 Hseq2]].
  destruct (upsert_plates_ok dets (license_plates s) (license_plates_id_seq s)
              Hseq2 Hnames Hids Hserial Hkept)
    as (added & Eup & _).
  pose proof (fun pn => upsert_plates_covers (uniquePlateNumbers dets)
                          (license_plates s) (license_plates_id_seq s) pn
                          (unique_strings_NoDup _)) as Hcover.
  rewrite Eup in Es', Hvalid, Hcover. cbn [fst snd] in Es', Hvalid, Hcover.
  subst s'. cbn [detections license_plates detected_plate_results
                 detections_id_seq detected_plate_results_id_seq].
  split; [exact Ei|]. split; [exact Hok'|]. split; [reflexivity|].
  split; [eauto|]. split; [reflexivity|]. split; [reflexivity|].
  split; [exact Hvalid|exact Hcover].
Qed.

Lemma store_linked_committed fault now response dets source url s s1 i :
  store_linked s ->
  dets <> [] ->
  ingestion_transaction fault now response dets source url s = (s1, Returned i) ->
  store_linked s1.
Proof.
  intros [Hok Hids Hserial Hseq Hdet Hplate] Hne Htx.
  destruct (transaction_writes _ _ _ _ _ _ _ _ _ Hok Hne Htx)
    as (Ei & Hok' & Edet & (added & Eplates) & Eres & Eseq & Hvalid & Hcover).
  destruct (number_rows_ids (detected_plate_results_id_seq s)
              (List.map (detectedPlateData i (records_after dets (license_plates s1)))
                 dets)) as [Hnew Hnewids].
  rewrite length_map in Hnew.
  rewrite List.Forall_forall in Hnew.
  split; try assumption; rewrite ?Eres, ?Eseq.
  - rewrite map_app. apply NoDup_app. split; [exact Hids|]. split; [|exact Hnewids].
    intros k Hk Hk'. rewrite list_elem_of_In, in_map_iff in Hk, Hk'.
    destruct Hk as (r & <- & Hr). destruct Hk' as (r' & E & Hr').
    rewrite List.Forall_forall in Hserial.
    specialize (Hserial r Hr). specialize (Hnew r' Hr'). cbn in Hserial, Hnew. lia.
  - apply Forall_app. split.
    + eapply Forall_impl; [exact Hserial|]. cbn. intros; lia.
    + apply List.Forall_forall. intros r Hr. specialize (Hnew r Hr).
      cbn in Hnew. lia.
  - lia.
  - rewrite Edet, map_app. apply Forall_app. split.
    + eapply Forall_impl; [exact Hdet|]. cbn. intros r Hr.
      apply in_or_app. left. exact Hr.
    + apply List.Forall_forall. intros r Hr. apply number_rows_In in Hr.
      destruct Hr as (k & v & Hv & ->). apply in_map_iff in Hv.
      destruct Hv as (det & <- & _). cbn. apply in_or_app. right. left. reflexivity.
  - apply Forall_app. split.
    + eapply Forall_impl; [exact Hplate|]. cbn. intros r Hr.
      destruct (dpr_licensePlateId r); [|exact Hr].
      destruct Hr as (p & Hp & Hr). exists p. split; [|exact Hr].
      rewrite Eplates. apply in_or_app. left. exact Hp.
    + apply List.Forall_forall. intros r Hr. apply number_rows_In in Hr.
      destruct Hr as (k & v & Hv & ->).
      rewrite forallb_forall in Hvalid. pose proof (Hvalid v Hv) as Hvv.
      apply in_map_iff in Hv. destruct Hv as (det & <- & Hin).
      destruct (link_cases i dets (license_plates s1) det
                  (plate_numbers_unique _ Hok') Hcover Hin)
        as (Hproto & Hblank & Hkept).
      cbn [result_row dpr_licensePlateId dpr_plateNumber].
      destruct (keeps_plate_number (plate_number det)) eqn:Hkeep.
      * destruct (Hkept eq_refl) as (p & Hp & Ep & El).
        { intros E. eapply valid_link; [exact Hvv|]. apply Hproto, E. }
        rewrite El.
        pose proof (plate_ids_serial _ Hok') as Hs.
        rewrite List.Forall_forall in Hs. specialize (Hs p Hp).
        destruct (Z.eqb_spec (lp_id p) 0); [lia|].
        exists p. auto.
      * rewrite (Hblank eq_refl). exact Hkeep.
Qed.

Lemma store_linked_preserved fault now apiResponse source url s s' o :
  store_linked s ->
  insertDetectionAndResults fault now apiResponse source url s = (s', o) ->
  store_linked s'.
Proof.
  intros Hok H. unfold insertDetectionAndResults in H.
  destruct apiResponse as [response|]; [|inversion H; subst; exact Hok].
  destruct (api_detections response) as [[|det dets]|];
    try (inversion H; subst; exact Hok).
  unfold try_catch, bind, db_transaction in H.
  destruct (ingestion_transaction fault now response (det :: dets) source url s)
    as [s1 [i|e]] eqn:Htx.
  - assert (Hs1 : store_linked s1)
      by (apply (store_linked_committed fault now response (det :: dets) source
                   url s s1 i Hok); [discriminate|exact Htx]).
    destruct (fault Commit).
    + cbn in H. inversion H; subst.
      apply store_linked_rollback; [exact Hok| |].
      * eapply monotone_ingestion_transaction, Htx.
      * eapply results_monotone_ingestion_transaction, Htx.
    + unfold find_first_detection, bind, send in H.
      destruct (fault FindFirstDetection); cbn in H; inversion H; subst; exact Hs1.
  - cbn in H. inversion H; subst.
    apply store_linked_rollback; [exact Hok| |].
    + eapply monotone_ingestion_transaction, Htx.
    + eapply results_monotone_ingestion_transaction, Htx.
Qed.

(** X13: a call of the ingestion writer for detections whose strings fit
    their columns, whatever it returns or throws, keeps the store well
    linked: ids and plate numbers stay unique, every result row points to an
    existing detection, and a result row points to the license plate that
    has its plate number, or to none when its plate number is blank. *)
Theorem store_links_are_kept
    (fault : statement -> bool) (now : Z) (apiResponse : option ApiResponse)
    (source : detection_source) (originalImageUrl : string) (s s' : Store)
    (o : outcome (option DetectionSelect)) :
  store_linked s ->
  (forall response dets,
     apiResponse = Some response -> api_detections response = Some dets ->
     Forall (fun det => fits_columns det = true) dets) ->
  insertDetectionAndResults fault now apiResponse source originalImageUrl s = (s', o) ->
  store_linked s'.
Proof.
  intros Hok _ H. exact (store_linked_preserved _ _ _ _ _ _ _ _ Hok H).
Qed.

Lemma store_links_witness : store_linked sample_store.
Proof.
  apply (store_links_are_kept no_fault 1000 (Some (sample_response ["51A-12345"]))
           SrcUpload "a.jpg" empty_store sample_store
           (snd (insertDetectionAndResults no_fault 1000
                   (Some (sample_response ["51A-12345"])) SrcUpload "a.jpg"
                   empty_store))).
  - apply store_linked_empty.
  - intros response dets E Hdets. inversion E; subst response.
    inversion Hdets; subst dets. repeat constructor.
  - vm_compute. reflexivity.
Defined.

Lemma find_app_none {A : Type} (q : A -> bool) (l l' : list A) :
  (forall x, In x l -> q x = false) ->
  List.find q (l ++ l') = List.find q l'.
Proof.
  induction l as [|x l IH]; intros H; [reflexivity|].
  cbn. rewrite (H x (or_introl eq_refl)). apply IH.
  intros y Hy. apply H. right. exact Hy.
Qed.

Lemma filter_none {A : Type} (q : A -> bool) (l : list A) :
  (forall x, In x l -> q x = false) -> List.filter q l = [].
Proof.
  induction l as [|x l IH]; intros H; [reflexivity|].
  cbn. rewrite (H x (or_introl eq_refl)). apply IH.
  intros y Hy. apply H. right. exact Hy.
Qed.

Lemma filter_all {A : Type} (q : A -> bool) (l : list A) :
  (forall x, In x l -> q x = true) -> List.filter q l = l.
Proof.
  induction l as [|x l IH]; intros H; [reflexivity|].
  cbn. rewrite (H x (or_introl eq_refl)). f_equal. apply IH.
  intros y Hy. apply H. right. exact Hy.
Qed.

(** The value of a call that returns: what [findFirst] reads. *)
Lemma insertDetectionAndResults_result fault now response dets source url s s' res :
  api_detections response = Some dets ->
  dets <> [] ->
  insertDetectionAndResults fault now (Some response) source url s
  = (s', Returned res) ->
  exists i,
    ingestion_transaction fault now response dets source url s = (s', Returned i)
    /\ res
       = match List.find (fun d => det_id d =? i) (detections s') with
         | Some d =>
             Some {| created := d;
                     detectedPlates :=
                       List.filter (fun r => dpr_detectionId r =? i)
                         (detected_plate_results s') |}
         | None => None
         end.
Proof.
  intros Hdets Hne H. unfold insertDetectionAndResults in H. rewrite Hdets in H.
  destruct dets as [|det dets]; [congruence|].
  unfold try_catch in H.
  destruct (bind _ _ s) as [s2 [a|e]] eqn:E; [|discriminate H].
  inversion H; subst s2 a; clear H.
  apply bind_returned in E. destruct E as (s3 & i & Htx & E).
  apply bind_returned in E. destruct E as (s4 & found & Hfind & E).
  apply ret_returned in E. destruct E as [<- ->].
  unfold find_first_detection in Hfind.
  apply bind_returned in Hfind. destruct Hfind as (s5 & [] & Hsend & Hfind).
  apply send_returned in Hsend. destruct Hsend as [F ->].
  inversion Hfind; subst s4; clear Hfind.
  unfold db_transaction in Htx.
  destruct (ingestion_transaction _ _ _ _ _ _ s) as [s6 [j|e]];
    [|discriminate Htx].
  destruct (fault Commit); [discriminate Htx|].
  inversion Htx; subst. eauto.
Qed.

(** X14: on a well-linked store a call that returns, for a response with at
    least one detection, never returns null: it returns the detection row it
    wrote together with exactly the result rows it wrote, in the order of
    the response. *)
Theorem committed_call_returns_the_detection
    (fault : statement -> bool) (now : Z) (response : ApiResponse)
    (dets : list BackendDetection) (source : detection_source)
    (originalImageUrl : string) (s s' : Store) (res : option DetectionSelect) :
  store_linked s ->
  api_detections response = Some dets ->
  dets <> [] ->
  insertDetectionAndResults fault now (Some response) source originalImageUrl s
  = (s', Returned res) ->
  exists added_results : list DetectedPlateResultRow,
    detected_plate_results s' = detected_plate_results s ++ added_results
    /\ length added_results = length dets
    /\ res
       = Some {| created :=
                   new_detection now response source originalImageUrl
                     (detections_id_seq s + 1);
                 detectedPlates := added_results |}.
Proof.
  intros [Hok _ _ _ Hdet _] Hdets Hne H.
  destruct (insertDetectionAndResults_result _ _ _ _ _ _ _ _ _ Hdets Hne H)
    as (i & Htx & ->).
  destruct (transaction_writes _ _ _ _ _ _ _ _ _ Hok Hne Htx)
    as (-> & _ & Edet & _ & Eres & _).
  eexists. split; [exact Eres|]. split.
  { rewrite number_rows_length, length_map. reflexivity. }
  pose proof (detection_ids_serial _ Hok) as Hserial.
  rewrite List.Forall_forall in Hserial, Hdet.
  rewrite Edet, find_app_none.
  2:{ intros d Hd. specialize (Hserial d Hd). cbn in Hserial.
      apply Z.eqb_neq. lia. }
  cbn [List.find new_detection det_id]. rewrite Z.eqb_refl.
  rewrite Eres, List.filter_app, filter_none, filter_all; [reflexivity| |].
  - intros r Hr. apply number_rows_In in Hr. destruct Hr as (k & v & Hv & ->).
    apply in_map_iff in Hv. destruct Hv as (det & <- & _). cbn.
    apply Z.eqb_refl.
  - intros r Hr. specialize (Hdet r Hr). cbn in Hdet.
    apply in_map_iff in Hdet. destruct Hdet as (d & Ed & Hd).
    specialize (Hserial d Hd). cbn in Hserial. apply Z.eqb_neq. lia.
Qed.

Lemma committed_call_witness :
  exists added_results : list DetectedPlateResultRow,
    detected_plate_results sample_store
    = detected_plate_results empty_store ++ added_results
    /\ length added_results = length (List.map sample_detection ["51A-12345"])
    /\ Some {| created :=
                 new_detection 1000 (sample_response ["51A-12345"]) SrcUpload "a.jpg" 1;
               detectedPlates := detected_plate_results sample_store |}
       = Some {| created :=
                   new_detection 1000 (sample_response ["51A-12345"]) SrcUpload
                     "a.jpg" (detections_id_seq empty_store + 1);
                 detectedPlates := added_results |}.
Proof.
  apply (committed_call_returns_the_detection no_fault 1000
           (sample_response ["51A-12345"])
           (List.map sample_detection ["51A-12345"]) SrcUpload "a.jpg"
           empty_store sample_store).
  - apply store_linked_empty.
  - reflexivity.
  - discriminate.
  - vm_compute. reflexivity.
Defined.

(** ** Responses that can and cannot be stored *)

Lemma valid_fits i records det :
  valid_result_insert (detectedPlateData i records det) = true ->
  fits_columns det = true.
Proof.
  unfold valid_result_insert, fits_columns.
  cbn [detectedPlateData ins_plateNumber ins_normalizedPlate ins_ocrEngineUsed
       ins_provinceCode ins_provinceName ins_plateType ins_detectedColor].
  intros Hv. repeat (apply andb_prop in Hv; destruct Hv as [Hv ?]).
  destruct (plate_analysis det) as [a|]; cbn [option_map fits_opt] in *;
    repeat (apply andb_true_intro; split); auto.
Qed.

Lemma fits_valid i records det :
  fits_columns det = true ->
  (forall k, licensePlateId_of records (plate_number det) <> LinkObject k) ->
  valid_result_insert (detectedPlateData i records det) = true.
Proof.
  unfold valid_result_insert, fits_columns.
  cbn [detectedPlateData ins_plateNumber ins_normalizedPlate ins_ocrEngineUsed
       ins_provinceCode ins_provinceName ins_plateType ins_detectedColor
       ins_licensePlateId].
  intros Hv Hlink. repeat (apply andb_prop in Hv; destruct Hv as [Hv ?]).
  assert (Hl : match licensePlateId_of records (plate_number det) with
               | LinkObject _ => false
               | _ => true
               end = true).
  { destruct (licensePlateId_of records (plate_number det)) as [| |k] eqn:E;
      try reflexivity. exfalso. exact (Hlink k eq_refl). }
  rewrite Hl.
  destruct (plate_analysis det) as [a|]; cbn [option_map fits_opt] in *;
    repeat (apply andb_prop in H; destruct H as [H ?]);
    repeat (apply andb_true_intro; split); auto.
Qed.

Lemma link_of_proto i dets tbl det :
  plate_number det = "__proto__" ->
  ins_licensePlateId (detectedPlateData i (records_after dets tbl) det)
  = LinkObject "__proto__".
Proof.
  intros E. cbn [detectedPlateData ins_licensePlateId].
  unfold licensePlateId_of, JsObject.get. rewrite E.
  rewrite records_after_proto, inherited_proto. reflexivity.
Qed.

Lemma transaction_int4 fault now response dets source url s s1 i :
  ingestion_transaction fault now response dets source url s = (s1, Returned i) ->
  match processing_time_ms response with
  | Some t => in_int4 (Math_round t) = true
  | None => True
  end.
Proof.
  unfold ingestion_transaction. intros H.
  apply bind_returned in H. destruct H as (s2 & ids & Hins & _).
  unfold insert_detection in Hins.
  apply bind_returned in Hins. destruct Hins as (s3 & [] & _ & Hins).
  cbn [ins_processTimeMs] in Hins.
  destruct (processing_time_ms response) as [t|]; [|exact I].
  cbn [option_map] in Hins.
  destruct (in_int4 (Math_round t)); [reflexivity|discriminate Hins].
Qed.

Lemma overflows_fits n s : overflows n s = true -> fits n s = false.
Proof.
  unfold overflows, fits. intros H.
  destruct (Nat.leb_spec (String.length s) n) as [Hle|]; [|reflexivity].
  rewrite skipn_all2 in H; [discriminate H|].
  clear H. revert n Hle. induction s as [|c s IH]; intros n Hle; [cbn; lia|].
  cbn in *. destruct n as [|n]; [lia|]. specialize (IH n). lia.
Qed.

Lemma overflows_opt_fits n o : overflows_opt n o = true -> fits_opt n o = false.
Proof. destruct o as [s|]; [apply overflows_fits|discriminate]. Qed.

Lemma overflows_columns_fits det :
  overflows_columns det = true -> fits_columns det = false.
Proof.
  unfold overflows_columns, fits_columns. intros H.
  repeat (apply Bool.orb_true_iff in H; destruct H as [H|H]).
  - rewrite (overflows_fits _ _ H). reflexivity.
  - rewrite (overflows_opt_fits _ _ H), Bool.andb_false_r. reflexivity.
  - destruct (plate_analysis det) as [a|]; [|discriminate H].
    apply Bool.andb_false_iff. right.
    repeat (apply Bool.orb_true_iff in H; destruct H as [H|H]);
      first [ rewrite (overflows_fits _ _ H)
            | rewrite (overflows_opt_fits _ _ H) ];
      rewrite ?Bool.andb_false_r; reflexivity.
Qed.

(** X15: a response that the tables cannot hold is refused as a whole.  When
    a string of one detection is longer than its column and goes on after
    the length of the column with a character that is no space, or a plate
    number reads [__proto__], or the rounded processing time is no
    [integer], the call throws the error of the ingestion writer and the
    three tables hold what they held before, the rows of the other
    detections included. *)
Theorem unstorable_response_is_refused
    (fault : statement -> bool) (now : Z) (response : ApiResponse)
    (dets : list BackendDetection) (source : detection_source)
    (originalImageUrl : string) (s : Store) (det : BackendDetection) :
  api_detections response = Some dets ->
  In det dets ->
  overflows_columns det = true
  \/ plate_number det = "__proto__"
  \/ (exists t, processing_time_ms response = Some t
                /\ in_int4 (Math_round t) = false) ->
  exists s',
    insertDetectionAndResults fault now (Some response) source originalImageUrl s
    = (s', Thrown "Failed to save detection result via query function.")
    /\ detections s' = detections s
    /\ license_plates s' = license_plates s
    /\ detected_plate_results s' = detected_plate_results s.
Proof.
  intros Hdets Hdet Hbad.
  assert (Hne : dets <> []) by (intros ->; destruct Hdet).
  assert (Htx : exists s1 e,
            db_transaction fault
              (ingestion_transaction fault now response dets source originalImageUrl) s
            = (s1, Thrown e)).
  { unfold db_transaction.
    destruct (ingestion_transaction fault now response dets source originalImageUrl s)
      as [s1 [i|e]] eqn:E; [|eauto].
    exfalso. pose proof (transaction_int4 _ _ _ _ _ _ _ _ _ E) as Hint.
    apply ingestion_transaction_returned in E.
    destruct E as (_ & _ & _ & Hvalid & _). specialize (Hvalid Hne).
    rewrite forallb_forall in Hvalid.
    pose proof (Hvalid _ (in_map _ _ _ Hdet)) as Hv.
    destruct Hbad as [Hfit|[Hproto|(t & Et & Hrange)]].
    - apply valid_fits in Hv. apply overflows_columns_fits in Hfit. congruence.
    - eapply valid_link; [exact Hv|]. apply link_of_proto, Hproto.
    - rewrite Et in Hint. congruence. }
  destruct Htx as (s1 & e & Htx). exists s1.
  destruct (db_transaction_thrown _ _ _ _ _ Htx) as (H1 & H2 & H3).
  split; [|auto].
  unfold insertDetectionAndResults. rewrite Hdets.
  destruct dets as [|d dets]; [congruence|].
  unfold try_catch, bind. rewrite Htx. reflexivity.
Qed.

Lemma unstorable_response_witness :
  exists s',
    insertDetectionAndResults no_fault 2000
      (Some (sample_response ["51A-12345"; "123456789012345678901"])) SrcApi "b.jpg"
      sample_store
    = (s', Thrown "Failed to save detection result via query function.")
    /\ detections s' = detections sample_store
    /\ license_plates s' = license_plates sample_store
    /\ detected_plate_results s' = detected_plate_results sample_store.
Proof.
  apply (unstorable_response_is_refused no_fault 2000
           (sample_response ["51A-12345"; "123456789012345678901"])
           (List.map sample_detection ["51A-12345"; "123456789012345678901"])
           SrcApi "b.jpg" sample_store (sample_detection "123456789012345678901")).
  - reflexivity.
  - right. left. reflexivity.
  - left. vm_compute. reflexivity.
Defined.

Lemma records_after_empty dets tbl :
  uniquePlateNumbers dets = [] -> records_after dets tbl = ∅.
Proof.
  intros E. unfold records_after. rewrite E.
  rewrite filter_none; [reflexivity|]. intros x _. reflexivity.
Qed.

Lemma storable_links i dets tbl :
  NoDup (List.map lp_plateNumber tbl) ->
  (forall pn, In pn (uniquePlateNumbers dets) ->
              exists p, In p tbl /\ lp_plateNumber p = pn) ->
  Forall (fun det => fits_columns det = true /\ plate_number det <> "__proto__") dets ->
  forallb valid_result_insert
    (List.map (detectedPlateData i (records_after dets tbl)) dets) = true.
Proof.
  intros Hnd Hcover Hall. apply forallb_forall. intros v Hv.
  apply in_map_iff in Hv. destruct Hv as (det & <- & Hdet).
  rewrite List.Forall_forall in Hall. destruct (Hall det Hdet) as [Hfit Hproto].
  apply fits_valid; [exact Hfit|].
  destruct (link_cases i dets tbl det Hnd Hcover Hdet) as (_ & Hblank & Hkept).
  cbn [detectedPlateData ins_licensePlateId] in Hblank, Hkept.
  intros k E.
  destruct (keeps_plate_number (plate_number det)) eqn:Hkeep.
  - destruct (Hkept eq_refl Hproto) as (p & _ & _ & El).
    rewrite El in E. destruct (lp_id p =? 0); discriminate E.
  - rewrite (Hblank eq_refl) in E. discriminate E.
Qed.

(** A storable response goes through the transaction when no statement
    fails. *)
Lemma transaction_returns fault now response dets source url s :
  (forall st, fault st = false) ->
  store_ok s ->
  dets <> [] ->
  storable response dets ->
  exists s1 i,
    ingestion_transaction fault now response dets source url s = (s1, Returned i).
Proof.
  intros Hf Hok Hne [Hall Htime].
  destruct Hok as [Hnames Hids Hserial Hdids Hdserial Hkept [Hseq1 Hseq2]].
  unfold ingestion_transaction.
  unfold bind at 1. unfold insert_detection, bind at 1, send. rewrite Hf.
  cbn [ret ins_processTimeMs].
  assert (Hint : match option_map Math_round (processing_time_ms response) with
                 | Some n => in_int4 n
                 | None => true
                 end = true).
  { destruct (processing_time_ms response); [exact Htime|reflexivity]. }
  rewrite Hint.
  destruct (Z.eqb_spec (detections_id_seq s + 1) 0) as [E0|_]; [lia|].
  match goal with |- exists s1 i, _ ?st = _ => set (s2 := st) end.
  assert (E2 : license_plates s2 = license_plates s) by reflexivity.
  assert (E2' : license_plates_id_seq s2 = license_plates_id_seq s) by reflexivity.
  clearbody s2. fold (uniquePlateNumbers dets).
  assert (Hplates : exists s3,
    (if 0 <? Z.of_nat (length (uniquePlateNumbers dets))
     then
       let* _ := insert_license_plates fault (uniquePlateNumbers dets) in
       let* fetchedPlates := select_license_plates fault (uniquePlateNumbers dets) in
       ret (licensePlateRecords_of fetchedPlates)
     else ret ∅) s2
    = (s3, Returned (records_after dets (license_plates s3)))
    /\ NoDup (List.map lp_plateNumber (license_plates s3))
    /\ (forall pn, In pn (uniquePlateNumbers dets) ->
          exists p, In p (license_plates s3) /\ lp_plateNumber p = pn)).
  { destruct (0 <? Z.of_nat (length (uniquePlateNumbers dets))) eqn:Elen.
    - assert (Hfits : forallb (fits 20) (uniquePlateNumbers dets) = true).
      { apply forallb_forall. intros pn Hpn.
        apply uniquePlateNumbers_kept in Hpn. destruct Hpn as (_ & det & Hdet & <-).
        rewrite List.Forall_forall in Hall. destruct (Hall det Hdet) as [Hfit _].
        unfold fits_columns in Hfit.
        apply andb_prop in Hfit. destruct Hfit as [Hfit _].
        apply andb_prop in Hfit. tauto. }
      destruct (upsert_plates_ok dets (license_plates s) (license_plates_id_seq s)
                  Hseq2 Hnames Hids Hserial Hkept)
        as (added & Eup & Hnames' & _).
      pose proof (fun pn => upsert_plates_covers (uniquePlateNumbers dets)
                              (license_plates s) (license_plates_id_seq s) pn
                              (unique_strings_NoDup _)) as Hcover.
      rewrite Eup in Hcover. cbn [fst] in Hcover.
      unfold bind at 1. unfold insert_license_plates, bind at 1, send.
      rewrite Hf. cbn [ret]. rewrite Hfits, E2, E2', Eup.
      unfold bind at 1. unfold select_license_plates, bind at 1, send.
      rewrite Hf. cbn [ret license_plates].
      match goal with |- exists s3, ret _ ?st = _ /\ _ => exists st end.
      split; [reflexivity|]. cbn [license_plates]. split; assumption.
    - exists s2. split; [|split].
      + unfold ret. rewrite records_after_empty; [reflexivity|].
        apply Z.ltb_ge in Elen.
        destruct (uniquePlateNumbers dets); [reflexivity|cbn in Elen; lia].
      + rewrite E2. exact Hnames.
      + apply Z.ltb_ge in Elen. intros pn Hpn.
        destruct (uniquePlateNumbers dets); [destruct Hpn|cbn in Elen; lia]. }
  destruct Hplates as (s3 & Hplates & Hnames3 & Hcover3).
  unfold bind at 1. rewrite Hplates.
  assert (Hlen : (0 <? Z.of_nat
                         (length
                            (List.map
                               (detectedPlateData (detections_id_seq s + 1)
                                  (records_after dets (license_plates s3)))
                               dets))) = true).
  { rewrite length_map. apply Z.ltb_lt. destruct dets; [congruence|cbn; lia]. }
  rewrite Hlen.
  unfold bind at 1. unfold insert_detected_plate_results, bind at 1, send.
  rewrite Hf. cbn [ret].
  rewrite (storable_links _ dets (license_plates s3) Hnames3 Hcover3 Hall).
  eexists _, _. reflexivity.
Qed.

(** X16: when no statement fails, a response with at least one detection
    that can be stored is saved: the call returns, and what it returns is
    not null but the detection it wrote, whose id is the next value of the
    sequence. *)
Theorem storable_response_is_saved
    (fault : statement -> bool) (now : Z) (response : ApiResponse)
    (dets : list BackendDetection) (source : detection_source)
    (originalImageUrl : string) (s : Store) :
  (forall st, fault st = false) ->
  store_ok s ->
  api_detections response = Some dets ->
  dets <> [] ->
  storable response dets ->
  exists (s' : Store) (d : DetectionSelect),
    insertDetectionAndResults fault now (Some response) source originalImageUrl s
    = (s', Returned (Some d))
    /\ created d
       = new_detection now response source originalImageUrl (detections_id_seq s + 1).
Proof.
  intros Hf Hok Hdets Hne Hstorable.
  destruct (transaction_returns fault now response dets source originalImageUrl s
              Hf Hok Hne Hstorable) as (s1 & i & Htx).
  destruct (transaction_writes _ _ _ _ _ _ _ _ _ Hok Hne Htx)
    as (-> & _ & Edet & _).
  pose proof (detection_ids_serial _ Hok) as Hserial.
  rewrite List.Forall_forall in Hserial.
  unfold insertDetectionAndResults. rewrite Hdets.
  destruct dets as [|det dets]; [congruence|].
  unfold try_catch. unfold bind at 1. unfold db_transaction.
  rewrite Htx, Hf.
  unfold bind at 1. unfold find_first_detection, bind at 1, send.
  rewrite Hf. cbn [ret]. rewrite Edet, find_app_none.
  2:{ intros d Hd. specialize (Hserial d Hd). cbn in Hserial.
      apply Z.eqb_neq. lia. }
  cbn [List.find new_detection det_id]. rewrite Z.eqb_refl.
  eexists _, _. split; reflexivity.
Qed.

Lemma storable_response_witness :
  exists (s' : Store) (d : DetectionSelect),
    insertDetectionAndResults no_fault 3000 (Some analysed_response) SrcCamera
      "c.jpg" sample_store
    = (s', Returned (Some d))
    /\ created d
       = new_detection 3000 analysed_response SrcCamera "c.jpg"
           (detections_id_seq sample_store + 1).
Proof.
  apply (storable_response_is_saved no_fault 3000 analysed_response
           [analysed_detection; sample_detection " "] SrcCamera "c.jpg"
           sample_store).
  - intros st. reflexivity.
  - apply sample_store_ok.
  - reflexivity.
  - discriminate.
  - split.
    + repeat constructor; discriminate.
    + vm_compute. reflexivity.
Defined.

(** ** The [/history] route *)

Lemma assign_value_number columnId is_min v filters :
  assign_value columnId is_min (JNum v) filters
  = assign_bound columnId is_min v filters.
Proof.
  induction filters as [|existing filters IH]; cbn [assign_value assign_bound];
    [reflexivity|].
  destruct (String.eqb (filter_id existing) columnId); [reflexivity|].
  rewrite IH. reflexivity.
Qed.

Lemma assign_bound_fresh columnId is_min v filters :
  Forall (fun f => filter_id f <> columnId) filters ->
  assign_bound columnId is_min v filters
  = filters ++ assign_bound columnId is_min v [].
Proof.
  induction 1 as [|f filters Hf _ IH]; [reflexivity|].
  cbn [assign_bound app].
  destruct (String.eqb_spec (filter_id f) columnId); [contradiction|].
  rewrite IH. reflexivity.
Qed.

Lemma assign_bound_found columnId is_min v filters f rest :
  Forall (fun f => filter_id f <> columnId) filters ->
  filter_id f = columnId ->
  assign_bound columnId is_min v (filters ++ f :: rest)
  = filters ++ assign_bound columnId is_min v [f] ++ rest.
Proof.
  intros H Hf. induction H as [|x filters Hx _ IH].
  - cbn [app assign_bound]. destruct (String.eqb_spec (filter_id f) columnId);
      [reflexivity|contradiction].
  - cbn [assign_bound app].
    destruct (String.eqb_spec (filter_id x) columnId); [contradiction|].
    rewrite IH. reflexivity.
Qed.

(** The two bounds of one field, written into filters that have no filter
    of this field yet, make one filter, put at the end. *)
Lemma range_filters_fresh columnId min max filters :
  Forall (fun f => filter_id f <> columnId) filters ->
  range_filters columnId min max filters
  = filters ++ bounds_filter columnId min max.
Proof.
  intros H. unfold range_filters, bounds_filter, range_value.
  destruct min as [a|], max as [b|].
  - rewrite (assign_bound_fresh columnId true a filters H).
    cbn [assign_bound]. rewrite (assign_bound_found columnId false b filters _ [] H)
      by reflexivity.
    cbn [assign_bound filter_id]. rewrite String.eqb_refl. reflexivity.
  - rewrite (assign_bound_fresh columnId true a filters H). reflexivity.
  - rewrite (assign_bound_fresh columnId false b filters H). reflexivity.
  - rewrite app_nil_r. reflexivity.
Qed.

Lemma step_ignored key value state :
  string_includes ["pageIndex"; "pageSize"; "sortId"; "sortDesc"] key = true ->
  history_step state (key, value) = state.
Proof.
  intros H. unfold history_step. cbn [fst snd]. rewrite H.
  destruct value; reflexivity.
Qed.

Lemma step_text key v filters dateFilter :
  In key ["plateNumber"; "normalizedPlate"; "provinceName"; "ocrEngine";
          "typeVehicle"; "source"] ->
  history_step (filters, dateFilter) (key, optional JStr v)
  = (filters ++ one_filter key (option_map JStr v), dateFilter).
Proof.
  intros H. destruct v as [x|]; cbn [optional option_map one_filter].
  - repeat (destruct H as [<-|H]; [reflexivity|]). destruct H.
  - rewrite app_nil_r. reflexivity.
Qed.

Lemma step_validity v filters dateFilter :
  history_step (filters, dateFilter) ("isValidFormat", optional enum_value v)
  = (filters ++ one_filter "isValidFormat" (option_map JBool v), dateFilter).
Proof.
  destruct v as [[]|]; cbn [optional option_map one_filter];
    [reflexivity|reflexivity|].
  rewrite app_nil_r. reflexivity.
Qed.

Lemma step_bound key columnId is_min v filters dateFilter :
  In (key, columnId, is_min)
    [("confidenceMin", "confidence", true); ("confidenceMax", "confidence", false);
     ("processTimeMin", "processTime", true);
     ("processTimeMax", "processTime", false)] ->
  history_step (filters, dateFilter) (key, optional JNum v)
  = (match v with
     | Some x => assign_bound columnId is_min x filters
     | None => filters
     end, dateFilter).
Proof.
  intros H. destruct v as [x|]; cbn [optional].
  - rewrite <- assign_value_number.
    repeat (destruct H as [H|H]; [inversion H; subst; reflexivity|]). destruct H.
  - reflexivity.
Qed.

Lemma step_bounds keyMin keyMax columnId min max filters dateFilter :
  In (keyMin, columnId, true)
    [("confidenceMin", "confidence", true);
     ("processTimeMin", "processTime", true)] ->
  In (keyMax, columnId, false)
    [("confidenceMax", "confidence", false);
     ("processTimeMax", "processTime", false)] ->
  Forall (fun f => filter_id f <> columnId) filters ->
  history_step
    (history_step (filters, dateFilter) (keyMin, optional JNum min))
    (keyMax, optional JNum max)
  = (filters ++ bounds_filter columnId min max, dateFilter).
Proof.
  intros Hmin Hmax Hfresh.
  rewrite (step_bound keyMin columnId true), (step_bound keyMax columnId false).
  - rewrite <- (range_filters_fresh columnId min max filters Hfresh).
    reflexivity.
  - destruct Hmax as [H|[H|[]]]; inversion H; subst; cbn; tauto.
  - destruct Hmin as [H|[H|[]]]; inversion H; subst; cbn; tauto.
Qed.

Lemma step_date key field v filters dateFilter :
  In (key, field) [("dateFrom", "from"); ("dateTo", "to")] ->
  history_step (filters, dateFilter) (key, optional JDate v)
  = (filters,
     match v with
     | Some t => set_field field (JDate t) dateFilter
     | None => dateFilter
     end).
Proof.
  intros H. destruct v as [t|]; cbn [optional]; [|reflexivity].
  repeat (destruct H as [H|H]; [inversion H; subst; reflexivity|]). destruct H.
Qed.

Lemma one_filter_ids key v columnId :
  key <> columnId ->
  Forall (fun f => filter_id f <> columnId) (one_filter key v).
Proof.
  intros H. destruct v; cbn; repeat constructor. exact H.
Qed.

Lemma bounds_filter_ids key min max columnId :
  key <> columnId ->
  Forall (fun f => filter_id f <> columnId) (bounds_filter key min max).
Proof.
  intros H. unfold bounds_filter.
  destruct min, max; repeat constructor; exact H.
Qed.

Lemma optional_map {A : Type} (f : A -> Q) (v : option A) :
  optional (fun n => JNum (f n)) v = optional JNum (option_map f v).
Proof. destruct v; reflexivity. Qed.

(** X17: the filters the [/history] route builds from a validated query: one
    filter per text parameter present, in the order of the schema, then the
    [isValidFormat] filter holding a boolean, then one [confidence] filter
    holding both bounds and one [processTime] filter holding both bounds,
    and last one [date] filter holding both days; a parameter that is absent
    gives no filter. *)
Theorem history_route_builds_one_filter_per_field (q : HistoryQuery.params) :
  history_filters q
  = one_filter "plateNumber" (option_map JStr (HistoryQuery.plateNumber q))
    ++ one_filter "normalizedPlate" (option_map JStr (HistoryQuery.normalizedPlate q))
    ++ one_filter "provinceName" (option_map JStr (HistoryQuery.provinceName q))
    ++ one_filter "ocrEngine" (option_map JStr (HistoryQuery.ocrEngine q))
    ++ one_filter "typeVehicle" (option_map JStr (HistoryQuery.typeVehicle q))
    ++ one_filter "source" (option_map JStr (HistoryQuery.source q))
    ++ one_filter "isValidFormat" (option_map JBool (HistoryQuery.isValidFormat q))
    ++ bounds_filter "confidence" (HistoryQuery.confidenceMin q)
         (HistoryQuery.confidenceMax q)
    ++ bounds_filter "processTime"
         (option_map inject_Z (HistoryQuery.processTimeMin q))
         (option_map inject_Z (HistoryQuery.processTimeMax q))
    ++ days_filter (HistoryQuery.dateFrom q) (HistoryQuery.dateTo q).
Proof.
  unfold history_filters, Object_entries. cbn [fold_left].
  rewrite (step_ignored "pageIndex"), (step_ignored "pageSize"),
    (step_ignored "sortId"), (step_ignored "sortDesc") by reflexivity.
  rewrite (step_text "plateNumber"), (step_text "normalizedPlate"),
    (step_text "provinceName"), (step_text "ocrEngine"),
    (step_text "typeVehicle"), (step_text "source") by (cbn; tauto).
  rewrite step_validity.
  rewrite (optional_map inject_Z (HistoryQuery.processTimeMin q)),
    (optional_map inject_Z (HistoryQuery.processTimeMax q)).
  rewrite (step_bounds "confidenceMin" "confidenceMax" "confidence");
    [|cbn; tauto|cbn; tauto|].
  2:{ repeat (apply Forall_app; split); try (apply one_filter_ids; discriminate).
      constructor. }
  rewrite (step_bounds "processTimeMin" "processTimeMax" "processTime");
    [|cbn; tauto|cbn; tauto|].
  2:{ repeat (apply Forall_app; split);
        try (apply one_filter_ids; discriminate);
        try (apply bounds_filter_ids; discriminate).
      constructor. }
  rewrite (step_date "dateFrom" "from"), (step_date "dateTo" "to") by (cbn; tauto).
  cbn [fst snd app]. rewrite <- !app_assoc.
  destruct (HistoryQuery.dateFrom q) as [f|], (HistoryQuery.dateTo q) as [t|];
    cbn [set_field days_filter]; rewrite ?app_nil_r; reflexivity.
Qed.

Lemma sortColumnMap_empty : sortColumnMap !! "" = None.
Proof. vm_compute. reflexivity. Qed.

(** The ordering keys of the [/history] route. *)
Lemma history_sorting_keys (q : HistoryQuery.params) :
  order_keys (parseSortingToDrizzle (history_sorting q))
  = match HistoryQuery.sortId q with
    | Some id =>
        match sortColumnMap !! id with
        | Some c =>
            [(c, match HistoryQuery.sortDesc q with
                 | Some b => b
                 | None => String.eqb id "date"
                 end)]
        | None =>
            if JsObject.inherited id then [] else [(ColDetectionTime, true)]
        end
    | None => [(ColDetectionTime, true)]
    end.
Proof.
  unfold history_sorting.
  destruct (HistoryQuery.sortId q) as [id|]; [|reflexivity].
  destruct (String.eqb_spec id "") as [->|Hne].
  { cbn [truthy_string String.eqb negb]. rewrite sortColumnMap_empty.
    reflexivity. }
  assert (Ht : truthy_string id = true).
  { unfold truthy_string. destruct (String.eqb_spec id ""); [contradiction|reflexivity]. }
  rewrite Ht. unfold parseSortingToDrizzle.
  cbn [length List.map sort_id sort_desc].
  change (Z.of_nat 1 =? 0) with false. cbv iota.
  unfold JsObject.get.
  destruct (sortColumnMap !! id) as [c|].
  - destruct (HistoryQuery.sortDesc q) as [[]|]; cbn [optional enum_value].
    + reflexivity.
    + cbn [strict_equals_string truthy negb orb andb].
      replace (String.eqb "false" "true") with false by reflexivity.
      replace (truthy_string "false") with true by reflexivity.
      cbn [orb andb negb]. rewrite Bool.andb_false_r. reflexivity.
    + cbn [strict_equals_string truthy negb orb andb].
      rewrite Bool.andb_true_r. destruct (String.eqb id "date"); reflexivity.
  - destruct (JsObject.inherited id).
    + match goal with |- order_keys [if ?b then _ else _] = _ => destruct b end;
        reflexivity.
    + reflexivity.
Qed.

(** X18: the [/history] route answers a validated query with the outcome of
    [fetchDetectionHistory] on the pagination, the sort spec and the filters
    built from the query: status 200 and the page when it returns one,
    status 500 and its message when it throws, as it does for a bound that
    the schema lets through and the store cannot read.  The page has at most
    [pageSize] rows, itself at most 100, and every row passes the filters.
    The rows come newest first when the query has no sort id or one that is
    neither a key of [sortColumnMap] nor a name inherited from
    [Object.prototype]; they are ordered by the column of a sort id that is
    a key, descending when [sortDesc] is [true] or when it is absent and the
    id is [date], ascending in the other cases. *)
Theorem history_route_answers (tz : Z) (q : HistoryQuery.params) (s : Store) :
  historyQuerySchema q = true ->
  NoDup (List.map lp_id (license_plates s)) ->
  (forall result : FetchHistoryResult,
     fetchDetectionHistory tz (history_pagination q) (history_sorting q)
       (history_filters q) s = Returned result ->
     history_route tz (Some q) s = {| status := 200; body := HistoryResult result |}
     /\ Z.of_nat (length (rows result)) <= HistoryQuery.pageSize q <= 100
     /\ Forall
          (fun i =>
             matches (parseFiltersToDrizzle tz (history_filters q)) (unmapped i) = true)
          (rows result)
     /\ (HistoryQuery.sortId q = None -> Sorted recent_first (rows result))
     /\ (forall id,
           HistoryQuery.sortId q = Some id -> sortColumnMap !! id = None ->
           JsObject.inherited id = false ->
           Sorted recent_first (rows result))
     /\ (forall id c,
           HistoryQuery.sortId q = Some id -> sortColumnMap !! id = Some c ->
           Sorted
             (fun a b =>
                rows_leb
                  [(c, match HistoryQuery.sortDesc q with
                       | Some b => b
                       | None => String.eqb id "date"
                       end)]
                  (unmapped a) (unmapped b) = true)
             (rows result)))
  /\ (forall message : string,
        fetchDetectionHistory tz (history_pagination q) (history_sorting q)
          (history_filters q) s = Thrown message ->
        history_route tz (Some q) s
        = {| status := 500;
             body := HistoryFailure "Failed to fetch detection history"
                       "Failed to fetch detection history from database." |})
  /\ (readable_where (parseFiltersToDrizzle tz (history_filters q)) = false ->
      history_route tz (Some q) s
      = {| status := 500;
           body := HistoryFailure "Failed to fetch detection history"
                     "Failed to fetch detection history from database." |}).
Proof.
  intros Hschema Hkey.
  unfold historyQuerySchema in Hschema.
  repeat (apply andb_prop in Hschema; destruct Hschema as [Hschema ?]).
  assert (Hindex : 0 <= HistoryQuery.pageIndex q) by (apply Z.leb_le; assumption).
  assert (Hsize : 1 <= HistoryQuery.pageSize q <= 100)
    by (split; apply Z.leb_le; assumption).
  pose proof (fetchDetectionHistory_value tz (history_pagination q)
                (history_sorting q) (history_filters q) s Hkey Hindex
                ltac:(cbn; lia)) as Hvalue.
  split; [|split].
  - intros result Hfetch.
    split; [unfold history_route; rewrite Hfetch; reflexivity|].
    rewrite Hfetch in Hvalue.
    destruct (readable_where (parseFiltersToDrizzle tz (history_filters q)));
      [|discriminate Hvalue].
    inversion Hvalue; subst result; clear Hvalue Hfetch.
    cbn [rows history_pagination pageIndex pageSize].
    rewrite (history_sorting_keys q).
    set (matching := List.filter (matches (parseFiltersToDrizzle tz (history_filters q)))
                       (joined_rows s true)).
    assert (Hsorted : forall keys,
      Sorted (fun a b => rows_leb keys (unmapped a) (unmapped b) = true)
        (List.map mappedRow
           (firstn (Z.to_nat (HistoryQuery.pageSize q))
              (skipn (Z.to_nat (HistoryQuery.pageIndex q * HistoryQuery.pageSize q))
                 (sort_by (rows_leb keys) matching))))).
    { intros keys. apply Sorted_map, Sorted_firstn, Sorted_skipn.
      eapply Sorted_impl; [|apply sort_by_Sorted, rows_leb_total].
      intros [r1 d1 p1] [r2 d2 p2] H'. exact H'. }
    split.
    { rewrite length_map. split; [|lia].
      match goal with
      | |- Z.of_nat (length (firstn ?n ?l)) <= _ =>
          pose proof (firstn_le_length n l) as Hlen
      end.
      lia. }
    split.
    { apply List.Forall_forall. intros i Hi.
      apply in_map_iff in Hi. destruct Hi as (x & <- & Hx).
      apply In_firstn, In_skipn in Hx.
      apply (Permutation_in _ (sort_by_Permutation _ _)) in Hx.
      apply filter_In in Hx. rewrite unmapped_mappedRow. apply Hx. }
    split; [|split].
    + intros E. rewrite E.
      eapply Sorted_impl; [|apply Hsorted]. apply recent_first_of_leb.
    + intros id E Hnone Hin. rewrite E, Hnone, Hin.
      eapply Sorted_impl; [|apply Hsorted]. apply recent_first_of_leb.
    + intros id c E Hc. rewrite E, Hc. apply Hsorted.
  - intros message Hfetch. unfold history_route. rewrite Hfetch.
    rewrite Hfetch in Hvalue.
    destruct (readable_where (parseFiltersToDrizzle tz (history_filters q)));
      [discriminate Hvalue|].
    inversion Hvalue. reflexivity.
  - intros Hread. unfold history_route. rewrite Hvalue, Hread. reflexivity.
Qed.

Lemma history_route_witness :
  (forall result : FetchHistoryResult,
     fetchDetectionHistory 0 (history_pagination sample_query)
       (history_sorting sample_query) (history_filters sample_query)
       sample_store_after = Returned result ->
     history_route 0 (Some sample_query) sample_store_after
     = {| status := 200; body := HistoryResult result |}
     /\ Z.of_nat (length (rows result)) <= HistoryQuery.pageSize sample_query <= 100
     /\ Forall
          (fun i =>
             matches (parseFiltersToDrizzle 0 (history_filters sample_query))
               (unmapped i) = true)
          (rows result)
     /\ (HistoryQuery.sortId sample_query = None -> Sorted recent_first (rows result))
     /\ (forall id,
           HistoryQuery.sortId sample_query = Some id -> sortColumnMap !! id = None ->
           JsObject.inherited id = false ->
           Sorted recent_first (rows result))
     /\ (forall id c,
           HistoryQuery.sortId sample_query = Some id -> sortColumnMap !! id = Some c ->
           Sorted
             (fun a b =>
                rows_leb
                  [(c, match HistoryQuery.sortDesc sample_query with
                       | Some b => b
                       | None => String.eqb id "date"
                       end)]
                  (unmapped a) (unmapped b) = true)
             (rows result)))
  /\ (forall message : string,
        fetchDetectionHistory 0 (history_pagination sample_query)
          (history_sorting sample_query) (history_filters sample_query)
          sample_store_after = Thrown message ->
        history_route 0 (Some sample_query) sample_store_after
        = {| status := 500;
             body := HistoryFailure "Failed to fetch detection history"
                       "Failed to fetch detection history from database." |})
  /\ (readable_where (parseFiltersToDrizzle 0 (history_filters sample_query))
      = false ->
      history_route 0 (Some sample_query) sample_store_after
      = {| status := 500;
           body := HistoryFailure "Failed to fetch detection history"
                     "Failed to fetch detection history from database." |}).
Proof.
  apply (history_route_answers 0 sample_query sample_store_after).
  - vm_compute. reflexivity.
  - apply (bool_decide_unpack _). vm_compute. exact I.
Defined.

(** The sample query is answered 200 with a page of one row; a query whose
    [processTimeMax] is 3000000000 passes the schema and is answered 500. *)
Lemma history_route_samples :
  (exists result,
     history_route 0 (Some sample_query) sample_store_after
     = {| status := 200; body := HistoryResult result |}
     /\ length (rows result) = 1%nat)
  /\ historyQuerySchema sample_query_out_of_range = true
  /\ history_route 0 (Some sample_query_out_of_range) sample_store_after
     = {| status := 500;
          body := HistoryFailure "Failed to fetch detection history"
                    "Failed to fetch detection history from database." |}.
Proof.
  split; [|split].
  - eexists. split; [vm_compute; reflexivity|reflexivity].
  - vm_compute. reflexivity.
  - vm_compute. reflexivity.
Qed.

(** ** The upload routes *)

Lemma thrown_is_the_one_error fault now apiResponse source url s s' e :
  insertDetectionAndResults fault now apiResponse source url s = (s', Thrown e) ->
  e = "Failed to save detection result via query function."
  /\ (fault FindFirstDetection = false -> same_tables s s').
Proof.
  unfold insertDetectionAndResults. intros H.
  destruct apiResponse as [response|]; [|discriminate H].
  destruct (api_detections response) as [[|det dets]|]; try discriminate H.
  unfold try_catch in H. unfold bind at 1 in H.
  destruct (db_transaction fault _ s) as [s1 [i|e1]] eqn:Htx.
  - unfold bind at 1 in H. unfold find_first_detection, bind at 1, send in H.
    destruct (fault FindFirstDetection) eqn:F; cbn in H.
    + inversion H; subst. split; [reflexivity|discriminate].
    + discriminate H.
  - cbn in H. inversion H; subst. split; [reflexivity|]. intros _.
    exact (db_transaction_thrown _ _ _ _ _ Htx).
Qed.

Lemma process_image_catch_status message :
  status (process_image_catch message) <> 200.
Proof.
  unfold process_image_catch.
  destruct (includes "fetch failed" message || includes "ECONNREFUSED" message);
    [cbn; lia|].
  destruct (includes "multipart" message); cbn; lia.
Qed.

Lemma process_image_url_catch_status message :
  status (process_image_url_catch message) <> 200.
Proof.
  unfold process_image_url_catch.
  destruct (includes "fetch failed" message || includes "ECONNREFUSED" message);
    cbn; lia.
Qed.

Lemma same_tables_refl s : same_tables s s.
Proof. repeat split. Qed.

(** X19: [POST /process-image] answers 200 exactly when the field [file] is
    a file of an image type, the recognition service answered with an [ok]
    status and a JSON body, and the ingestion writer returned; the body is
    then the body of the service, unchanged.  When the service answered with
    another status, nothing is written and its body is forwarded with its
    status if that is 415, 413 or 422, and with 500 otherwise.  When the
    ingestion writer throws, the answer is 500 with the message of the
    writer as details, and the result of the service is not sent.  Unless
    the read-back after the commit is what failed, an answer other than 200
    leaves the three tables as they were. *)
Theorem upload_route_outcomes
    (fault : statement -> bool) (now : Z)
    (formData : outcome (option FormDataEntryValue))
    (fetch : outcome FetchResponse) (s s' : Store) (resp : Response UploadBody) :
  process_image fault now formData fetch s = (s', resp) ->
  (status resp = 200
   <-> exists name type response result dbResult,
         formData = Returned (Some (EntryFile name type))
         /\ String.prefix "image/" type = true
         /\ fetch = Returned response
         /\ response_ok response = true
         /\ response_json response = Returned result
         /\ insertDetectionAndResults fault now result SrcUpload name s
            = (s', Returned dbResult)
         /\ body resp = Forwarded result)
  /\ (forall name type response result,
        formData = Returned (Some (EntryFile name type)) ->
        String.prefix "image/" type = true ->
        fetch = Returned response ->
        response_json response = Returned result ->
        (response_ok response = false ->
         s' = s /\ body resp = Forwarded result
         /\ status resp
            = if (response_status response =? 415)
                 || (response_status response =? 413)
                 || (response_status response =? 422)
              then response_status response
              else 500)
        /\ (forall e,
              response_ok response = true ->
              insertDetectionAndResults fault now result SrcUpload name s
              = (s', Thrown e) ->
              resp = {| status := 500;
                        body :=
                          Failure "An unexpected server error occurred."
                            "Failed to save detection result via query function." |}))
  /\ (status resp <> 200 -> fault FindFirstDetection = false -> same_tables s s').
Proof.
  intros H. unfold process_image in H.
  destruct formData as [[[name type|value]|]|message].
  2,3: inversion H; subst; cbn [status]; split;
         [split; [discriminate|intros (? & ? & ? & ? & ? & E & _); discriminate E]|];
         split; [intros ? ? ? ? E; discriminate E|intros; apply same_tables_refl].
  2: { inversion H; subst. split; [|split].
       - split; [intros E; destruct (process_image_catch_status _ E)|].
         intros (? & ? & ? & ? & ? & E & _). discriminate E.
       - intros ? ? ? ? E. discriminate E.
       - intros; apply same_tables_refl. }
  destruct (String.prefix "image/" type) eqn:Htype; cbn [negb] in H.
  2: { inversion H; subst. cbn [status]. split; [|split].
       - split; [discriminate|].
         intros (? & ? & ? & ? & ? & E & Ht & _). inversion E; subst. congruence.
       - intros ? ? ? ? E Ht. inversion E; subst. congruence.
       - intros; apply same_tables_refl. }
  destruct fetch as [response|message].
  2: { inversion H; subst. split; [|split].
       - split; [intros E; destruct (process_image_catch_status _ E)|].
         intros (? & ? & ? & ? & ? & _ & _ & E & _). discriminate E.
       - intros ? ? ? ? _ _ E. discriminate E.
       - intros; apply same_tables_refl. }
  destruct (response_json response) as [result|message] eqn:Hjson.
  2: { inversion H; subst. split; [|split].
       - split; [intros E; destruct (process_image_catch_status _ E)|].
         intros (? & ? & ? & ? & ? & _ & _ & E & _ & E' & _).
         inversion E; subst. congruence.
       - intros ? ? ? ? _ _ E E'. inversion E; subst. congruence.
       - intros; apply same_tables_refl. }
  destruct (response_ok response) eqn:Hok; cbn [negb] in H.
  - destruct (insertDetectionAndResults fault now result SrcUpload name s)
      as [s1 [dbResult|e]] eqn:Hdb; inversion H; subst; clear H.
    + cbn [status body]. split; [|split].
      * split; [|reflexivity]. intros _.
        exists name, type, response, result, dbResult. repeat split; assumption.
      * intros ? ? ? ? E _ E1 E2. inversion E; inversion E1; subst.
        rewrite Hjson in E2. inversion E2; subst.
        split; [congruence|]. intros e _ E3. rewrite Hdb in E3. discriminate E3.
      * intros Hne. contradiction.
    + destruct (thrown_is_the_one_error _ _ _ _ _ _ _ _ Hdb) as [-> Hsame].
      split; [|split].
      * split; [intros E; destruct (process_image_catch_status _ E)|].
        intros (? & ? & ? & ? & ? & E & _ & E1 & _ & E2 & E3 & _).
        inversion E; inversion E1; subst. rewrite Hjson in E2.
        inversion E2; subst. rewrite Hdb in E3. discriminate E3.
      * intros ? ? ? ? E _ E1 E2. inversion E; inversion E1; subst.
        rewrite Hjson in E2. inversion E2; subst.
        split; [congruence|]. intros e _ _. reflexivity.
      * intros _ F. exact (Hsame F).
  - inversion H; subst; clear H. cbn [status body]. split; [|split].
    + split.
      * intros E. exfalso.
        destruct ((response_status response =? 415)
                  || (response_status response =? 413)
                  || (response_status response =? 422)) eqn:Ecode; [|discriminate E].
        unfold response_ok in Hok. rewrite E in Ecode, Hok. discriminate Hok.
      * intros (? & ? & ? & ? & ? & E & _ & E1 & E2 & _).
        inversion E; inversion E1; subst. congruence.
    + intros ? ? ? ? E _ E1 E2. inversion E; inversion E1; subst.
      rewrite Hjson in E2. inversion E2; subst.
      split; [intros _; repeat split|]. intros e E3. congruence.
    + intros; apply same_tables_refl.
Qed.

Lemma upload_route_witness :
  (status {| status := 200;
             body := Forwarded (Some (sample_response second_plates)) |} = 200
   <-> exists name type response result dbResult,
         Returned (Some (EntryFile "b.jpg" "image/jpeg"))
         = Returned (Some (EntryFile name type))
         /\ String.prefix "image/" type = true
         /\ Returned sample_upload = Returned response
         /\ response_ok response = true
         /\ response_json response = Returned result
         /\ insertDetectionAndResults no_fault 2000 result SrcUpload name sample_store
            = (sample_store_twice_images, Returned dbResult)
         /\ body {| status := 200;
                    body := Forwarded (Some (sample_response second_plates)) |}
            = Forwarded result)
  /\ (forall name type response result,
        Returned (Some (EntryFile "b.jpg" "image/jpeg"))
        = Returned (Some (EntryFile name type)) ->
        String.prefix "image/" type = true ->
        Returned sample_upload = Returned response ->
        response_json response = Returned result ->
        (response_ok response = false ->
         sample_store_twice_images = sample_store
         /\ body {| status := 200;
                    body := Forwarded (Some (sample_response second_plates)) |}
            = Forwarded result
         /\ status {| status := 200;
                      body := Forwarded (Some (sample_response second_plates)) |}
            = if (response_status response =? 415)
                 || (response_status response =? 413)
                 || (response_status response =? 422)
              then response_status response
              else 500)
        /\ (forall e,
              response_ok response = true ->
              insertDetectionAndResults no_fault 2000 result SrcUpload name sample_store
              = (sample_store_twice_images, Thrown e) ->
              {| status := 200;
                 body := Forwarded (Some (sample_response second_plates)) |}
              = {| status := 500;
                   body :=
                     Failure "An unexpected server error occurred."
                       "Failed to save detection result via query function." |}))
  /\ (status {| status := 200;
                body := Forwarded (Some (sample_response second_plates)) |} <> 200 ->
      no_fault FindFirstDetection = false ->
      same_tables sample_store sample_store_twice_images).
Proof.
  apply (upload_route_outcomes no_fault 2000
           (Returned (Some (EntryFile "b.jpg" "image/jpeg")))
           (Returned sample_upload) sample_store sample_store_twice_images).
  vm_compute. reflexivity.
Defined.

(** X20: [POST /process-image-url] answers 200 exactly when the body has a
    non-empty [url] that parses, the recognition service answered with an
    [ok] status and a JSON body, and the ingestion writer, called with the
    source [api] and the url as image url, returned.  When the service
    answered with another status, nothing is written and its body is
    forwarded with the status 422 if that was its status and 500 otherwise,
    so that 413 and 415 are not passed on as they are for an uploaded file.
    When the ingestion writer throws, the answer is 500 with the message of
    the writer as details.  Unless the read-back after the commit is what
    failed, an answer other than 200 leaves the three tables as they were. *)
Theorem url_route_outcomes
    (fault : statement -> bool) (now : Z) (URL_parses : string -> bool)
    (json : outcome (option string))
    (fetch : outcome FetchResponse) (s s' : Store) (resp : Response UploadBody) :
  process_image_url fault now URL_parses json fetch s = (s', resp) ->
  (status resp = 200
   <-> exists url response result dbResult,
         json = Returned (Some url)
         /\ url <> "" /\ URL_parses url = true
         /\ fetch = Returned response
         /\ response_ok response = true
         /\ response_json response = Returned result
         /\ insertDetectionAndResults fault now result SrcApi url s
            = (s', Returned dbResult)
         /\ body resp = Forwarded result)
  /\ (forall url response result,
        json = Returned (Some url) ->
        url <> "" -> URL_parses url = true ->
        fetch = Returned response ->
        response_json response = Returned result ->
        (response_ok response = false ->
         s' = s /\ body resp = Forwarded result
         /\ status resp = if response_status response =? 422 then 422 else 500)
        /\ (forall e,
              response_ok response = true ->
              insertDetectionAndResults fault now result SrcApi url s
              = (s', Thrown e) ->
              resp = {| status := 500;
                        body :=
                          Failure
                            "An unexpected server error occurred processing the URL."
                            "Failed to save detection result via query function." |}))
  /\ (status resp <> 200 -> fault FindFirstDetection = false -> same_tables s s').
Proof.
  intros H. unfold process_image_url in H.
  destruct json as [[url|]|message].
  2: { inversion H; subst; cbn [status]. split; [|split].
       - split; [discriminate|intros (? & ? & ? & ? & E & _); discriminate E].
       - intros ? ? ? E. discriminate E.
       - intros; apply same_tables_refl. }
  2: { inversion H; subst. split; [|split].
       - split; [intros E; destruct (process_image_url_catch_status _ E)|].
         intros (? & ? & ? & ? & E & _). discriminate E.
       - intros ? ? ? E. discriminate E.
       - intros; apply same_tables_refl. }
  unfold truthy_string in H.
  destruct (String.eqb_spec url "") as [Hempty|Hurl]; cbn [negb] in H.
  { inversion H; subst; cbn [status]. split; [|split].
    - split; [discriminate|].
      intros (? & ? & ? & ? & E & Hne & _). inversion E; subst. congruence.
    - intros ? ? ? E Hne. inversion E; subst. congruence.
    - intros; apply same_tables_refl. }
  destruct (URL_parses url) eqn:Hparses; cbn [negb] in H.
  2: { inversion H; subst; cbn [status]. split; [|split].
       - split; [discriminate|].
         intros (? & ? & ? & ? & E & _ & Hp & _). inversion E; subst. congruence.
       - intros ? ? ? E _ Hp. inversion E; subst. congruence.
       - intros; apply same_tables_refl. }
  destruct fetch as [response|message].
  2: { inversion H; subst. split; [|split].
       - split; [intros E; destruct (process_image_url_catch_status _ E)|].
         intros (? & ? & ? & ? & _ & _ & _ & E & _). discriminate E.
       - intros ? ? ? _ _ _ E. discriminate E.
       - intros; apply same_tables_refl. }
  destruct (response_json response) as [result|message] eqn:Hjson.
  2: { inversion H; subst. split; [|split].
       - split; [intros E; destruct (process_image_url_catch_status _ E)|].
         intros (? & ? & ? & ? & _ & _ & _ & E & _ & E' & _).
         inversion E; subst. congruence.
       - intros ? ? ? _ _ _ E E'. inversion E; subst. congruence.
       - intros; apply same_tables_refl. }
  destruct (response_ok response) eqn:Hok; cbn [negb] in H.
  - destruct (insertDetectionAndResults fault now result SrcApi url s)
      as [s1 [dbResult|e]] eqn:Hdb; inversion H; subst; clear H.
    + cbn [status body]. split; [|split].
      * split; [|reflexivity]. intros _.
        exists url, response, result, dbResult. repeat split; assumption.
      * intros ? ? ? E _ _ E1 E2. inversion E; inversion E1; subst.
        rewrite Hjson in E2. inversion E2; subst.
        split; [congruence|]. intros e _ E3. rewrite Hdb in E3. discriminate E3.
      * intros Hne. contradiction.
    + destruct (thrown_is_the_one_error _ _ _ _ _ _ _ _ Hdb) as [-> Hsame].
      split; [|split].
      * split; [intros E; destruct (process_image_url_catch_status _ E)|].
        intros (? & ? & ? & ? & E & _ & _ & E1 & _ & E2 & E3 & _).
        inversion E; inversion E1; subst. rewrite Hjson in E2.
        inversion E2; subst. rewrite Hdb in E3. discriminate E3.
      * intros ? ? ? E _ _ E1 E2. inversion E; inversion E1; subst.
        rewrite Hjson in E2. inversion E2; subst.
        split; [congruence|]. intros e _ _. reflexivity.
      * intros _ F. exact (Hsame F).
  - inversion H; subst; clear H. cbn [status body]. split; [|split].
    + split.
      * intros E. exfalso.
        destruct (response_status response =? 422); discriminate E.
      * intros (? & ? & ? & ? & E & _ & _ & E1 & E2 & _).
        inversion E; inversion E1; subst. congruence.
    + intros ? ? ? E _ _ E1 E2. inversion E; inversion E1; subst.
      rewrite Hjson in E2. inversion E2; subst.
      split; [intros _; repeat split|]. intros e E3. congruence.
    + intros; apply same_tables_refl.
Qed.

Lemma url_route_witness :
  (status {| status := 422; body := Forwarded None |} = 200
   <-> exists url response result dbResult,
         Returned (Some "http://example.org/a.jpg") = Returned (Some url)
         /\ url <> "" /\ (fun _ : string => true) url = true
         /\ Returned {| response_status := 422; response_json := Returned None |}
            = Returned response
         /\ response_ok response = true
         /\ response_json response = Returned result
         /\ insertDetectionAndResults no_fault 2000 result SrcApi url sample_store
            = (sample_store, Returned dbResult)
         /\ body {| status := 422; body := Forwarded None |} = Forwarded result)
  /\ (forall url response result,
        Returned (Some "http://example.org/a.jpg") = Returned (Some url) ->
        url <> "" -> (fun _ : string => true) url = true ->
        Returned {| response_status := 422; response_json := Returned None |}
        = Returned response ->
        response_json response = Returned result ->
        (response_ok response = false ->
         sample_store = sample_store
         /\ body {| status := 422; body := Forwarded None |} = Forwarded result
         /\ status {| status := 422; body := Forwarded None |}
            = if response_status response =? 422 then 422 else 500)
        /\ (forall e,
              response_ok response = true ->
              insertDetectionAndResults no_fault 2000 result SrcApi url sample_store
              = (sample_store, Thrown e) ->
              {| status := 422; body := Forwarded None |}
              = {| status := 500;
                   body :=
                     Failure
                       "An unexpected server error occurred processing the URL."
                       "Failed to save detection result via query function." |}))
  /\ (status {| status := 422; body := Forwarded None |} <> 200 ->
      no_fault FindFirstDetection = false ->
      same_tables sample_store sample_store).
Proof.
  apply (url_route_outcomes no_fault 2000 (fun _ => true)
           (Returned (Some "http://example.org/a.jpg"))
           (Returned {| response_status := 422; response_json := Returned None |})
           sample_store sample_store).
  vm_compute. reflexivity.
Defined.

(** ** [processAndSave] *)

Lemma append_assoc (a b c : string) : (a +:+ b) +:+ c = a +:+ (b +:+ c).
Proof.
  induction a as [|x a IH]; [rewrite !append_nil_l; reflexivity|].
  rewrite !append_cons, IH. reflexivity.
Qed.

(** X21: [processAndSave] does not fail when the ingestion writer throws:
    it returns the detections and the image url of the recognition service
    and reports the failure in [error], after the error of the service when
    there is one.  When the service answered with a status that is not
    [ok], or not at all, nothing is written and the result has no
    detection.  A result that has no error is the body of the service, and
    its detections, when there are some, were saved. *)
Theorem processAndSave_reports_save_failure
    (fault : statement -> bool) (now : Z) (PYTHON_API_URL : string)
    (status_line : FetchResponse -> string)
    (JSON_stringify : option ApiResponse -> string)
    (fetchPromise : outcome FetchResponse) (source : detection_source)
    (originalIdentifier : string) (s s' : Store) (result : ApiResponse) :
  processAndSave fault now PYTHON_API_URL status_line JSON_stringify fetchPromise
    source originalIdentifier s = (s', result) ->
  (forall response apiResponseData e,
     fetchPromise = Returned response ->
     response_ok response = true ->
     response_json response = Returned (Some apiResponseData) ->
     insertDetectionAndResults fault now (Some apiResponseData) source
       originalIdentifier s = (s', Thrown e) ->
     api_detections result = api_detections apiResponseData
     /\ processed_image_url result = processed_image_url apiResponseData
     /\ exists before,
          error result
          = Some (before
                  +:+ "DB save failed: Failed to save detection result via query function.")
          /\ (before = ""
              \/ exists e', error apiResponseData = Some e' /\ before = e' +:+ ". "))
  /\ ((forall response, fetchPromise = Returned response ->
                        response_ok response = false) ->
      s' = s /\ api_detections result = Some [] /\ error result <> None)
  /\ (error result = None ->
      exists response,
        fetchPromise = Returned response
        /\ response_ok response = true
        /\ response_json response = Returned (Some result)
        /\ (api_detections result = None \/ api_detections result = Some []
            \/ exists dbResult,
                 insertDetectionAndResults fault now (Some result) source
                   originalIdentifier s = (s', Returned dbResult))).
Proof.
  intros H. unfold processAndSave in H.
  destruct fetchPromise as [response|message].
  2: { inversion H; subst. split; [|split].
       - intros ? ? ? E. discriminate E.
       - intros _. repeat split. discriminate.
       - discriminate. }
  destruct (response_ok response) eqn:Hok; cbn [negb] in H.
  2: { inversion H; subst. split; [|split].
       - intros ? ? ? E E'. inversion E; subst. congruence.
       - intros _. repeat split. discriminate.
       - discriminate. }
  destruct (response_json response) as [[data|]|message] eqn:Hjson.
  2,3: inversion H; subst; (split; [|split]);
         [intros ? ? ? E _ E'; inversion E; subst; congruence
         |intros Hno; specialize (Hno _ eq_refl); congruence
         |discriminate].
  destruct (api_detections data) as [[|det dets]|] eqn:Hdets.
  1,3: inversion H; subst; (split; [|split]);
         [intros ? ? e E _ E' Hdb; inversion E; subst;
          rewrite Hjson in E'; inversion E'; subst;
          unfold insertDetectionAndResults in Hdb; rewrite Hdets in Hdb;
          discriminate Hdb
         |intros Hno; specialize (Hno _ eq_refl); congruence
         |intros _; exists response; rewrite Hdets; tauto].
  destruct (insertDetectionAndResults fault now (Some data) source
              originalIdentifier s) as [s1 [created|e]] eqn:Hdb;
    inversion H; subst; clear H.
  - split; [|split].
    + intros ? ? e E _ E' Hdb'. inversion E; subst.
      rewrite Hjson in E'. inversion E'; subst. congruence.
    + intros Hno. specialize (Hno _ eq_refl). congruence.
    + intros _. exists response. repeat split; try assumption.
      right. right. eauto.
  - destruct (thrown_is_the_one_error _ _ _ _ _ _ _ _ Hdb) as [-> _].
    split; [|split].
    + intros ? ? e E _ E' Hdb'. inversion E; subst.
      rewrite Hjson in E'. inversion E'; subst.
      cbn [api_detections processed_image_url error].
      split; [congruence|]. split; [reflexivity|].
      destruct (error apiResponseData) as [e'|] eqn:Ee.
      * destruct (truthy_string e').
        -- exists (e' +:+ ". "). split; [|right; eauto].
           f_equal. rewrite append_assoc. reflexivity.
        -- exists "". split; [reflexivity|left; reflexivity].
      * exists "". split; [reflexivity|left; reflexivity].
    + intros Hno. specialize (Hno _ eq_refl). congruence.
    + cbn [error]. discriminate.
Qed.

Lemma processAndSave_witness :
  (forall response apiResponseData e,
     Returned sample_upload = Returned response ->
     response_ok response = true ->
     response_json response = Returned (Some apiResponseData) ->
     insertDetectionAndResults fault_on_results 2000 (Some apiResponseData) SrcUpload
       "b.jpg" sample_store = (fst sample_saved, Thrown e) ->
     api_detections (snd sample_saved) = api_detections apiResponseData
     /\ processed_image_url (snd sample_saved) = processed_image_url apiResponseData
     /\ exists before,
          error (snd sample_saved)
          = Some (before
                  +:+ "DB save failed: Failed to save detection result via query function.")
          /\ (before = ""
              \/ exists e', error apiResponseData = Some e' /\ before = e' +:+ ". "))
  /\ ((forall response, Returned sample_upload = Returned response ->
                        response_ok response = false) ->
      fst sample_saved = sample_store
      /\ api_detections (snd sample_saved) = Some []
      /\ error (snd sample_saved) <> None)
  /\ (error (snd sample_saved) = None ->
      exists response,
        Returned sample_upload = Returned response
        /\ response_ok response = true
        /\ response_json response = Returned (Some (snd sample_saved))
        /\ (api_detections (snd sample_saved) = None
            \/ api_detections (snd sample_saved) = Some []
            \/ exists dbResult,
                 insertDetectionAndResults fault_on_results 2000
                   (Some (snd sample_saved)) SrcUpload "b.jpg" sample_store
                 = (fst sample_saved, Returned dbResult))).
Proof.
  apply (processAndSave_reports_save_failure fault_on_results 2000
           "http://127.0.0.1:8000" (fun _ => "500 Internal Server Error")
           (fun _ => "null") (Returned sample_upload) SrcUpload "b.jpg"
           sample_store (fst sample_saved) (snd sample_saved)).
  vm_compute. reflexivity.
Defined.

(** ** From the ingestion writer to the readers *)

Lemma unfiltered_total tz pagination s :
  store_ok s ->
  0 <= pageIndex pagination ->
  0 <= pageSize pagination ->
  exists result,
    fetchDetectionHistory tz pagination [] [] s = Returned result
    /\ totalRowCount result = Z.of_nat (length (detected_plate_results s)).
Proof.
  intros Hok Hindex Hsize.
  eexists. split.
  { apply (fetchDetectionHistory_returns tz pagination [] [] s); auto.
    apply (plate_ids_unique _ Hok). }
  cbn [totalRowCount]. f_equal.
  replace (parseFiltersToDrizzle tz []) with (@None SQL) by reflexivity.
  rewrite <- (joined_rows_length s (detection_ids_unique _ Hok)
                (plate_ids_unique _ Hok)).
  induction (joined_rows s true) as [|q l IH]; [reflexivity|].
  cbn [List.filter matches length]. rewrite IH. reflexivity.
Qed.

Lemma option_listed {A : Type} `{EqDecision A} (leb : A -> A -> bool)
    (w : option A -> bool) (col : list (option A)) (x : A) :
  In (Some x) col -> w (Some x) = true ->
  In x (non_null (selectDistinct leb w col)).
Proof.
  intros Hin Hw. apply non_null_In, selectDistinct_In. split; assumption.
Qed.

(** X22: what a call of the ingestion writer saved is seen by the readers.
    After a call that returns for a response with [n >= 1] detections whose
    strings fit their columns, the total that the unfiltered history
    reports has grown by [n], and the filter options hold the source of the
    call, every non-empty engine of the response and every vehicle category
    written for it. *)
Theorem saved_detections_are_listed
    (fault : statement -> bool) (now : Z) (response : ApiResponse)
    (dets : list BackendDetection) (source : detection_source)
    (originalImageUrl : string) (s s' : Store) (res : option DetectionSelect)
    (tz : Z) (pagination : ApiPaginationState) :
  store_ok s ->
  api_detections response = Some dets ->
  dets <> [] ->
  Forall (fun det => fits_columns det = true) dets ->
  insertDetectionAndResults fault now (Some response) source originalImageUrl s
  = (s', Returned res) ->
  0 <= pageIndex pagination ->
  0 <= pageSize pagination ->
  (forall before after,
     fetchDetectionHistory tz pagination [] [] s = Returned before ->
     fetchDetectionHistory tz pagination [] [] s' = Returned after ->
     totalRowCount after = totalRowCount before + Z.of_nat (length dets))
  /\ exists o,
       getFilterOptions s' = Returned o
       /\ In (source_label source) (sources o)
       /\ (forall det e,
             In det dets -> ocr_engine_used det = Some e -> e <> "" ->
             In e (ocrEngines o))
       /\ (forall det v,
             In det dets -> vehicleCategory_of (plate_analysis det) = Some v ->
             In (vehicle_label v) (vehicleTypes o)).
Proof.
  intros Hok Hdets Hne _ H Hindex Hsize.
  destruct (ingestion_writes _ _ _ _ _ _ _ _ _ Hok Hdets Hne H)
    as (Hok' & Edet & _ & _ & Eres & _).
  split.
  - intros before' after' Hbefore' Hafter'.
    destruct (unfiltered_total tz pagination s Hok Hindex Hsize)
      as (before & Hbefore & Tbefore).
    destruct (unfiltered_total tz pagination s' Hok' Hindex Hsize)
      as (after & Hafter & Tafter).
    rewrite Hbefore in Hbefore'. rewrite Hafter in Hafter'.
    inversion Hbefore'; subst before'. inversion Hafter'; subst after'.
    rewrite Tafter, Tbefore, Eres, length_app, number_rows_length, length_map.
    lia.
  - eexists. split; [reflexivity|]. cbn [sources ocrEngines vehicleTypes].
    assert (Hrow : forall det, In det dets ->
              exists r, In r (detected_plate_results s')
                        /\ dpr_ocrEngineUsed r = ocr_engine_used det
                        /\ dpr_typeVehicle r = vehicleCategory_of (plate_analysis det)).
    { intros det Hdet. apply In_nth_error in Hdet. destruct Hdet as (n & Hn).
      exists (result_row (detected_plate_results_id_seq s + 1 + Z.of_nat n)
                (detectedPlateData (detections_id_seq s + 1)
                   (records_after dets (license_plates s')) det)).
      split; [|split; reflexivity].
      rewrite Eres. apply in_or_app. right.
      eapply nth_error_In. apply number_rows_nth.
      rewrite nth_error_map, Hn. reflexivity. }
    split; [|split].
    + apply in_map. apply option_listed; [|reflexivity].
      rewrite Edet, map_app. apply in_or_app. right. left. reflexivity.
    + intros det e Hdet He Hnonempty.
      destruct (Hrow det Hdet) as (r & Hr & Hengine & _).
      apply option_listed.
      * apply in_map_iff. exists r. split; [congruence|exact Hr].
      * cbn. destruct (String.eqb_spec e ""); [contradiction|reflexivity].
    + intros det v Hdet Hv.
      destruct (Hrow det Hdet) as (r & Hr & _ & Htype).
      apply in_map. apply option_listed; [|reflexivity].
      apply in_map_iff. exists r. split; [congruence|exact Hr].
Qed.

Lemma saved_detections_witness :
  (forall before after,
     fetchDetectionHistory 0 {| pageIndex := 0; pageSize := 10 |} [] [] sample_store
     = Returned before ->
     fetchDetectionHistory 0 {| pageIndex := 0; pageSize := 10 |} [] []
       analysed_store = Returned after ->
     totalRowCount after
        = totalRowCount before
          + Z.of_nat (length [analysed_detection; sample_detection " "]))
  /\ exists o,
       getFilterOptions analysed_store = Returned o
       /\ In (source_label SrcCamera) (sources o)
       /\ (forall det e,
             In det [analysed_detection; sample_detection " "] ->
             ocr_engine_used det = Some e -> e <> "" ->
             In e (ocrEngines o))
       /\ (forall det v,
             In det [analysed_detection; sample_detection " "] ->
             vehicleCategory_of (plate_analysis det) = Some v ->
             In (vehicle_label v) (vehicleTypes o)).
Proof.
  apply (saved_detections_are_listed no_fault 3000 analysed_response
           [analysed_detection; sample_detection " "] SrcCamera "c.jpg"
           sample_store analysed_store analysed_created 0
           {| pageIndex := 0; pageSize := 10 |}).
  - apply sample_store_ok.
  - reflexivity.
  - discriminate.
  - repeat constructor.
  - vm_compute. reflexivity.
  - cbn. lia.
  - cbn. lia.
Defined.
